(** * ZFamily-memories: the album editor's state store, layout engine,
      snap engine and page normalizer, embedded from the TypeScript sources

    - [src/contexts/AlbumContext.tsx]   the album editing state store
    - [src/lib/layoutUtils.ts]          the layout template engine
    - [src/components/editor/EditorCanvas.tsx]  [findSnappingPoints]
    - [src/lib/normalization.ts]        [normalizePageData]

    Conventions of the embedding.
    - A JavaScript [number] that holds an index, a page number or a stacking
      order is a [Z]; a number that holds a percentage coordinate is a [Q]
      (exact rationals in place of IEEE doubles).
    - The required properties of an interface are record fields; its optional
      properties ([name?: T]) live in a finite map from property names to
      dynamic values, where an absent key reads as [undefined].
    - [Partial<T>] is a list of property assignments, and the object spread
      [{...o, ...updates}] applies them from left to right.
    - [generateId()] and [new Date()] are inputs of the operation that calls
      them.
    - React state is an explicit [Store]; a callback sees the [album] of the
      store it is run on. [uploadMedia] is the exception: it awaits between
      its test of the lock and its write, so it carries the album it was
      called with. *)

From Stdlib Require Import List ZArith QArith Qabs Qround String Bool Lia Lqa Permutation.
From Stdlib Require Import Sorted.
From stdpp Require Import base option gmap strings.
Import ListNotations.

Set Warnings "-register-all".

Local Open Scope string_scope.
Local Open Scope list_scope.
Local Open Scope Z_scope.

(* ===================================================================== *)
(** ** Dynamic values *)
(* ===================================================================== *)

(** A JavaScript value as it occurs in persisted rows and in optional
    properties. *)
Inductive Val : Type :=
| VUndef
| VNull
| VBool (b : bool)
| VNum (q : Q)
| VStr (s : string)
| VArr (items : list Val)
| VObj (fields : list (string * Val)).

(** ** Assets *)

Inductive AssetType : Type :=
| image | video | ribbon | frame | text | sticker | shape.

Definition AssetType_eqb (a b : AssetType) : bool :=
  match a, b with
  | image, image | video, video | ribbon, ribbon | frame, frame
  | text, text | sticker, sticker | shape, shape => true
  | _, _ => false
  end.

(** [interface Asset]: the nine required properties, then the optional ones
    ([scale], [slotId], [flipX], ..., [category]) by name. *)
Record Asset : Type := mkAsset {
  asset_id : string;
  asset_type : AssetType;
  url : string;
  x : Q;
  y : Q;
  width : Q;
  height : Q;
  rotation : Q;
  zIndex : Z;
  props : gmap string Val
}.

(** One entry of a [Partial<Asset>]. *)
Inductive AssetProp : Type :=
| A_id (v : string)
| A_type (v : AssetType)
| A_url (v : string)
| A_x (v : Q)
| A_y (v : Q)
| A_width (v : Q)
| A_height (v : Q)
| A_rotation (v : Q)
| A_zIndex (v : Z)
| A_opt (key : string) (v : Val).

Definition assignAsset (a : Asset) (u : AssetProp) : Asset :=
  match u with
  | A_id v => mkAsset v (asset_type a) (url a) (x a) (y a) (width a) (height a) (rotation a) (zIndex a) (props a)
  | A_type v => mkAsset (asset_id a) v (url a) (x a) (y a) (width a) (height a) (rotation a) (zIndex a) (props a)
  | A_url v => mkAsset (asset_id a) (asset_type a) v (x a) (y a) (width a) (height a) (rotation a) (zIndex a) (props a)
  | A_x v => mkAsset (asset_id a) (asset_type a) (url a) v (y a) (width a) (height a) (rotation a) (zIndex a) (props a)
  | A_y v => mkAsset (asset_id a) (asset_type a) (url a) (x a) v (width a) (height a) (rotation a) (zIndex a) (props a)
  | A_width v => mkAsset (asset_id a) (asset_type a) (url a) (x a) (y a) v (height a) (rotation a) (zIndex a) (props a)
  | A_height v => mkAsset (asset_id a) (asset_type a) (url a) (x a) (y a) (width a) v (rotation a) (zIndex a) (props a)
  | A_rotation v => mkAsset (asset_id a) (asset_type a) (url a) (x a) (y a) (width a) (height a) v (zIndex a) (props a)
  | A_zIndex v => mkAsset (asset_id a) (asset_type a) (url a) (x a) (y a) (width a) (height a) (rotation a) v (props a)
  | A_opt k v => mkAsset (asset_id a) (asset_type a) (url a) (x a) (y a) (width a) (height a) (rotation a) (zIndex a) (<[k := v]> (props a))
  end.

(** [{ ...a, ...updates }] *)
Definition spreadAsset (a : Asset) (updates : list AssetProp) : Asset :=
  fold_left assignAsset updates a.

(** [a.name] for an optional property. *)
Definition getProp (a : Asset) (key : string) : Val :=
  default VUndef (props a !! key).

(** JavaScript truthiness. *)
Definition truthy (v : Val) : bool :=
  match v with
  | VUndef | VNull => false
  | VBool b => b
  | VNum q => negb (Qeq_bool q 0)
  | VStr s => negb (String.eqb s "")
  | VArr _ | VObj _ => true
  end.

(** ** Pages *)

Record Page : Type := mkPage {
  page_id : string;
  pageNumber : Z;
  layoutTemplate : string;
  assets : list Asset;
  backgroundColor : string;
  backgroundOpacity : option Q;
  backgroundImage : option string;
  page_name : option string
}.

(** One entry of a [Partial<Page>]. *)
Inductive PageProp : Type :=
| P_id (v : string)
| P_pageNumber (v : Z)
| P_layoutTemplate (v : string)
| P_assets (v : list Asset)
| P_backgroundColor (v : string)
| P_backgroundOpacity (v : option Q)
| P_backgroundImage (v : option string)
| P_name (v : option string).

Definition assignPage (p : Page) (u : PageProp) : Page :=
  match u with
  | P_id v => mkPage v (pageNumber p) (layoutTemplate p) (assets p) (backgroundColor p) (backgroundOpacity p) (backgroundImage p) (page_name p)
  | P_pageNumber v => mkPage (page_id p) v (layoutTemplate p) (assets p) (backgroundColor p) (backgroundOpacity p) (backgroundImage p) (page_name p)
  | P_layoutTemplate v => mkPage (page_id p) (pageNumber p) v (assets p) (backgroundColor p) (backgroundOpacity p) (backgroundImage p) (page_name p)
  | P_assets v => mkPage (page_id p) (pageNumber p) (layoutTemplate p) v (backgroundColor p) (backgroundOpacity p) (backgroundImage p) (page_name p)
  | P_backgroundColor v => mkPage (page_id p) (pageNumber p) (layoutTemplate p) (assets p) v (backgroundOpacity p) (backgroundImage p) (page_name p)
  | P_backgroundOpacity v => mkPage (page_id p) (pageNumber p) (layoutTemplate p) (assets p) (backgroundColor p) v (backgroundImage p) (page_name p)
  | P_backgroundImage v => mkPage (page_id p) (pageNumber p) (layoutTemplate p) (assets p) (backgroundColor p) (backgroundOpacity p) v (page_name p)
  | P_name v => mkPage (page_id p) (pageNumber p) (layoutTemplate p) (assets p) (backgroundColor p) (backgroundOpacity p) (backgroundImage p) v
  end.

(** [{ ...p, ...updates }] *)
Definition spreadPage (p : Page) (updates : list PageProp) : Page :=
  fold_left assignPage updates p.

(** An element of [album.pages] at run time. It is a [Page], except after
    [reorderPages] found nothing to move: [splice] then inserts [undefined],
    and the renumbering [{ ...p, pageNumber: i + 1 }] turns that into the
    object [{ pageNumber: n }], which has no other property. *)
Inductive PageObj : Type :=
| PageOf (p : Page)
| Bare (n : Z).

(** [p.id], [p.layoutTemplate], [p.pageNumber] on such an element. *)
Definition obj_id (o : PageObj) : option string :=
  match o with PageOf p => Some (page_id p) | Bare _ => None end.

Definition obj_layoutTemplate (o : PageObj) : option string :=
  match o with PageOf p => Some (layoutTemplate p) | Bare _ => None end.

Definition obj_pageNumber (o : PageObj) : Z :=
  match o with PageOf p => pageNumber p | Bare n => n end.

(** [p.id === pageId] *)
Definition hasId (pageId : string) (o : PageObj) : bool :=
  match o with PageOf p => String.eqb (page_id p) pageId | Bare _ => false end.

(** [p.layoutTemplate === t] *)
Definition hasTemplate (t : string) (o : PageObj) : bool :=
  match o with PageOf p => String.eqb (layoutTemplate p) t | Bare _ => false end.

(** ** Album *)

Inductive Unit_ : Type := px | inch | cm.

Record Dimensions : Type := mkDimensions {
  dim_width : Q; dim_height : Q; dim_unit : Unit_; bleed : Q; gutter : Q
}.

Record GridSettings : Type := mkGridSettings {
  grid_size : Q; grid_snap : bool; grid_visible : bool
}.

Record AlbumConfig : Type := mkConfig {
  dimensions : Dimensions;
  useSpreadView : bool;
  gridSettings : GridSettings;
  styleSync : option bool;
  isLocked : option bool
}.

(** One entry of a [Partial<AlbumConfig>]. *)
Inductive ConfigProp : Type :=
| C_dimensions (v : Dimensions)
| C_useSpreadView (v : bool)
| C_gridSettings (v : GridSettings)
| C_styleSync (v : option bool)
| C_isLocked (v : option bool).

Definition assignConfig (c : AlbumConfig) (u : ConfigProp) : AlbumConfig :=
  match u with
  | C_dimensions v => mkConfig v (useSpreadView c) (gridSettings c) (styleSync c) (isLocked c)
  | C_useSpreadView v => mkConfig (dimensions c) v (gridSettings c) (styleSync c) (isLocked c)
  | C_gridSettings v => mkConfig (dimensions c) (useSpreadView c) v (styleSync c) (isLocked c)
  | C_styleSync v => mkConfig (dimensions c) (useSpreadView c) (gridSettings c) v (isLocked c)
  | C_isLocked v => mkConfig (dimensions c) (useSpreadView c) (gridSettings c) (styleSync c) v
  end.

Definition spreadConfig (c : AlbumConfig) (updates : list ConfigProp) : AlbumConfig :=
  fold_left assignConfig updates c.

Record Album : Type := mkAlbum {
  album_id : string;
  family_id : string;
  title : string;
  description : option string;
  category : option string;
  coverUrl : option string;
  pages : list PageObj;
  unplacedMedia : list Asset;
  hashtags : list string;
  config : AlbumConfig;
  createdAt : Z;
  updatedAt : Z;
  isPublished : bool;
  location : option string;
  country : option string;
  geotag : option (Q * Q)
}.

(** [album.config.isLocked] used as a condition. *)
Definition locked (a : Album) : bool :=
  match isLocked (config a) with Some b => b | None => false end.

(** [{ ...album, pages: ps, updatedAt: now }] *)
Definition withPages (a : Album) (ps : list PageObj) (now : Z) : Album :=
  mkAlbum (album_id a) (family_id a) (title a) (description a) (category a)
    (coverUrl a) ps (unplacedMedia a) (hashtags a) (config a) (createdAt a)
    now (isPublished a) (location a) (country a) (geotag a).

(** [{ ...album, unplacedMedia: um, updatedAt: now }] *)
Definition withUnplaced (a : Album) (um : list Asset) (now : Z) : Album :=
  mkAlbum (album_id a) (family_id a) (title a) (description a) (category a)
    (coverUrl a) (pages a) um (hashtags a) (config a) (createdAt a)
    now (isPublished a) (location a) (country a) (geotag a).

(** [{ ...album, config: c, updatedAt: now }] *)
Definition withConfig (a : Album) (c : AlbumConfig) (now : Z) : Album :=
  mkAlbum (album_id a) (family_id a) (title a) (description a) (category a)
    (coverUrl a) (pages a) (unplacedMedia a) (hashtags a) c (createdAt a)
    now (isPublished a) (location a) (country a) (geotag a).

(* ===================================================================== *)
(** ** The store: [AlbumProvider]'s state *)
(* ===================================================================== *)

Record Store : Type := mkStore {
  album : option Album;
  history : list Album;
  redoStack : list Album;
  currentPageIndex : Z;
  selectedAssetId : option string
}.

(** What the argument of [setAlbum] resolves to. [prev !== resolved]
    compares references: an updater that returns [prev] itself resolves to
    [Unchanged]; an object literal, or [null], is a reference that [prev] is
    not. *)
Inductive Resolved : Type :=
| Unchanged
| Replaced (r : option Album).

(** [h.slice(-n)] *)
Definition sliceLast {A : Type} (n : nat) (h : list A) : list A :=
  skipn (length h - n)%nat h.

(** [h.slice(0, -1)] *)
Definition dropLast {A : Type} (h : list A) : list A := removelast h.

Definition setAlbum (newAlbum : option Album -> Resolved) (s : Store) : Store :=
  match newAlbum (album s) with
  | Unchanged => s
  | Replaced resolved =>
      match album s, resolved with
      | Some prev, Some _ =>
          mkStore resolved (sliceLast 19 (history s) ++ [prev]) []
            (currentPageIndex s) (selectedAssetId s)
      | _, _ =>
          mkStore resolved (history s) (redoStack s)
            (currentPageIndex s) (selectedAssetId s)
      end
  end.

(** [setAlbum({ ... })]: a value, not an updater. *)
Definition setAlbumTo (a : Album) : Store -> Store :=
  setAlbum (fun _ => Replaced (Some a)).

Definition undo (s : Store) : Store :=
  match last (history s) with
  | None => s
  | Some previous =>
      mkStore (Some previous) (dropLast (history s))
        (match album s with
         | Some current => redoStack s ++ [current]
         | None => redoStack s
         end)
        (currentPageIndex s) (selectedAssetId s)
  end.

Definition redo (s : Store) : Store :=
  match last (redoStack s) with
  | None => s
  | Some next =>
      mkStore (Some next)
        (match album s with
         | Some current => history s ++ [current]
         | None => history s
         end)
        (dropLast (redoStack s))
        (currentPageIndex s) (selectedAssetId s)
  end.

Definition setCurrentPageIndex (i : Z) (s : Store) : Store :=
  mkStore (album s) (history s) (redoStack s) i (selectedAssetId s).

Definition setSelectedAssetId (i : option string) (s : Store) : Store :=
  mkStore (album s) (history s) (redoStack s) (currentPageIndex s) i.

(* ===================================================================== *)
(** ** Array helpers *)
(* ===================================================================== *)

(** [l.findIndex(f)], [-1] when no element satisfies [f]. *)
Fixpoint findIndex {A : Type} (f : A -> bool) (l : list A) : Z :=
  match l with
  | [] => -1
  | a :: l' =>
      if f a then 0
      else let r := findIndex f l' in if r =? -1 then -1 else r + 1
  end.

(** [l[i]] for a JavaScript index. *)
Definition at_ {A : Type} (l : list A) (i : Z) : option A :=
  if i <? 0 then None else nth_error l (Z.to_nat i).

(** The position at which [l.splice(start, ...)] operates: a negative
    [start] counts from the end, and the result is clamped to [0..len]. *)
Definition spliceStart (start : Z) (len : nat) : nat :=
  if start <? 0 then Z.to_nat (Z.max (Z.of_nat len + start) 0)
  else Nat.min (Z.to_nat start) len.

(** [l.splice(start, deleteCount, ...items)]: the removed elements and the
    array afterwards. *)
Definition splice {A : Type} (start : Z) (deleteCount : nat) (items l : list A)
  : list A * list A :=
  let k := spliceStart start (length l) in
  (firstn deleteCount (skipn k l),
   firstn k l ++ items ++ skipn (k + deleteCount) l).

(** [{ ...p, pageNumber: i + 1 }], where [p] may be [undefined]. *)
Definition renumberOne (i : nat) (o : option PageObj) : PageObj :=
  match o with
  | Some (PageOf p) => PageOf (assignPage p (P_pageNumber (Z.of_nat i + 1)))
  | Some (Bare _) | None => Bare (Z.of_nat i + 1)
  end.

(** [ps.map((p, i) => ({ ...p, pageNumber: i + 1 }))] *)
Definition renumberU (ps : list (option PageObj)) : list PageObj :=
  imap renumberOne ps.

Definition renumber (ps : list PageObj) : list PageObj :=
  renumberU (map Some ps).

(** [pages.map(p => p.id === pageId ? f(p) : p)] *)
Definition onPage (pageId : string) (f : Page -> Page) (o : PageObj) : PageObj :=
  match o with
  | PageOf p => if String.eqb (page_id p) pageId then PageOf (f p) else o
  | Bare _ => o
  end.

(** [pages.find(p => p.id === pageId)]: an element with an [id] is a Page. *)
Fixpoint findPage (pageId : string) (ps : list PageObj) : option Page :=
  match ps with
  | [] => None
  | PageOf p :: ps' =>
      if String.eqb (page_id p) pageId then Some p else findPage pageId ps'
  | Bare _ :: ps' => findPage pageId ps'
  end.

(** [a.id === assetId] *)
Definition isAsset (assetId : string) (a : Asset) : bool :=
  String.eqb (asset_id a) assetId.

(** [Math.max(...zs, 0)] and [Math.min(...zs, 0)] *)
Definition maxWith0 (zs : list Z) : Z := fold_right Z.max 0 zs.
Definition minWith0 (zs : list Z) : Z := fold_right Z.min 0 zs.

(* ===================================================================== *)
(** ** Page operations of the store *)
(* ===================================================================== *)

Definition addPage (template : option string) (id1 id2 : string) (now : Z)
  (s : Store) : Store :=
  match album s with
  | None => s
  | Some a =>
      if locked a then s else
      let template := default "freeform" template in
      let backCoverIndex := findIndex (hasTemplate "cover-back") (pages a) in
      let insertIndex :=
        if negb (backCoverIndex =? -1) then backCoverIndex
        else Z.of_nat (length (pages a)) in
      let newPage1 := mkPage id1 (insertIndex + 1) template [] "#ffffff" None None None in
      let newPage2 := mkPage id2 (insertIndex + 2) template [] "#ffffff" None None None in
      let newPages := snd (splice insertIndex 0 [PageOf newPage1; PageOf newPage2] (pages a)) in
      setCurrentPageIndex insertIndex
        (setAlbumTo (withPages a (renumber newPages) now) s)
  end.

Definition removePage (pageId : string) (now : Z) (s : Store) : Store :=
  match album s with
  | None => s
  | Some a =>
      if (length (pages a) <=? 1)%nat || locked a then s else
      let newPages := List.filter (fun p => negb (hasId pageId p)) (pages a) in
      setCurrentPageIndex (Z.max 0 (currentPageIndex s - 1))
        (setAlbumTo (withPages a (renumber newPages) now) s)
  end.

Definition updatePage (pageId : string) (updates : list PageProp) (now : Z)
  (s : Store) : Store :=
  match album s with
  | None => s
  | Some a =>
      if locked a then s else
      setAlbumTo
        (withPages a (map (onPage pageId (fun p => spreadPage p updates)) (pages a)) now) s
  end.

Definition applyLayout (pageId : string) (template : string) (now : Z)
  (s : Store) : Store :=
  match album s with
  | None => s
  | Some a =>
      if locked a then s else
      setAlbumTo
        (withPages a
           (map (onPage pageId (fun p => assignPage p (P_layoutTemplate template))) (pages a))
           now) s
  end.

(** [generateId()] is called once for the page and then once per asset, in
    order: [freshId 0], [freshId 1], ... *)
Definition duplicatePage (pageId : string) (freshId : nat -> string) (now : Z)
  (s : Store) : Store :=
  match album s with
  | None => s
  | Some a =>
      if locked a then s else
      match findPage pageId (pages a) with
      | None => s
      | Some pageToDuplicate =>
          let newPage :=
            mkPage (freshId 0%nat) (Z.of_nat (length (pages a)) + 1)
              (layoutTemplate pageToDuplicate)
              (imap (fun i asset => assignAsset asset (A_id (freshId (S i))))
                 (assets pageToDuplicate))
              (backgroundColor pageToDuplicate) (backgroundOpacity pageToDuplicate)
              (backgroundImage pageToDuplicate) (page_name pageToDuplicate) in
          let pageIndex := findIndex (hasId pageId) (pages a) in
          let newPages := snd (splice (pageIndex + 1) 0 [PageOf newPage] (pages a)) in
          setCurrentPageIndex (pageIndex + 1)
            (setAlbumTo (withPages a (renumber newPages) now) s)
      end
  end.

(** ['left' | 'right'] *)
Inductive Direction : Type := Left | Right.

Definition movePage (pageId : string) (direction : Direction) (now : Z)
  (s : Store) : Store :=
  match album s with
  | None => s
  | Some a =>
      if locked a then s else
      let len := Z.of_nat (length (pages a)) in
      let currentIndex := findIndex (hasId pageId) (pages a) in
      if currentIndex =? -1 then s else
      if (currentIndex =? 0) || (currentIndex =? len - 1) then s else
      let newIndex :=
        match direction with Left => currentIndex - 1 | Right => currentIndex + 1 end in
      if (newIndex <=? 0) || (newIndex >=? len - 1) then s else
      let '(movedPage, rest) := splice currentIndex 1 [] (pages a) in
      let newPages := snd (splice newIndex 0 [head movedPage] (map Some rest)) in
      setCurrentPageIndex newIndex
        (setAlbumTo (withPages a (renumberU newPages) now) s)
  end.

Definition reorderPages (fromIndex toIndex : Z) (now : Z) (s : Store) : Store :=
  match album s with
  | None => s
  | Some a =>
      if locked a then s else
      let len := Z.of_nat (length (pages a)) in
      if (fromIndex =? 0) || (fromIndex =? len - 1) then s else
      let safeToIndex := toIndex in
      let safeToIndex := if safeToIndex <=? 0 then 1 else safeToIndex in
      let safeToIndex := if safeToIndex >=? len - 1 then len - 2 else safeToIndex in
      let '(movedPage, rest) := splice fromIndex 1 [] (pages a) in
      let pages' := snd (splice safeToIndex 0 [head movedPage] (map Some rest)) in
      setAlbumTo (withPages a (renumberU pages') now) s
  end.

(* ===================================================================== *)
(** ** Asset operations of the store *)
(* ===================================================================== *)

(** [asset] is the [Omit<Asset, 'id'>] argument: its [asset_id] is
    overwritten. *)
Definition addAsset (pageId : string) (asset : Asset) (newId : string) (now : Z)
  (s : Store) : Store :=
  match album s with
  | None => s
  | Some a =>
      if locked a then s else
      let newAsset := assignAsset asset (A_id newId) in
      setSelectedAssetId (Some (asset_id newAsset))
        (setAlbumTo
           (withPages a
              (map (onPage pageId (fun p => assignPage p (P_assets (assets p ++ [newAsset]))))
                 (pages a))
              now) s)
  end.

Definition updateAsset (pageId assetId : string) (updates : list AssetProp)
  (now : Z) (s : Store) : Store :=
  match album s with
  | None => s
  | Some a =>
      if locked a then s else
      setAlbumTo
        (withPages a
           (map (onPage pageId (fun p =>
              assignPage p (P_assets
                (map (fun x => if isAsset assetId x then spreadAsset x updates else x)
                   (assets p)))))
              (pages a))
           now) s
  end.

Definition removeAsset (pageId assetId : string) (now : Z) (s : Store) : Store :=
  match album s with
  | None => s
  | Some a =>
      if locked a then s else
      let s' :=
        setAlbumTo
          (withPages a
             (map (onPage pageId (fun p =>
                assignPage p (P_assets
                  (List.filter (fun x => negb (isAsset assetId x)) (assets p)))))
                (pages a))
             now) s in
      match selectedAssetId s with
      | Some sel => if String.eqb sel assetId then setSelectedAssetId None s' else s'
      | None => s'
      end
  end.

Definition duplicateAsset (pageId assetId : string) (newId : string) (now : Z)
  (s : Store) : Store :=
  match album s with
  | None => s
  | Some a =>
      if locked a then s else
      match
        match findPage pageId (pages a) with
        | Some page => List.find (isAsset assetId) (assets page)
        | None => None
        end
      with
      | None => s
      | Some sourceAsset =>
          let newAsset :=
            spreadAsset sourceAsset
              [A_id newId; A_x (x sourceAsset + 20)%Q; A_y (y sourceAsset + 20)%Q;
               A_zIndex (zIndex sourceAsset + 1)] in
          setSelectedAssetId (Some (asset_id newAsset))
            (setAlbumTo
               (withPages a
                  (map (onPage pageId (fun p => assignPage p (P_assets (assets p ++ [newAsset]))))
                     (pages a))
                  now) s)
      end
  end.

(** ['front' | 'back'] *)
Inductive ZDirection : Type := Front | Back.

Definition updateAssetZIndex (pageId assetId : string) (direction : ZDirection)
  (now : Z) (s : Store) : Store :=
  match album s with
  | None => s
  | Some a =>
      if locked a then s else
      match findPage pageId (pages a) with
      | None => s
      | Some page =>
          match List.find (isAsset assetId) (assets page) with
          | None => s
          | Some _ =>
              let maxZ := maxWith0 (map zIndex (assets page)) in
              let minZ := minWith0 (map zIndex (assets page)) in
              let newZIndex := match direction with Front => maxZ + 1 | Back => minZ - 1 end in
              updateAsset pageId assetId [A_zIndex newZIndex] now s
          end
      end
  end.

(** [uploadMedia]: [captured] is the album the callback was created with,
    checked before the first [await]; [uploadedAssets] is what the upload loop
    collected; the final [setAlbum(prev => ...)] runs on the store of that
    later moment. *)
Definition uploadMedia (captured : option Album) (uploadedAssets : list Asset)
  (now : Z) (s : Store) : Store :=
  match captured with
  | None => s
  | Some a =>
      if locked a then s else
      setAlbum (fun prev =>
        match prev with
        | Some prev => Replaced (Some (withUnplaced prev (unplacedMedia prev ++ uploadedAssets) now))
        | None => Replaced None
        end) s
  end.

Definition addMediaByUrl (url_ : string) (type_ : AssetType) (newId : string)
  (now : Z) (s : Store) : Store :=
  match album s with
  | None => s
  | Some a =>
      if locked a then s else
      let newAsset := mkAsset newId type_ url_ 0 0 400 300 0 1 ∅ in
      setAlbum (fun prev =>
        match prev with
        | Some prev => Replaced (Some (withUnplaced prev (unplacedMedia prev ++ [newAsset]) now))
        | None => Replaced None
        end) s
  end.

Definition moveFromLibrary (assetId pageId : string) (now : Z) (s : Store) : Store :=
  match album s with
  | None => s
  | Some a =>
      if locked a then s else
      match List.find (isAsset assetId) (unplacedMedia a) with
      | None => s
      | Some asset =>
          setAlbumTo
            (withPages
               (withUnplaced a
                  (List.filter (fun x => negb (isAsset assetId x)) (unplacedMedia a)) now)
               (map (onPage pageId (fun p =>
                  assignPage p (P_assets
                    (assets p ++ [spreadAsset asset [A_x 50%Q; A_y 50%Q]]))))
                  (pages a))
               now) s
      end
  end.

Definition updateConfig (updates : list ConfigProp) (now : Z) (s : Store) : Store :=
  match album s with
  | None => s
  | Some a =>
      if locked a then s else
      setAlbumTo (withConfig a (spreadConfig (config a) updates) now) s
  end.

Definition toggleSpreadView (now : Z) (s : Store) : Store :=
  match album s with
  | None => s
  | Some a => updateConfig [C_useSpreadView (negb (useSpreadView (config a)))] now s
  end.

Definition updatePageAssets (pageId : string) (newAssets : list Asset) (now : Z)
  (s : Store) : Store :=
  setAlbum (fun prev =>
    match prev with
    | None => Unchanged
    | Some prev =>
        if locked prev then Unchanged else
        Replaced (Some
          (withPages prev
             (map (onPage pageId (fun p => assignPage p (P_assets newAssets))) (pages prev))
             now))
    end) s.

(** The page mapping of [moveAssetToPage]. *)
Definition moveAssetOnPage (assetId fromPageId toPageId : string) (asset : Asset)
  (newX newY : Q) (o : PageObj) : PageObj :=
  match o with
  | PageOf p =>
      if String.eqb (page_id p) fromPageId then
        PageOf (assignPage p (P_assets
          (List.filter (fun x => negb (isAsset assetId x)) (assets p))))
      else if String.eqb (page_id p) toPageId then
        PageOf (assignPage p (P_assets
          (assets p ++ [spreadAsset asset [A_x newX; A_y newY]])))
      else o
  | Bare _ => o
  end.

Definition moveAssetToPage (assetId fromPageId toPageId : string) (newX newY : Q)
  (now : Z) (s : Store) : Store :=
  setAlbum (fun prev =>
    match prev with
    | None => Unchanged
    | Some prev =>
        if locked prev then Unchanged else
        match
          match findPage fromPageId (pages prev) with
          | Some fromPage => List.find (isAsset assetId) (assets fromPage)
          | None => None
          end
        with
        | None => Unchanged
        | Some asset =>
            Replaced (Some
              (withPages prev
                 (map (moveAssetOnPage assetId fromPageId toPageId asset newX newY)
                    (pages prev))
                 now))
        end
    end) s.

(** The result of an operation that can raise a [TypeError]. *)
Inductive Outcome : Type :=
| Done (s : Store)
| Throws.

(** [targetStyles] of [syncStyles]: the ten style properties of the source
    asset, each copied even when it is [undefined]. *)
Definition targetStyles (sourceAsset : option Asset) : list AssetProp :=
  match sourceAsset with
  | None => []
  | Some src =>
      map (fun k => A_opt k (getProp src k))
        ["borderRadius"; "borderColor"; "borderWidth"; "filter"; "filterIntensity";
         "fontFamily"; "fontSize"; "fontWeight"; "color"; "opacity"]
  end.

(** [a.type === sourceAsset?.type] *)
Definition sameType (sourceAsset : option Asset) (a : Asset) : bool :=
  match sourceAsset with
  | Some src => AssetType_eqb (asset_type a) (asset_type src)
  | None => false
  end.

(** [{ ...p, assets: p.assets.map(...) }]: on an element without [assets]
    the call [p.assets.map] raises. *)
Definition syncPage (sourceAsset : option Asset) (o : PageObj) : option PageObj :=
  match o with
  | PageOf p =>
      Some (PageOf (assignPage p (P_assets
        (map (fun x =>
           if sameType sourceAsset x then spreadAsset x (targetStyles sourceAsset) else x)
           (assets p)))))
  | Bare _ => None
  end.

Definition syncStyles (sourceAsset : option Asset) (now : Z) (s : Store) : Outcome :=
  match album s with
  | None => Done s
  | Some a =>
      if locked a then Done s else
      match mapM (syncPage sourceAsset) (pages a) with
      | None => Throws
      | Some ps => Done (setAlbumTo (withPages a ps now) s)
      end
  end.

Definition toggleLock (now : Z) (s : Store) : Store :=
  match album s with
  | None => s
  | Some a =>
      let newLockedState := negb (locked a) in
      setAlbum (fun prev =>
        match prev with
        | Some prev =>
            Replaced (Some
              (withConfig prev (assignConfig (config prev) (C_isLocked (Some newLockedState))) now))
        | None => Replaced None
        end) s
  end.

(* ===================================================================== *)
(** ** Spread pairing *)
(* ===================================================================== *)

Definition getSpread (s : Store) (pageIndex : Z) : list PageObj :=
  match album s with
  | None => []
  | Some a =>
      match at_ (pages a) pageIndex with
      | None => []
      | Some page =>
          if negb (useSpreadView (config a)) then [page] else
          if hasTemplate "cover-front" page then [page] else
          if hasTemplate "cover-back" page then [page] else
          let isLeftIdx := Z.rem pageIndex 2 =? 1 in
          if isLeftIdx then
            match at_ (pages a) (pageIndex + 1) with
            | Some nextPage =>
                if negb (hasTemplate "cover-back" nextPage) then [page; nextPage]
                else [page]
            | None => [page]
            end
          else
            match at_ (pages a) (pageIndex - 1) with
            | Some prevPage =>
                if negb (hasTemplate "cover-front" prevPage) then [prevPage; page]
                else [page]
            | None => [page]
            end
      end
  end.

(* ===================================================================== *)
(** ** Calls against the store *)
(* ===================================================================== *)

(** An edit: [setAlbum] called with a new album object. *)
Definition edits (es : list Album) (s : Store) : Store :=
  fold_left (fun s a => setAlbumTo a s) es s.

(** A call of one of the page-structural operations, with the identifiers
    and the time it draws. *)
Inductive PageOp : Type :=
| AddPage (template : option string) (id1 id2 : string) (now : Z)
| RemovePage (pageId : string) (now : Z)
| DuplicatePage (pageId : string) (freshId : nat -> string) (now : Z)
| MovePage (pageId : string) (direction : Direction) (now : Z)
| ReorderPages (fromIndex toIndex : Z) (now : Z).

Definition runPageOp (s : Store) (op : PageOp) : Store :=
  match op with
  | AddPage t i1 i2 now => addPage t i1 i2 now s
  | RemovePage p now => removePage p now s
  | DuplicatePage p f now => duplicatePage p f now s
  | MovePage p d now => movePage p d now s
  | ReorderPages i j now => reorderPages i j now s
  end.

Definition runPageOps (ops : list PageOp) (s : Store) : Store :=
  fold_left runPageOp ops s.

(** A call of one of the mutating operations of the store other than
    [toggleLock], [undo] and [redo]. An [uploadMedia] call carries the album
    its callback was created with: the lock is tested on that album when the
    call is made, and the store is changed when the upload has ended. *)
Inductive Mutation : Type :=
| M_addPage (template : option string) (id1 id2 : string)
| M_removePage (pageId : string)
| M_updatePage (pageId : string) (updates : list PageProp)
| M_addAsset (pageId : string) (asset : Asset) (newId : string)
| M_updateAsset (pageId assetId : string) (updates : list AssetProp)
| M_removeAsset (pageId assetId : string)
| M_duplicateAsset (pageId assetId : string) (newId : string)
| M_updateAssetZIndex (pageId assetId : string) (direction : ZDirection)
| M_uploadMedia (captured : option Album) (uploadedAssets : list Asset)
| M_addMediaByUrl (url_ : string) (type_ : AssetType) (newId : string)
| M_moveFromLibrary (assetId pageId : string)
| M_applyLayout (pageId template : string)
| M_duplicatePage (pageId : string) (freshId : nat -> string)
| M_movePage (pageId : string) (direction : Direction)
| M_reorderPages (fromIndex toIndex : Z)
| M_updateConfig (updates : list ConfigProp)
| M_updatePageAssets (pageId : string) (newAssets : list Asset)
| M_moveAssetToPage (assetId fromPageId toPageId : string) (newX newY : Q)
| M_syncStyles (sourceAsset : option Asset).

Definition mutate (m : Mutation) (now : Z) (s : Store) : Outcome :=
  match m with
  | M_addPage t i1 i2 => Done (addPage t i1 i2 now s)
  | M_removePage p => Done (removePage p now s)
  | M_updatePage p u => Done (updatePage p u now s)
  | M_addAsset p a i => Done (addAsset p a i now s)
  | M_updateAsset p a u => Done (updateAsset p a u now s)
  | M_removeAsset p a => Done (removeAsset p a now s)
  | M_duplicateAsset p a i => Done (duplicateAsset p a i now s)
  | M_updateAssetZIndex p a d => Done (updateAssetZIndex p a d now s)
  | M_uploadMedia captured us => Done (uploadMedia captured us now s)
  | M_addMediaByUrl u t i => Done (addMediaByUrl u t i now s)
  | M_moveFromLibrary a p => Done (moveFromLibrary a p now s)
  | M_applyLayout p t => Done (applyLayout p t now s)
  | M_duplicatePage p f => Done (duplicatePage p f now s)
  | M_movePage p d => Done (movePage p d now s)
  | M_reorderPages i j => Done (reorderPages i j now s)
  | M_updateConfig u => Done (updateConfig u now s)
  | M_updatePageAssets p l => Done (updatePageAssets p l now s)
  | M_moveAssetToPage a f t nx ny => Done (moveAssetToPage a f t nx ny now s)
  | M_syncStyles src => syncStyles src now s
  end.


(* ===================================================================== *)
(** ** Concrete albums *)
(* ===================================================================== *)

(** [DEFAULT_CONFIG] *)
Definition DEFAULT_CONFIG : AlbumConfig :=
  mkConfig (mkDimensions 1000 700 px 25 40) true (mkGridSettings 20 true false)
    None None.

(** A page without assets, as [addPage] and the default skeleton make them. *)
Definition blankPage (pageId : string) (n : Z) (template : string) : PageObj :=
  PageOf (mkPage pageId n template [] "#ffffff" None None None).

(** An image asset of 40 x 30 at the origin. *)
Definition imageAsset (assetId : string) (z : Z) : Asset :=
  mkAsset assetId image "u" 0 0 40 30 0 z ∅.

Definition pageWith (pageId : string) (n : Z) (template : string)
  (l : list Asset) : PageObj :=
  PageOf (mkPage pageId n template l "#ffffff" None None None).

Definition albumOf (ps : list PageObj) (c : AlbumConfig) : Album :=
  mkAlbum "album" "family" "Title" None None None ps [] [] c 0 0 false
    None None None.

Definition storeOf (a : Album) : Store := mkStore (Some a) [] [] 0 None.

(** The default skeleton: front cover, two content pages, back cover. *)
Definition skeleton : list PageObj :=
  [blankPage "p1" 1 "cover-front"; blankPage "p2" 2 "freeform";
   blankPage "p3" 3 "freeform"; blankPage "p4" 4 "cover-back"].

(* ===================================================================== *)
(** ** Properties of page lists *)
(* ===================================================================== *)

(** The page numbers, read in list order, are 1, 2, ..., M for the M pages
    of the list. *)
Definition numbered (ps : list PageObj) : Prop :=
  map obj_pageNumber ps = map (fun i => Z.of_nat i + 1) (seq 0 (length ps)).

(** The invariant: an album is loaded and its pages are numbered 1..M. *)
Definition wellNumbered (s : Store) : Prop :=
  exists a, album s = Some a /\ numbered (pages a).

(** A page with its number blanked: what is left is its id, template,
    assets, background and name. *)
Definition erasePageNumber (o : PageObj) : PageObj :=
  match o with
  | PageOf p => PageOf (assignPage p (P_pageNumber 0))
  | Bare _ => Bare 0
  end.

(** The same pages, up to their order and their numbers. *)
Definition samePages (ps ps' : list PageObj) : Prop :=
  Permutation (map erasePageNumber ps) (map erasePageNumber ps').

(** The call is a [movePage], or a [reorderPages] whose [fromIndex] lies
    below the page count of a non-empty album, so that [splice] finds a page
    to take out. *)
Definition movesExistingPage (op : PageOp) (ps : list PageObj) : Prop :=
  match op with
  | MovePage _ _ _ => True
  | ReorderPages fromIndex _ _ => ps <> [] /\ fromIndex < Z.of_nat (length ps)
  | _ => False
  end.

(* ===================================================================== *)
(** ** Properties of asset placement *)
(* ===================================================================== *)

(** The asset list of the page has an asset with this id. *)
Definition holds (assetId : string) (o : PageObj) : bool :=
  match o with
  | PageOf p => existsb (isAsset assetId) (assets p)
  | Bare _ => false
  end.

(** On how many pages' asset lists the asset appears. *)
Definition pagesHolding (assetId : string) (ps : list PageObj) : nat :=
  length (List.filter (holds assetId) ps).

(** The ids of the pages, in list order. *)
Fixpoint pageIds (ps : list PageObj) : list string :=
  match ps with
  | [] => []
  | PageOf p :: ps' => page_id p :: pageIds ps'
  | Bare _ :: ps' => pageIds ps'
  end.

(** [g] applied to the elements that are pages. *)
Definition liftPage (g : Page -> Page) (o : PageObj) : PageObj :=
  match o with PageOf p => PageOf (g p) | Bare _ => o end.

(** The page mapping of [moveAssetToPage], on pages. *)
Definition movedPage (assetId fromPageId toPageId : string) (asset : Asset)
  (newX newY : Q) (p : Page) : Page :=
  if String.eqb (page_id p) fromPageId then
    assignPage p (P_assets (List.filter (fun x => negb (isAsset assetId x)) (assets p)))
  else if String.eqb (page_id p) toPageId then
    assignPage p (P_assets (assets p ++ [spreadAsset asset [A_x newX; A_y newY]]))
  else p.

(** The reading of "maximum (minimum) zIndex among its sibling assets": the
    other assets of the page, and nothing else. *)
Definition siblingsZ (assetId : string) (page : Page) : list Z :=
  map zIndex (List.filter (fun x => negb (isAsset assetId x)) (assets page)).

Definition listMax (zs : list Z) : option Z :=
  match zs with [] => None | z :: zs' => Some (fold_right Z.max z zs') end.

Definition listMin (zs : list Z) : option Z :=
  match zs with [] => None | z :: zs' => Some (fold_right Z.min z zs') end.

(* ===================================================================== *)
(** ** Layout template engine ([lib/layoutUtils.ts]) *)
(* ===================================================================== *)

(** Modelled from the spec: the types [LayoutConfig] and [AlbumLayout] of
    [data/defaultLayouts], which [layoutUtils.ts] imports. A template has a
    name, a spread flag and an ordered list of slots, each with x or left,
    y or top, width, height, z_index and an optional rotation; these are the
    properties the engine reads. *)
Record LayoutConfig : Type := mkSlot {
  slot_x : option Q;
  slot_left : option Q;
  slot_y : option Q;
  slot_top : option Q;
  slot_width : Q;
  slot_height : Q;
  slot_rotation : option Q;
  z_index : Z
}.

Record AlbumLayout : Type := mkLayout {
  layout_name : string;
  is_spread : bool;
  layout_config : list LayoutConfig
}.

(** [createPlaceholder(zIndex)], with the id that [generateId()] returns. *)
Definition createPlaceholder (zIndex_ : Z) (newId : string) : Asset :=
  mkAsset newId image "" 0 0 100 100 0 zIndex_
    (<["isPlaceholder" := VBool true]>
     (<["fitMode" := VStr "cover"]>
      (<["opacity" := VNum 100]>
       (<["flipX" := VBool false]>
        (<["flipY" := VBool false]>
         (<["lockAspectRatio" := VBool false]>
          (<["scale" := VNum 1]>
           (<["borderWidth" := VNum 0]> ∅)))))))).

(** [a ?? b ?? 0] on optional numbers. *)
Definition firstDefined (a b : option Q) : Q :=
  match a with
  | Some v => v
  | None => match b with Some v => v | None => 0%Q end
  end.

(** [r || 0] on an optional number. *)
Definition orZero (r : option Q) : Q :=
  match r with
  | Some v => if Qeq_bool v 0 then 0%Q else v
  | None => 0%Q
  end.

(** [updateAssetPosition(asset, slot)]: the asset it is handed is a copy
    made by the caller, so the in-place assignments are a new value here. *)
Definition updateAssetPosition (asset : Asset) (slot : LayoutConfig) : Asset :=
  spreadAsset asset
    [A_x (firstDefined (slot_x slot) (slot_left slot));
     A_y (firstDefined (slot_y slot) (slot_top slot));
     A_width (slot_width slot);
     A_height (slot_height slot);
     A_rotation (orZero (slot_rotation slot));
     A_zIndex (z_index slot);
     A_opt "fitMode" (VStr "cover");
     A_opt "crop" VUndef;
     A_opt "lockAspectRatio" (VBool false);
     A_opt "scale" (VNum 1)].

Record LayoutUpdate : Type := mkUpdate {
  upd_pageId : string;
  upd_assets : list Asset;
  upd_layoutTemplate : string
}.

(** [a.type === 'image' || a.type === 'video'] *)
Definition isMedia (a : Asset) : bool :=
  AssetType_eqb (asset_type a) image || AssetType_eqb (asset_type a) video.

(** The state of a [slots.forEach] loop: the index into the media, the
    number of [generateId()] calls so far, the assets pushed so far. *)
Definition FillState : Type := (nat * nat * list Asset)%type.

(** One round of the spread loops: [mediaIndex] advances only when a media
    asset is used. *)
Definition fillSpreadSlot (allMedia : list Asset) (freshId : nat -> string)
  (st : FillState) (slot : LayoutConfig) : FillState :=
  let '(mediaIndex, drawn, acc) := st in
  match nth_error allMedia mediaIndex with
  | Some m => (S mediaIndex, drawn, acc ++ [updateAssetPosition m slot])
  | None =>
      (mediaIndex, S drawn,
       acc ++ [updateAssetPosition (createPlaceholder (z_index slot) (freshId drawn)) slot])
  end.

(** One round of the single-page loop: the slot's own [index] selects the
    media asset. *)
Definition fillSingleSlot (currentMedia : list Asset) (freshId : nat -> string)
  (st : FillState) (slot : LayoutConfig) : FillState :=
  let '(index, drawn, acc) := st in
  match nth_error currentMedia index with
  | Some m => (S index, drawn, acc ++ [updateAssetPosition m slot])
  | None =>
      (S index, S drawn,
       acc ++ [updateAssetPosition (createPlaceholder (z_index slot) (freshId drawn)) slot])
  end.

(** The x by which a spread slot is sorted, and the slot shifted onto the
    right page. *)
Definition shiftSlot (slot : LayoutConfig) : LayoutConfig :=
  mkSlot (option_map (fun v => (v - 100)%Q) (slot_x slot))
    (option_map (fun v => (v - 100)%Q) (slot_left slot))
    (slot_y slot) (slot_top slot) (slot_width slot) (slot_height slot)
    (slot_rotation slot) (z_index slot).

Definition onLeft (slot : LayoutConfig) : bool :=
  negb (Qle_bool 100 (firstDefined (slot_x slot) (slot_left slot))).

(** The page a single-page layout goes to. *)
Definition targetPage (leftPage : Page) (rightPage : option Page)
  (targetPageId : option string) : Page :=
  match targetPageId with
  | Some t =>
      if String.eqb t "" then leftPage
      else if String.eqb (page_id leftPage) t then leftPage
      else match rightPage with
           | Some r => if String.eqb (page_id r) t then r else leftPage
           | None => leftPage
           end
  | None => leftPage
  end.

Definition calculateLayoutApplication (layout : AlbumLayout)
  (leftPage rightPage : option Page) (targetPageId : option string)
  (freshId : nat -> string) : list LayoutUpdate :=
  match leftPage with
  | None => []
  | Some leftPage =>
      if is_spread layout then
        let leftSlots := List.filter onLeft (layout_config layout) in
        let rightSlots :=
          map shiftSlot (List.filter (fun sl => negb (onLeft sl)) (layout_config layout)) in
        let leftMedia := List.filter isMedia (assets leftPage) in
        let rightMedia :=
          match rightPage with
          | Some r => List.filter isMedia (assets r)
          | None => []
          end in
        let allMedia := leftMedia ++ rightMedia in
        let leftOther := List.filter (fun x => negb (isMedia x)) (assets leftPage) in
        let rightOther :=
          match rightPage with
          | Some r => List.filter (fun x => negb (isMedia x)) (assets r)
          | None => []
          end in
        let '(mediaIndex, drawn, newLeftAssets) :=
          fold_left (fillSpreadSlot allMedia freshId) leftSlots (0%nat, 0%nat, leftOther) in
        mkUpdate (page_id leftPage) newLeftAssets (layout_name layout)
        :: match rightPage with
           | Some r =>
               let '(_, _, newRightAssets) :=
                 fold_left (fillSpreadSlot allMedia freshId) rightSlots
                   (mediaIndex, drawn, rightOther) in
               [mkUpdate (page_id r) newRightAssets (layout_name layout)]
           | None => []
           end
      else
        let target := targetPage leftPage rightPage targetPageId in
        let currentMedia := List.filter isMedia (assets target) in
        let otherAssets := List.filter (fun x => negb (isMedia x)) (assets target) in
        let '(_, _, newAssets) :=
          fold_left (fillSingleSlot currentMedia freshId) (layout_config layout)
            (0%nat, 0%nat, otherAssets) in
        [mkUpdate (page_id target) newAssets (layout_name layout)]
  end.

(** What the single-page loop puts into the slot at [index]: the media
    asset of that ordinal, or the next placeholder. *)
Definition slotAsset (currentMedia : list Asset) (freshId : nat -> string)
  (index : nat) (slot : LayoutConfig) : Asset :=
  match nth_error currentMedia index with
  | Some m => updateAssetPosition m slot
  | None =>
      updateAssetPosition
        (createPlaceholder (z_index slot) (freshId (index - length currentMedia)%nat))
        slot
  end.

(** A three-slot single-page layout. *)
Definition threeSlots : AlbumLayout :=
  mkLayout "three" false
    [mkSlot (Some 0%Q) None (Some 0%Q) None 50 50 None 1;
     mkSlot None (Some 50%Q) None (Some 0%Q) 50 50 None 2;
     mkSlot (Some 0%Q) None (Some 50%Q) None 100 50 (Some 0%Q) 3].

(** Identifiers for the examples: "g0", "g1", ... *)
Definition demoId (n : nat) : string :=
  "g" +:+ String (Ascii.ascii_of_nat (48 + n)) "".

(** A page with five images and a text, and a page with one image. *)
Definition textAsset (assetId : string) : Asset :=
  mkAsset assetId text "" 5 5 20 10 0 7 (<["content" := VStr "hello"]> ∅).

Definition fiveImages : Page :=
  mkPage "p2" 2 "freeform"
    [imageAsset "i1" 1; textAsset "t1"; imageAsset "i2" 2; imageAsset "i3" 3;
     imageAsset "i4" 4; imageAsset "i5" 5]
    "#ffffff" None None None.

Definition oneImage : Page :=
  mkPage "p3" 3 "freeform" [textAsset "t1"; imageAsset "i1" 1]
    "#ffffff" None None None.

(** [a.isPlaceholder] as a condition. *)
Definition isPlaceholder (a : Asset) : bool := truthy (getProp a "isPlaceholder").

(* ===================================================================== *)
(** ** Snap engine ([findSnappingPoints] of [EditorCanvas.tsx]) *)
(* ===================================================================== *)

Local Open Scope Q_scope.

(** ['v' | 'h'] *)
Inductive GuideType : Type := V | H.

Definition Guide : Type := (GuideType * Q)%type.

Record Rect : Type := mkRect { rect_x : Q; rect_y : Q; rect_w : Q; rect_h : Q }.

Record Snapped : Type := mkSnapped {
  snappedX : Q;
  snappedY : Q;
  guides : list Guide
}.

Definition snapThreshold : Q := 1.

(** [Math.abs(a - b) < snapThreshold] *)
Definition near (a b : Q) : bool :=
  negb (Qle_bool snapThreshold (Qabs (a - b))).

(** [Math.round(v / 1) * 1]: the nearest integer, halves upwards. *)
Definition round (v : Q) : Q := inject_Z (Qfloor (v + (1 # 2))).

Definition colWidth : Q := 100 / 12.

(** [i * colWidth] *)
Definition colPos (i : nat) : Q := inject_Z (Z.of_nat i) * colWidth.

(** [snappedX = nx; newGuides.push({ type: 'v', pos })] *)
Definition pushV (nx pos : Q) (st : Snapped) : Snapped :=
  mkSnapped nx (snappedY st) (guides st ++ [(V, pos)]).

(** [snappedY = ny; newGuides.push({ type: 'h', pos })] *)
Definition pushH (ny pos : Q) (st : Snapped) : Snapped :=
  mkSnapped (snappedX st) ny (guides st ++ [(H, pos)]).

(** The body of the column loop. *)
Definition gridStep (w : Q) (st : Snapped) (i : nat) : Snapped :=
  let st := if near (snappedX st) (colPos i) then pushV (colPos i) (colPos i) st else st in
  if near (snappedX st + w) (colPos i) then pushV (colPos i - w) (colPos i) st else st.

(** The body of [otherAssets.forEach]. *)
Definition assetStep (r : Rect) (st : Snapped) (target : Asset) : Snapped :=
  let targetLeft := x target in
  let targetCenterX := x target + width target / 2 in
  let st := if near (rect_x r) targetLeft then pushV targetLeft targetLeft st else st in
  if near (rect_x r + rect_w r / 2) targetCenterX
  then pushV (targetCenterX - rect_w r / 2) targetCenterX st
  else st.

(** [findSnappingPoints(draggingId, draggingRect)], for the canvas of a page
    with the assets [pageAssets] and, in spread view, a [nextPage]. *)
Definition findSnappingPoints (pageAssets : list Asset) (nextPage : bool)
  (draggingId : string) (draggingRect : Rect) : Snapped :=
  let canvasWidth : Q := if nextPage then 200 else 100 in
  let st := mkSnapped (round (rect_x draggingRect)) (round (rect_y draggingRect)) [] in
  let st :=
    fold_left (gridStep (rect_w draggingRect))
      (seq 0 (S (if nextPage then 24 else 12)%nat)) st in
  let otherAssets :=
    List.filter
      (fun a => negb (String.eqb (asset_id a) draggingId)
                && negb (truthy (getProp a "isHidden")))
      pageAssets in
  let pageCenterX : Q := 50 in
  let pageCenterY : Q := 50 in
  let st :=
    if near (rect_x draggingRect + rect_w draggingRect / 2) pageCenterX
    then pushV (pageCenterX - rect_w draggingRect / 2) pageCenterX st else st in
  let st :=
    if near (rect_y draggingRect + rect_h draggingRect / 2) pageCenterY
    then pushH (pageCenterY - rect_h draggingRect / 2) pageCenterY st else st in
  let bleed_ : Q := 3 in
  let st := if near (rect_x draggingRect) bleed_ then pushV bleed_ bleed_ st else st in
  let st :=
    if near (rect_x draggingRect + rect_w draggingRect) (canvasWidth - bleed_)
    then pushV (canvasWidth - bleed_ - rect_w draggingRect) (canvasWidth - bleed_) st
    else st in
  let st := fold_left (assetStep draggingRect) otherAssets st in
  if nextPage then
    let spreadCenter : Q := 100 in
    if near (rect_x draggingRect + rect_w draggingRect / 2) spreadCenter
    then pushV (spreadCenter - rect_w draggingRect / 2) spreadCenter st else st
  else st.

(** [g.type === 'v'] *)
Definition isVertical (g : Guide) : bool :=
  match fst g with V => true | H => false end.

(** The guide of column [i] is among the guides, and while it is the only
    vertical guide, [snappedX] is that column. *)
Definition snappedTo (i : nat) (st : Snapped) : Prop :=
  In (V, colPos i) (guides st)
  /\ (length (List.filter isVertical (guides st)) = 1%nat -> snappedX st = colPos i).

Local Close Scope Q_scope.

(* ===================================================================== *)
(** ** Page normalizer ([lib/normalization.ts]) *)
(* ===================================================================== *)

(** The value of key [k] in an object's fields, [undefined] when absent. *)
Fixpoint lookupField (k : string) (fields : list (string * Val)) : Val :=
  match fields with
  | [] => VUndef
  | (k', v) :: rest => if String.eqb k' k then v else lookupField k rest
  end.

(** [v.k]: a [TypeError] ([None]) on [undefined] and [null]; on the values a
    persisted row can hold, the only inherited property read is [length]. *)
Definition getMember (v : Val) (k : string) : option Val :=
  match v with
  | VUndef | VNull => None
  | VObj fields => Some (lookupField k fields)
  | VArr items =>
      Some (if String.eqb k "length" then VNum (inject_Z (Z.of_nat (length items)))
            else VUndef)
  | VStr s =>
      Some (if String.eqb k "length" then VNum (inject_Z (Z.of_nat (String.length s)))
            else VUndef)
  | VBool _ | VNum _ => Some VUndef
  end.

(** [v?.k] *)
Definition opt (v : Val) (k : string) : Val := default VUndef (getMember v k).

(** [a || b] and [a ?? b] *)
Definition vOr (a b : Val) : Val := if truthy a then a else b.

Definition vNullish (a b : Val) : Val :=
  match a with VUndef | VNull => b | _ => a end.

(** [v === 's'] *)
Definition isStr (v : Val) (s : string) : bool :=
  match v with VStr t => String.eqb t s | _ => false end.

(** [Array.isArray(v)] *)
Definition isArray (v : Val) : bool :=
  match v with VArr _ => true | _ => false end.

(** [v && Array.isArray(v) && v.length > 0] *)
Definition isNonEmptyArray (v : Val) : bool :=
  match v with VArr (_ :: _) => true | _ => false end.

(** [[...v]]: the elements of an array, the characters of a string, and a
    [TypeError] on anything else, which is not iterable. *)
Definition iterate (v : Val) : option (list Val) :=
  match v with
  | VArr items => Some items
  | VStr s => Some (map (fun c => VStr (String c "")) (list_ascii_of_string s))
  | _ => None
  end.

(** [v.map(f)]: only an array has [map]; on any other value the call is a
    [TypeError]. An exception raised by [f] propagates. *)
Definition callMap (v : Val) (f : Val -> option Val) : option (list Val) :=
  match v with
  | VArr items => mapM f items
  | _ => None
  end.

(** A value that has properties: anything but [undefined] and [null]. *)
Definition hasMembers (v : Val) : Prop :=
  match v with VUndef | VNull => False | _ => True end.

Section Normalizer.

(** [JSON.parse] ([None]: it raises a [SyntaxError]), [Number], the string
    conversion of a template literal, and the identifiers [generateId()]
    returns, by the position of the item that needs one. *)
Variable JSON_parse : Val -> option Val.
Variable Number_ : Val -> Val.
Variable String_ : Val -> string.
Variable generateId : nat -> string.

(** [v > 0]: a number is compared as it is, [undefined] is [NaN], anything
    else goes through [Number]. *)
Definition positive (v : Val) : bool :=
  match v with
  | VNum q => negb (Qle_bool q 0)
  | VUndef => false
  | _ => match Number_ v with VNum q => negb (Qle_bool q 0) | _ => false end
  end.

Definition safeParse (data fallback : Val) : Val :=
  if negb (truthy data) then fallback
  else if isArray data || match data with VObj _ => true | _ => false end then data
  else if isStr data "null" || isStr data "undefined" then fallback
  else match JSON_parse data with
       | Some v => v
       | None => fallback
       end.

(** The fallback of the unified path: an asset row as a freeform box. *)
Definition assetToBox (a : Val) : option Val :=
  match a with
  | VUndef | VNull => None
  | _ =>
      Some (VObj
        [("id", opt a "id");
         ("role", VStr "freeform");
         ("left", vOr (opt a "x") (VNum 0));
         ("top", vOr (opt a "y") (VNum 0));
         ("width", vOr (opt a "width") (VNum 30));
         ("height", vOr (opt a "height") (VNum 30));
         ("zIndex", vOr (opt a "z_index") (VNum 10));
         ("content", VObj
            [("type", vOr (opt a "asset_type") (vOr (opt a "type") (VStr "image")));
             ("url", opt a "url");
             ("config", vOr (opt a "config") (VObj []))])])
  end.

Definition toLayoutBox (k : nat) (frame : Val) : Val :=
  let content := opt frame "content" in
  VObj
    [("id", vOr (opt frame "id") (VStr (generateId k)));
     ("role", vOr (opt frame "role") (VStr "slot"));
     ("left", Number_ (vNullish (opt frame "left") (vNullish (opt frame "x") (VNum 0))));
     ("top", Number_ (vNullish (opt frame "top") (vNullish (opt frame "y") (VNum 0))));
     ("width", Number_ (vNullish (opt frame "width") (VNum 30)));
     ("height", Number_ (vNullish (opt frame "height") (VNum 30)));
     ("zIndex", Number_ (vNullish (opt frame "zIndex") (vNullish (opt frame "z") (VNum 10))));
     ("content", VObj
        [("type", vOr (opt content "type") (vOr (opt frame "type") (VStr "image")));
         ("url", vOr (opt content "url") (vOr (opt frame "url") VNull));
         ("zoom", Number_ (vNullish (opt content "zoom") (vNullish (opt frame "zoom") (VNum 1))));
         ("x", Number_ (vNullish (opt content "x") (vNullish (opt frame "focalX") (VNum 50))));
         ("y", Number_ (vNullish (opt content "y") (vNullish (opt frame "focalY") (VNum 50))));
         ("rotation",
          Number_ (vNullish (opt content "rotation") (vNullish (opt frame "rotation") (VNum 0))));
         ("text",
          vOr (opt content "text")
            (vOr (opt (opt content "config") "content") (vOr content VNull)));
         ("config", vOr (opt content "config") (vOr (opt frame "config") (VObj [])))])].

Definition toTextLayer (k : nat) (frame : Val) : Val :=
  let content := opt frame "content" in
  VObj
    [("id", vOr (opt frame "id") (VStr (generateId k)));
     ("role", VStr "text");
     ("left", Number_ (vNullish (opt frame "left") (vNullish (opt frame "x") (VNum 0))));
     ("top", Number_ (vNullish (opt frame "top") (vNullish (opt frame "y") (VNum 0))));
     ("width", Number_ (vNullish (opt frame "width") (VNum 50)));
     ("height", Number_ (vNullish (opt frame "height") (VNum 10)));
     ("zIndex", Number_ (vNullish (opt frame "zIndex") (vNullish (opt frame "z") (VNum 50))));
     ("content", VObj
        [("type", VStr "text");
         ("url", VUndef);
         ("zoom", VNum 1);
         ("x", VNum 50);
         ("y", VNum 50);
         ("rotation",
          Number_ (vOr (opt content "rotation") (vOr (opt frame "rotation") (VNum 0))));
         ("text",
          vOr (opt content "text")
            (vOr (opt (opt content "config") "content")
               (vOr content (VStr "Double click to edit"))));
         ("config", vOr (opt content "config") (vOr (opt frame "config") (VObj [])))])].

(** The own enumerable properties that an object spread [...v] copies. *)
Definition ownFields (v : Val) : list (string * Val) :=
  match v with
  | VObj fields => fields
  | VArr items => imap (fun i e => (String_ (VNum (inject_Z (Z.of_nat i))), e)) items
  | VStr s =>
      imap (fun i c => (String_ (VNum (inject_Z (Z.of_nat i))), VStr (String c "")))
        (list_ascii_of_string s)
  | _ => []
  end.

(** The legacy path: an asset row as an Asset, with its restored type. The
    spread [...(a.config || {})] comes last in the literal and so overrides;
    here its fields come first and are found first. *)
Definition legacyAsset (a : Val) : option Val :=
  match a with
  | VUndef | VNull => None
  | _ =>
      let config_ := opt a "config" in
      let restoredType :=
        if truthy (opt config_ "originalType") then opt config_ "originalType"
        else if isStr (opt a "asset_type") "image" && truthy (opt config_ "mapConfig")
        then VStr "map"
        else if isStr (opt a "asset_type") "text"
                && truthy (vOr (opt config_ "location") (opt config_ "isLocation"))
        then VStr "location"
        else opt a "asset_type" in
      Some (VObj
        (ownFields (vOr config_ (VObj []))
         ++ [("id", opt a "id");
             ("type", restoredType);
             ("url", opt a "url");
             ("zIndex", vOr (opt a "z_index") (VNum 0));
             ("slotId", opt a "slot_id")]))
  end.

(** [normalizePageData(p)] for a row object with the fields [p]; [None] is
    an exception that leaves the function. The two [console.log] lines for
    page 1 read [length] and element 0 of a value that is never [undefined]
    or [null], and are left out. *)
Definition normalizePageData (p : list (string * Val)) : option Val :=
  let field k := lookupField k p in
  let configData := safeParse (field "layout_config") VNull in
  let jsonData := safeParse (field "layout_json") VNull in
  let contentData := safeParse (field "content") VNull in
  let layoutArray :=
    if isNonEmptyArray configData then configData
    else if isNonEmptyArray jsonData then jsonData
    else if isNonEmptyArray contentData then contentData
    else vOr configData (vOr jsonData (vOr contentData (VArr []))) in
  let rawAreaText := vOr (field "text_layers") (VArr []) in
  let textArray := safeParse rawAreaText (VArr []) in
  let isUnified :=
    isArray layoutArray
    && (isNonEmptyArray layoutArray
        || truthy (field "layout_config") || truthy (field "layout_json")) in
  if isUnified then
    finalLayoutArray ← iterate layoutArray;
    finalLayoutArray ←
      (if (length finalLayoutArray =? 0)%nat && truthy (field "assets")
          && positive (opt (field "assets") "length")
       then callMap (field "assets") assetToBox
       else Some finalLayoutArray);
    textItems ← iterate textArray;
    let allItems := finalLayoutArray ++ textItems in
    let layoutConfig :=
      imap toLayoutBox
        (List.filter (fun item => truthy item && negb (isStr (opt item "role") "text"))
           allItems) in
    let textLayers :=
      imap (fun k => toTextLayer (length layoutConfig + k))
        (List.filter
           (fun item => truthy item
                        && (isStr (opt item "role") "text" || isStr (opt item "type") "text"))
           allItems) in
    let page_styles := field "page_styles" in
    let background_config := field "background_config" in
    let pageStyles :=
      [("backgroundColor",
        vOr (opt page_styles "backgroundColor")
          (vOr (opt background_config "color")
             (vOr (field "background_color") (VStr "#ffffff"))));
       ("backgroundOpacity",
        Number_ (vNullish (opt page_styles "backgroundOpacity")
                   (vNullish (opt background_config "opacity")
                      (vNullish (field "background_opacity") (VNum 100)))));
       ("backgroundImage",
        vOr (opt page_styles "backgroundImage")
          (vOr (opt background_config "image") (vOr (field "background_image") VUndef)));
       ("backgroundBlendMode",
        vOr (opt page_styles "backgroundBlendMode")
          (vOr (opt background_config "blendMode") (VStr "normal")))] in
    Some (VObj
      [("id", vOr (field "id") (VStr ("page-" +:+ String_ (field "page_number"))));
       ("pageNumber", field "page_number");
       ("layoutTemplate",
        vOr (field "layout_template") (vOr (field "template_id") (VStr "freeform")));
       ("layoutConfig", VArr layoutConfig);
       ("textLayers", VArr textLayers);
       ("pageStyles", VObj pageStyles);
       ("backgroundColor", lookupField "backgroundColor" pageStyles);
       ("backgroundOpacity", lookupField "backgroundOpacity" pageStyles);
       ("backgroundImage", lookupField "backgroundImage" pageStyles);
       ("assets", VArr [])])
  else
    assets_ ← callMap (vOr (field "assets") (VArr [])) legacyAsset;
    Some (VObj
      [("id", field "id");
       ("pageNumber", field "page_number");
       ("layoutTemplate", vOr (field "template_id") (VStr "freeform"));
       ("backgroundColor", vOr (field "background_color") (VStr "#ffffff"));
       ("backgroundOpacity", vNullish (field "background_opacity") (VNum 100));
       ("backgroundImage", field "background_image");
       ("assets", VArr assets_);
       ("layoutConfig", VArr []);
       ("textLayers", VArr [])]).

End Normalizer.

(** A row of the unified schema with an empty layout, whose text layers
    column holds an object: [{ layout_config: [], text_layers: {} }]. *)
Definition rowWithObjectTextLayers : list (string * Val) :=
  [("page_number", VNum 2); ("layout_config", VArr []); ("text_layers", VObj [])].

(** A legacy row whose assets column holds an object: [{ assets: {} }]. *)
Definition rowWithObjectAssets : list (string * Val) :=
  [("page_number", VNum 2); ("assets", VObj [])].

(* ===================================================================== *)
(** ** Sessions: any call against the store *)
(* ===================================================================== *)

(** A call of the store's interface that can touch the album or its undo
    and redo stacks. *)
Inductive Action : Type :=
| DoMutation (m : Mutation) (now : Z)
| DoToggleLock (now : Z)
| DoToggleSpreadView (now : Z)
| DoSetAlbum (newAlbum : option Album -> Resolved)
| DoUndo
| DoRedo.

Definition runAction (act : Action) (s : Store) : Outcome :=
  match act with
  | DoMutation m now => mutate m now s
  | DoToggleLock now => Done (toggleLock now s)
  | DoToggleSpreadView now => Done (toggleSpreadView now s)
  | DoSetAlbum f => Done (setAlbum f s)
  | DoUndo => Done (undo s)
  | DoRedo => Done (redo s)
  end.

(** The calls one after the other; an exception ends the session. *)
Fixpoint runActions (acts : list Action) (s : Store) : Outcome :=
  match acts with
  | [] => Done s
  | act :: rest =>
      match runAction act s with
      | Done s' => runActions rest s'
      | Throws => Throws
      end
  end.

(** The undo and the redo stack together hold at most 20 snapshots. *)
Definition stacksBounded (s : Store) : Prop :=
  (length (history s) + length (redoStack s) <= 20)%nat.

(** The call is a [movePage], or a [reorderPages] whose [fromIndex] is the
    index of a page of the album. *)
Definition movesAPage (op : PageOp) (ps : list PageObj) : Prop :=
  match op with
  | MovePage _ _ _ => True
  | ReorderPages fromIndex _ _ => 0 <= fromIndex < Z.of_nat (length ps)
  | _ => False
  end.

(** The copy [duplicatePage] makes of a page, up to its page number. *)
Definition pageCopy (freshId : nat -> string) (p : Page) : Page :=
  mkPage (freshId 0%nat) 0 (layoutTemplate p)
    (imap (fun i asset => assignAsset asset (A_id (freshId (S i)))) (assets p))
    (backgroundColor p) (backgroundOpacity p) (backgroundImage p) (page_name p).

(** The style properties [syncStyles] copies. *)
Definition syncedKeys : list string :=
  ["borderRadius"; "borderColor"; "borderWidth"; "filter"; "filterIntensity";
   "fontFamily"; "fontSize"; "fontWeight"; "color"; "opacity"].

(** The page of a page-list element that is one. *)
Definition asPage (o : PageObj) : option Page :=
  match o with PageOf p => Some p | Bare _ => None end.

(* ===================================================================== *)
(** ** Properties of a snap result *)
(* ===================================================================== *)

(** The guides of type ['h']. *)
Definition horizontalGuides (st : Snapped) : list Guide :=
  List.filter (fun g => negb (isVertical g)) (guides st).

(** From [st] to [st'] only vertical guides were pushed: the vertical
    position and the horizontal guides are those of [st], and when [st']
    has no guide at all nothing happened. *)
Definition onlyVertical (st st' : Snapped) : Prop :=
  snappedY st' = snappedY st
  /\ horizontalGuides st' = horizontalGuides st
  /\ (guides st' = [] -> st' = st).

(* ===================================================================== *)
(** ** Pointer handlers of the canvas ([EditorCanvas.tsx]) *)
(* ===================================================================== *)

Local Open Scope Q_scope.

(** ['left' | 'right' | 'single'] *)
Inductive Side : Type := side_left | side_right | side_single.

Definition isLeft (side : Side) : bool :=
  match side with side_left => true | _ => false end.

Definition isRight (side : Side) : bool :=
  match side with side_right => true | _ => false end.

(** [(info.offset.x / zoom / pageWidthInPixels) * 100]: in a spread the
    canvas rectangle covers both pages. *)
Definition offsetXPercent (otherPage : option Page)
  (zoom totalWidthInPixels offsetX : Q) : Q :=
  let pageWidthInPixels :=
    match otherPage with
    | Some _ => totalWidthInPixels / 2
    | None => totalWidthInPixels
    end in
  offsetX / zoom / pageWidthInPixels * 100.

(** [(info.offset.y / zoom / heightInPixels) * 100] *)
Definition offsetYPercent (zoom heightInPixels offsetY : Q) : Q :=
  offsetY / zoom / heightInPixels * 100.

(** [(side === 'right' ? asset.x + 100 : asset.x) + offsetXPercent] *)
Definition absoluteX (asset : Asset) (side : Side) (otherPage : option Page)
  (zoom totalWidthInPixels offsetX : Q) : Q :=
  (if isRight side then x asset + 100 else x asset)
  + offsetXPercent otherPage zoom totalWidthInPixels offsetX.

(** The rectangle handed to [onSnap] at the end of a drag. *)
Definition draggingRect (asset : Asset) (side : Side) (otherPage : option Page)
  (zoom : Q) (canvas offset : Q * Q) : Rect :=
  mkRect (absoluteX asset side otherPage zoom (fst canvas) (fst offset))
    (y asset + offsetYPercent zoom (snd canvas) (snd offset))
    (width asset) (height asset).

(** [onDragEnd] of an asset. [canvas] is the width and height of the canvas
    rectangle in pixels, [None] while [canvasRef.current] is not set;
    [offset] is [info.offset]; the two store calls are those of the
    context. *)
Definition dragEnd (asset : Asset) (pageId : string) (side : Side)
  (otherPage : option Page) (onSnap : option (Rect -> Snapped)) (zoom : Q)
  (canvas : option (Q * Q)) (offset : Q * Q) (now : Z) (s : Store) : Store :=
  match canvas with
  | None => s
  | Some canvas =>
      let absoluteX_ := absoluteX asset side otherPage zoom (fst canvas) (fst offset) in
      let final :=
        match onSnap with
        | Some snap =>
            let res := snap (draggingRect asset side otherPage zoom canvas offset) in
            (if isRight side then snappedX res - 100 else snappedX res, snappedY res)
        | None =>
            (x asset + offsetXPercent otherPage zoom (fst canvas) (fst offset),
             y asset + offsetYPercent zoom (snd canvas) (snd offset))
        end in
      match otherPage with
      | Some other =>
          if isLeft side && negb (Qle_bool absoluteX_ 100) then
            moveAssetToPage (asset_id asset) pageId (page_id other)
              (absoluteX_ - 100) (snd final) now s
          else if isRight side && negb (Qle_bool 100 absoluteX_) then
            moveAssetToPage (asset_id asset) pageId (page_id other)
              absoluteX_ (snd final) now s
          else updateAsset pageId (asset_id asset) [A_x (fst final); A_y (snd final)] now s
      | None => updateAsset pageId (asset_id asset) [A_x (fst final); A_y (snd final)] now s
      end
  end.

(** The drag went over the middle of the spread, and the x the asset gets
    on the other page. *)
Definition crossesTheFold (side : Side) (absoluteX_ : Q) : Prop :=
  match side with
  | side_left => 100 < absoluteX_
  | side_right => absoluteX_ < 100
  | side_single => False
  end.

Definition xAcrossTheFold (side : Side) (absoluteX_ : Q) : Q :=
  if isLeft side then absoluteX_ - 100 else absoluteX_.

(** [Math.max(5, v)] *)
Definition atLeast5 (v : Q) : Q := if Qle_bool 5 v then v else 5.

(** ['n' | 's' | 'e' | 'w'] and ['nw' | 'ne' | 'sw' | 'se'] *)
Inductive Edge : Type := edge_n | edge_s | edge_e | edge_w.


(** [(dM / page_px) * 100]: a pointer movement in percent of the page. *)
Definition dPct (dM page_px : Q) : Q := dM / page_px * 100.

(** The updates a side handle sends to [updateAsset] on a pointer movement
    of ([dMx], [dMy]) pixels since the press; [rect] is the canvas
    rectangle. *)
Definition stretchUpdates (handleSide : Edge) (asset : Asset) (side : Side)
  (rect : Q * Q) (dMx dMy : Q) : list AssetProp :=
  let startW := width asset in
  let startH := height asset in
  let startPosX := x asset in
  let startPosY := y asset in
  let pageW_px :=
    match side with side_single => fst rect | _ => fst rect / 2 end in
  let pageH_px := snd rect in
  let dPctX := dPct dMx pageW_px in
  let dPctY := dPct dMy pageH_px in
  let newW :=
    match handleSide with
    | edge_e => startW + dPctX
    | edge_w => startW - dPctX
    | _ => startW
    end in
  let newX := match handleSide with edge_w => startPosX + dPctX | _ => startPosX end in
  let newH :=
    match handleSide with
    | edge_s => startH + dPctY
    | edge_n => startH - dPctY
    | _ => startH
    end in
  let newY := match handleSide with edge_n => startPosY + dPctY | _ => startPosY end in
  [A_width (atLeast5 newW); A_height (atLeast5 newH); A_x newX; A_y newY;
   A_opt "fitMode" (VStr "stretch"); A_opt "crop" VUndef].


Section CornerHandle.

(** [Math.sqrt] *)
Variable Math_sqrt : Q -> Q.


End CornerHandle.

Local Close Scope Q_scope.

(* ===================================================================== *)
(** ** Rows of the database ([saveAlbum] and [fetchAlbum]) *)
(* ===================================================================== *)

(** The [config] column of an asset row. Its geometry entries are numbers
    when they are there, as [saveAlbum] writes them; [cfg_rest] holds the
    other entries. *)
Record AssetConfig : Type := mkAssetConfig {
  cfg_x : option Q;
  cfg_y : option Q;
  cfg_width : option Q;
  cfg_height : option Q;
  cfg_rotation : option Q;
  cfg_rest : list (string * Val)
}.

(** A row of [assets] and a row of [pages], without their time stamps. *)
Record AssetRow : Type := mkAssetRow {
  arow_id : string;
  arow_page_id : string;
  arow_asset_type : AssetType;
  arow_url : string;
  arow_z_index : option Z;
  arow_slot_id : Val;
  arow_config : option AssetConfig
}.

Record PageRow : Type := mkPageRow {
  prow_id : string;
  prow_album_id : string;
  prow_page_number : Z;
  prow_template_id : string;
  prow_background_color : string
}.

(** The optional properties [saveAlbum] copies into [config], in the order
    of the literal. *)
Definition savedKeys : list string :=
  ["scale"; "flipX"; "flipY"; "opacity"; "aspectRatio"; "lockAspectRatio";
   "borderRadius"; "borderColor"; "borderWidth"; "filter"; "filterIntensity";
   "brightness"; "contrast"; "saturate"; "hue"; "sepia"; "blur"; "exposure";
   "highlights"; "shadows"; "warmth"; "sharpness"; "content"; "fontFamily";
   "fontSize"; "fontWeight"; "lineHeight"; "letterSpacing"; "textAlign";
   "textColor"; "textBackgroundColor"; "textShadow"; "color"; "crop";
   "isLocked"; "isHidden"; "isStamp"; "category"; "isPlaceholder"; "fitMode";
   "originalDimensions"; "clipPoints"; "isRemovingBackground"].

(** An element of [assetsPayload]. *)
Definition assetRow (pageId : string) (asset : Asset) : AssetRow :=
  mkAssetRow (asset_id asset) pageId (asset_type asset) (url asset)
    (Some (zIndex asset))
    (vOr (getProp asset "slotId") VNull)
    (Some (mkAssetConfig (Some (x asset)) (Some (y asset)) (Some (width asset))
             (Some (height asset)) (Some (rotation asset))
             (map (fun key => (key, getProp asset key)) savedKeys))).

(** An element of [pagesPayload]. *)
Definition pageRow (albumId : string) (page : Page) : PageRow :=
  mkPageRow (page_id page) albumId (pageNumber page) (layoutTemplate page)
    (backgroundColor page).

(** An element of [album.pages] that is a page. *)
Definition realPage (o : PageObj) : option Page :=
  match o with PageOf p => Some p | Bare _ => None end.

(** [pagesPayload] and [assetsPayload]. Both are built before anything
    about pages is written. On an element without [assets],
    [page.assets.map] raises a [TypeError] ([None]), which ends the save. *)
Definition payloads (a : Album) : option (list PageRow * list AssetRow) :=
  ps ← mapM realPage (pages a);
  Some (map (pageRow (album_id a)) ps,
        flat_map (fun page => map (assetRow (page_id page)) (assets page)) ps).

(** [v || d] on an optional number. *)
Definition numberOrDefault (v : option Q) (d : Q) : Q :=
  match v with
  | Some q => if Qeq_bool q 0 then d else q
  | None => d
  end.

(** [a.config?.key] *)
Definition configEntry (a : AssetRow) (key : string) : Val :=
  match arow_config a with
  | Some c => lookupField key (cfg_rest c)
  | None => VUndef
  end.

Definition configNumber (a : AssetRow) (entry : AssetConfig -> option Q) : option Q :=
  match arow_config a with
  | Some c => entry c
  | None => None
  end.

(** The asset [fetchAlbum] makes of an asset row. *)
Definition fetchAsset (a : AssetRow) : Asset :=
  mkAsset (arow_id a) (arow_asset_type a) (arow_url a)
    (numberOrDefault (configNumber a cfg_x) 0)
    (numberOrDefault (configNumber a cfg_y) 0)
    (numberOrDefault (configNumber a cfg_width) 200)
    (numberOrDefault (configNumber a cfg_height) 150)
    (numberOrDefault (configNumber a cfg_rotation) 0)
    (default 0 (arow_z_index a))
    (<["isStamp" := configEntry a "isStamp"]>
     (<["isRemovingBackground" := configEntry a "isRemovingBackground"]>
      (<["saturate" := vOr (configEntry a "saturate") (VNum 100)]>
       (<["contrast" := vOr (configEntry a "contrast") (VNum 100)]>
        (<["brightness" := vOr (configEntry a "brightness") (VNum 100)]>
         (<["content" := configEntry a "content"]>
          (<["filterIntensity" := configEntry a "filterIntensity"]>
           (<["filter" := configEntry a "filter"]>
            (<["scale" := vOr (configEntry a "scale") (VNum 1)]> ∅))))))))).

(** The optional properties an asset has after a fetch. *)
Definition fetchedKeys : list string :=
  ["scale"; "filter"; "filterIntensity"; "content"; "brightness"; "contrast";
   "saturate"; "isRemovingBackground"; "isStamp"].

(** [sortedPages]: the rows in ascending [page_number]; rows with the same
    number keep their order. *)
Fixpoint insertRow (r : PageRow * list AssetRow) (l : list (PageRow * list AssetRow))
  : list (PageRow * list AssetRow) :=
  match l with
  | [] => [r]
  | h :: t =>
      if prow_page_number (fst h) <=? prow_page_number (fst r)
      then h :: insertRow r t
      else r :: l
  end.

Definition sortRows (l : list (PageRow * list AssetRow))
  : list (PageRow * list AssetRow) :=
  fold_left (fun acc r => insertRow r acc) l [].

(** The page [fetchAlbum] makes of the row at index [i]. *)
Definition fetchedPage (i : nat) (r : PageRow * list AssetRow) : Page :=
  mkPage (prow_id (fst r)) (Z.of_nat i + 1) (prow_template_id (fst r))
    (map fetchAsset (snd r)) (prow_background_color (fst r)) None None None.

(** The pages of the album [fetchAlbum] builds from the page rows, each
    with its asset rows; the four identifiers are those [generateId()]
    returns for the default pages. *)
Definition fetchPages (pagesData : list (PageRow * list AssetRow))
  (id1 id2 id3 id4 : string) : list PageObj :=
  let pages := imap (fun i r => PageOf (fetchedPage i r)) (sortRows pagesData) in
  if (length pages =? 0)%nat then
    [blankPage id1 1 "cover-front"; blankPage id2 2 "freeform";
     blankPage id3 3 "freeform"; blankPage id4 4 "cover-back"]
  else pages.

(** A row and the page made of it agree on everything but the number. *)
Definition pageOfRow (r : PageRow * list AssetRow) (o : PageObj) : Prop :=
  exists p, o = PageOf p
    /\ page_id p = prow_id (fst r)
    /\ layoutTemplate p = prow_template_id (fst r)
    /\ backgroundColor p = prow_background_color (fst r)
    /\ assets p = map fetchAsset (snd r).

(** The order of [sortedPages]. *)
Definition byPageNumber (r r' : PageRow * list AssetRow) : Prop :=
  prow_page_number (fst r) <= prow_page_number (fst r').

(** The album has no element without [assets]. *)
Definition allRealPages (ps : list PageObj) : Prop :=
  Forall (fun o => is_Some (realPage o)) ps.

(* ===================================================================== *)
(** ** An asset in a layout slot *)
(* ===================================================================== *)

(** The asset sits in the slot: its position, size, rotation and z-index
    are the slot's, it covers the slot, and its crop, aspect lock and scale
    are reset. *)
Definition inSlot (a : Asset) (slot : LayoutConfig) : Prop :=
  x a = firstDefined (slot_x slot) (slot_left slot)
  /\ y a = firstDefined (slot_y slot) (slot_top slot)
  /\ width a = slot_width slot
  /\ height a = slot_height slot
  /\ rotation a = orZero (slot_rotation slot)
  /\ zIndex a = z_index slot
  /\ getProp a "fitMode" = VStr "cover"
  /\ getProp a "crop" = VUndef
  /\ getProp a "lockAspectRatio" = VBool false
  /\ getProp a "scale" = VNum 1.

(** [a] is the asset [m] put somewhere else: the same id, type and url, and
    the same optional properties apart from the four a slot resets. *)
Definition sameAssetMoved (m a : Asset) : Prop :=
  asset_id a = asset_id m
  /\ asset_type a = asset_type m
  /\ url a = url m
  /\ forall key : string,
       ~ In key ["fitMode"; "crop"; "lockAspectRatio"; "scale"] ->
       getProp a key = getProp m key.

(* ===================================================================== *)
(** ** Columns of a page row *)
(* ===================================================================== *)

(** The column holds the items [l]: it is an array of them, or it holds
    nothing ([undefined], [null], an empty string, ...) and [l] is empty. *)
Definition columnHolds (v : Val) (l : list Val) : Prop :=
  (truthy v = false /\ l = []) \/ v = VArr l.

(** The column holds no item. *)
Definition emptyColumn (v : Val) : Prop := columnHolds v [].

(** The layout box made of an asset row: a freeform box with the row's id
    (when it has one), its geometry read off the row with the defaults 0,
    30 and 10, and its type and url as the content. *)
Definition boxOfAssetRow (Number_ : Val -> Val) (row box : Val) : Prop :=
  opt box "role" = VStr "freeform"
  /\ (truthy (opt row "id") = true -> opt box "id" = opt row "id")
  /\ opt box "left" = Number_ (vOr (opt row "x") (VNum 0))
  /\ opt box "top" = Number_ (vOr (opt row "y") (VNum 0))
  /\ opt box "width" = Number_ (vOr (opt row "width") (VNum 30))
  /\ opt box "height" = Number_ (vOr (opt row "height") (VNum 30))
  /\ opt box "zIndex" = Number_ (vOr (opt row "z_index") (VNum 10))
  /\ opt (opt box "content") "type"
     = vOr (opt row "asset_type") (vOr (opt row "type") (VStr "image"))
  /\ opt (opt box "content") "url" = vOr (opt row "url") VNull.

(* ===================================================================== *)
(** * Theorems *)
(* ===================================================================== *)

(* --------------------------------------------------------------------- *)
(** ** Undo and redo *)
(* --------------------------------------------------------------------- *)

Section History.

Lemma sliceLast_app {A : Type} (n : nat) (h l : list A) :
  (length l <= n)%nat -> sliceLast n (h ++ l) = sliceLast (n - length l) h ++ l.
Proof.
  intros Hl. unfold sliceLast. rewrite length_app, skipn_app.
  replace (length h + length l - n - length h)%nat with 0%nat by lia.
  cbn [skipn]. f_equal. f_equal. lia.
Qed.

Lemma dropLast_snoc {A : Type} (h : list A) (a : A) : dropLast (h ++ [a]) = h.
Proof. unfold dropLast. apply removelast_last. Qed.

Lemma removelast_then_last {A : Type} (l : list A) (a : A) :
  last l = Some a -> removelast l ++ [a] = l.
Proof.
  destruct l as [|b l] using rev_ind; [discriminate|].
  rewrite last_snoc. intros [= ->]. now rewrite removelast_last.
Qed.

(** One edit of a loaded album. *)
Lemma setAlbumTo_loaded (e prev : Album) (s : Store) :
  album s = Some prev ->
  setAlbumTo e s =
    mkStore (Some e) (sliceLast 19 (history s) ++ [prev]) []
      (currentPageIndex s) (selectedAssetId s).
Proof. intros H. unfold setAlbumTo, setAlbum. rewrite H. reflexivity. Qed.

(** Undo right after an edit. *)
Lemma undo_setAlbumTo (e prev : Album) (s : Store) :
  album s = Some prev ->
  undo (setAlbumTo e s) =
    mkStore (Some prev) (sliceLast 19 (history s)) [e]
      (currentPageIndex s) (selectedAssetId s).
Proof.
  intros H. rewrite (setAlbumTo_loaded e prev s H).
  unfold undo. cbn [history album redoStack currentPageIndex selectedAssetId].
  rewrite last_snoc, dropLast_snoc. reflexivity.
Qed.

Lemma edits_snoc (es : list Album) (e : Album) (s : Store) :
  edits (es ++ [e]) s = setAlbumTo e (edits es s).
Proof. unfold edits. now rewrite fold_left_app. Qed.

(** Edits keep an album loaded. *)
Lemma edits_loaded (es : list Album) (s : Store) (a0 : Album) :
  album s = Some a0 -> exists a, album (edits es s) = Some a.
Proof.
  intros H0. induction es as [|e es IH] using rev_ind; [cbn; eauto|].
  destruct IH as [a Ha]. rewrite edits_snoc, (setAlbumTo_loaded e a _ Ha). cbn. eauto.
Qed.

(** [undo], as many times as the top of the undo stack is known, ends on
    the deepest of the known entries. *)
Lemma undos_pop (known : list Album) :
  forall (below : list Album) (s : Store),
    history s = below ++ known ->
    album (Nat.iter (length known) undo s)
    = match known with [] => album s | deepest :: _ => Some deepest end.
Proof.
  induction known as [|p known IH] using rev_ind; intros below s Hs; [reflexivity|].
  rewrite length_app, Nat.add_1_r, Nat.iter_succ_r.
  assert (Hu : album (undo s) = Some p /\ history (undo s) = below ++ known).
  { unfold undo. rewrite Hs, app_assoc, last_snoc, dropLast_snoc. cbn. auto. }
  destruct Hu as [Hua Huh]. rewrite (IH below (undo s) Huh), Hua.
  destruct known; reflexivity.
Qed.

(** After the edits [es2], at most 20 of them, the top of the undo stack is
    the album before them followed by all of [es2] but the last, and the
    album is the last of them. *)
Lemma edits_stack (es1 : list Album) (s0 : Store) (c1 : Album) :
  album (edits es1 s0) = Some c1 ->
  forall es2 : list Album,
    (length es2 <= 20)%nat ->
    album (edits (es1 ++ es2) s0) = last (c1 :: es2)
    /\ exists below, history (edits (es1 ++ es2) s0) = below ++ removelast (c1 :: es2).
Proof.
  intros H1 es2. induction es2 as [|e es2 IH] using rev_ind; intros Hlen.
  - rewrite app_nil_r. split; [exact H1|]. exists (history (edits es1 s0)).
    cbn. now rewrite app_nil_r.
  - rewrite length_app in Hlen. cbn [length] in Hlen.
    destruct IH as [Halbum [below Hhist]]; [lia|].
    destruct (last (c1 :: es2)) as [c'|] eqn:Elast;
      [|destruct es2 using rev_ind;
        [discriminate | rewrite app_comm_cons, last_snoc in Elast; discriminate]].
    pose proof (removelast_then_last _ _ Elast) as Hsnoc.
    assert (Hk : length (removelast (c1 :: es2)) = length es2).
    { apply (f_equal (@length Album)) in Hsnoc.
      rewrite length_app in Hsnoc. cbn [length] in Hsnoc. lia. }
    rewrite app_assoc, edits_snoc, (setAlbumTo_loaded e c' _ Halbum).
    cbn [album history]. split.
    + now rewrite app_comm_cons, last_snoc.
    + rewrite Hhist, sliceLast_app by lia.
      eexists. rewrite <- app_assoc, Hsnoc.
      now rewrite (app_comm_cons es2 [e] c1), removelast_last.
Qed.

End History.

(** C9. After N <= 20 edits of a loaded album, with any undo stack before
    them: undoing the last k of the edits restores exactly the album that
    held before them (k = 1: the value right before the most recent edit);
    a redo right after an undo restores the value the undo discarded; and a
    new edit after an undo empties the redo stack, so that redo does
    nothing. *)
Theorem undo_redo_linear_history :
  forall (s0 : Store) (a0 : Album) (es1 es2 : list Album),
    album s0 = Some a0 ->
    (length (es1 ++ es2) <= 20)%nat ->
    es1 ++ es2 <> [] ->
    let s := edits (es1 ++ es2) s0 in
    album (Nat.iter (length es2) undo s) = album (edits es1 s0)
    /\ album (redo (undo s)) = album s
    /\ (forall e : Album,
          redoStack (setAlbumTo e (undo s)) = []
          /\ redo (setAlbumTo e (undo s)) = setAlbumTo e (undo s)).
Proof.
  intros s0 a0 es1 es2 H0 Hlen Hne s. subst s.
  split; [|split].
  - (* k undos *)
    destruct (edits_loaded es1 s0 a0 H0) as [c1 H1].
    rewrite length_app in Hlen.
    destruct (edits_stack es1 s0 c1 H1 es2) as [Halbum [below Hhist]]; [lia|].
    assert (Hk : length (removelast (c1 :: es2)) = length es2).
    { destruct (last (c1 :: es2)) as [c'|] eqn:Elast.
      - pose proof (removelast_then_last _ _ Elast) as Hsnoc.
        apply (f_equal (@length Album)) in Hsnoc.
        rewrite length_app in Hsnoc. cbn [length] in Hsnoc. lia.
      - destruct es2 using rev_ind;
          [discriminate | rewrite app_comm_cons, last_snoc in Elast; discriminate]. }
    rewrite <- Hk, (undos_pop _ below _ Hhist), H1.
    destruct es2 as [|e es2]; [now rewrite app_nil_r in * | reflexivity].
  - (* redo after undo *)
    destruct (exists_last Hne) as [es [e He]]. rewrite He, edits_snoc.
    destruct (edits_loaded es s0 a0 H0) as [c Hc].
    rewrite (undo_setAlbumTo e c _ Hc).
    rewrite (setAlbumTo_loaded e c _ Hc). reflexivity.
  - (* a new edit after an undo *)
    intros e'.
    destruct (exists_last Hne) as [es [e He]]. rewrite He, edits_snoc.
    destruct (edits_loaded es s0 a0 H0) as [c Hc].
    rewrite (undo_setAlbumTo e c _ Hc).
    unfold setAlbumTo, setAlbum. cbn. split; reflexivity.
Qed.

Lemma undo_redo_linear_history_witness :
  let s0 := storeOf (albumOf skeleton DEFAULT_CONFIG) in
  let e1 := albumOf (firstn 3 skeleton) DEFAULT_CONFIG in
  let e2 := albumOf (firstn 2 skeleton) DEFAULT_CONFIG in
  let s := edits ([e1] ++ [e2]) s0 in
  album (Nat.iter 1 undo s) = album (edits [e1] s0)
  /\ album (redo (undo s)) = album s
  /\ (forall e : Album,
        redoStack (setAlbumTo e (undo s)) = []
        /\ redo (setAlbumTo e (undo s)) = setAlbumTo e (undo s)).
Proof.
  intros s0 e1 e2.
  apply (undo_redo_linear_history s0 (albumOf skeleton DEFAULT_CONFIG) [e1] [e2]).
  - reflexivity.
  - cbn. lia.
  - discriminate.
Defined.

(* --------------------------------------------------------------------- *)
(** ** The editing lock *)
(* --------------------------------------------------------------------- *)

(** [uploadMedia] gives up before its first [await] when the album it was
    created with is locked, whatever the store holds later. *)
Lemma uploadMedia_locked (captured : Album) (us : list Asset) (now : Z) (s : Store) :
  locked captured = true -> uploadMedia (Some captured) us now s = s.
Proof. intros H. unfold uploadMedia. now rewrite H. Qed.

(** The lock toggle itself goes through while the album is locked. *)
Lemma toggleLock_unlocks (a : Album) (now : Z) (s : Store) :
  album s = Some a -> locked a = true ->
  exists a', album (toggleLock now s) = Some a' /\ locked a' = false.
Proof.
  intros Ha Hl. unfold toggleLock, setAlbum. rewrite Ha, Hl. cbn.
  eexists. split; reflexivity.
Qed.




(* --------------------------------------------------------------------- *)
(** ** Page numbering *)
(* --------------------------------------------------------------------- *)

Section Numbering.

Lemma pageNumber_renumberOne (i : nat) (o : option PageObj) :
  obj_pageNumber (renumberOne i o) = Z.of_nat i + 1.
Proof. destruct o as [[p|n]|]; reflexivity. Qed.

Lemma pageNumbers_imap (l : list (option PageObj)) :
  forall k : nat,
    map obj_pageNumber (imap (fun i => renumberOne (k + i)) l)
    = map (fun i => Z.of_nat i + 1) (seq k (length l)).
Proof.
  induction l as [|o l IH]; intros k; [reflexivity|].
  cbn [imap map length seq]. rewrite pageNumber_renumberOne, Nat.add_0_r.
  f_equal. rewrite <- (IH (S k)). f_equal.
  apply imap_ext. intros i y _. cbn. f_equal. lia.
Qed.

Lemma numbered_renumberU (l : list (option PageObj)) : numbered (renumberU l).
Proof.
  unfold numbered, renumberU. rewrite length_imap.
  apply (pageNumbers_imap l 0).
Qed.

Lemma numbered_renumber (l : list PageObj) : numbered (renumber l).
Proof. apply numbered_renumberU. Qed.

Lemma album_setAlbumTo (a : Album) (s : Store) : album (setAlbumTo a s) = Some a.
Proof. unfold setAlbumTo, setAlbum. destruct (album s); reflexivity. Qed.

Lemma wellNumbered_set (a : Album) (ps : list (option PageObj)) (now i : Z) (s : Store) :
  wellNumbered (setCurrentPageIndex i (setAlbumTo (withPages a (renumberU ps) now) s)).
Proof.
  eexists. cbn [setCurrentPageIndex album]. rewrite album_setAlbumTo.
  split; [reflexivity|]. apply numbered_renumberU.
Qed.

Lemma wellNumbered_set' (a : Album) (ps : list (option PageObj)) (now : Z) (s : Store) :
  wellNumbered (setAlbumTo (withPages a (renumberU ps) now) s).
Proof.
  eexists. rewrite album_setAlbumTo. split; [reflexivity|]. apply numbered_renumberU.
Qed.

Lemma runPageOp_wellNumbered (op : PageOp) (s : Store) :
  wellNumbered s -> wellNumbered (runPageOp s op).
Proof.
  intros Hs. pose proof Hs as [a [Ha Hn]].
  destruct op; cbn [runPageOp];
    unfold addPage, removePage, duplicatePage, movePage, reorderPages, renumber;
    rewrite Ha;
    repeat match goal with
           | |- wellNumbered (if ?c then _ else _) => destruct c
           | |- wellNumbered (match ?c with Some _ => _ | None => _ end) => destruct c
           | |- wellNumbered (let '(_, _) := ?c in _) => destruct c
           end;
    auto using wellNumbered_set, wellNumbered_set'.
Qed.

End Numbering.

(** C2. Starting from an album whose pages are numbered 1..N, after any
    sequence of [addPage], [removePage], [duplicatePage], [movePage] and
    [reorderPages] calls, with any arguments, the page numbers read in list
    order are exactly 1, 2, ..., M for the new page count M. *)
Theorem page_numbers_stay_contiguous :
  forall (ops : list PageOp) (s : Store) (a : Album),
    album s = Some a ->
    numbered (pages a) ->
    exists a', album (runPageOps ops s) = Some a'
      /\ map obj_pageNumber (pages a')
         = map (fun i => Z.of_nat i + 1) (seq 0 (length (pages a'))).
Proof.
  intros ops s a Ha Hn.
  assert (H : wellNumbered s) by (exists a; auto).
  clear a Ha Hn. revert s H.
  induction ops as [|op ops IH]; intros s H; cbn [runPageOps fold_left].
  - exact H.
  - apply IH. now apply runPageOp_wellNumbered.
Qed.

Lemma page_numbers_stay_contiguous_witness :
  exists a', album (runPageOps
                 [AddPage None "n1" "n2" 1; MovePage "p2" Right 2;
                  ReorderPages 9 1 3; RemovePage "p3" 4;
                  DuplicatePage "p1" (fun _ => "d") 5]
                 (storeOf (albumOf skeleton DEFAULT_CONFIG))) = Some a'
    /\ map obj_pageNumber (pages a')
       = map (fun i => Z.of_nat i + 1) (seq 0 (length (pages a'))).
Proof.
  apply (page_numbers_stay_contiguous _ _ (albumOf skeleton DEFAULT_CONFIG));
    reflexivity.
Defined.

(* --------------------------------------------------------------------- *)
(** ** Moving pages keeps the pages *)
(* --------------------------------------------------------------------- *)

Section Reordering.

Lemma erase_renumberOne (i : nat) (o : PageObj) :
  erasePageNumber (renumberOne i (Some o)) = erasePageNumber o.
Proof. destruct o; reflexivity. Qed.

Lemma erase_imap (l : list PageObj) :
  forall f : nat -> option PageObj -> PageObj,
    (forall i o, erasePageNumber (f i (Some o)) = erasePageNumber o) ->
    map erasePageNumber (imap f (map Some l)) = map erasePageNumber l.
Proof.
  induction l as [|o l IH]; intros f Hf; [reflexivity|].
  cbn [map imap]. rewrite Hf. f_equal. apply IH. intros i o'. apply Hf.
Qed.

Lemma erase_renumberU (l : list PageObj) :
  map erasePageNumber (renumberU (map Some l)) = map erasePageNumber l.
Proof. apply erase_imap, erase_renumberOne. Qed.

(** Inserting one element with [splice(i, 0, x)]. *)
Lemma splice_insert_Some {A : Type} (i : Z) (x : A) (r : list A) :
  snd (splice i 0 [Some x] (map Some r)) = map Some (snd (splice i 0 [x] r)).
Proof.
  unfold splice. cbn [snd]. rewrite length_map, !map_app.
  now rewrite firstn_map, skipn_map.
Qed.

Lemma splice_insert_perm {A : Type} (i : Z) (x : A) (r : list A) :
  Permutation (snd (splice i 0 [x] r)) (x :: r).
Proof.
  unfold splice. cbn [snd]. rewrite Nat.add_0_r.
  set (k := spliceStart i (length r)).
  rewrite <- (firstn_skipn k r) at 3.
  symmetry. apply Permutation_middle.
Qed.

(** Taking one element out with [splice(i, 1)], when there is one at the
    position [splice] settles on. *)
Lemma splice_remove_perm {A : Type} (i : Z) (l : list A) :
  (spliceStart i (length l) < length l)%nat ->
  exists x, fst (splice i 1 [] l) = [x]
    /\ Permutation (x :: snd (splice i 1 [] l)) l.
Proof.
  intros Hk. unfold splice. cbn [fst snd app].
  set (k := spliceStart i (length l)) in *.
  destruct (skipn k l) as [|x t] eqn:E.
  - apply (f_equal (@length A)) in E. rewrite length_skipn in E. cbn in E. lia.
  - exists x. split; [reflexivity|].
    replace (k + 1)%nat with (1 + k)%nat by lia.
    rewrite <- skipn_skipn, E. cbn [skipn].
    rewrite <- (firstn_skipn k l) at 2. rewrite E.
    apply Permutation_middle.
Qed.

Lemma spliceStart_below (i : Z) (len : nat) :
  len <> 0%nat -> i < Z.of_nat len -> (spliceStart i len < len)%nat.
Proof.
  intros Hne Hi. unfold spliceStart. destruct (i <? 0) eqn:E.
  - apply Z.ltb_lt in E. lia.
  - apply Z.ltb_ge in E. lia.
Qed.

(** Take a page out, put it back elsewhere, renumber. *)
Lemma move_samePages (ps : list PageObj) (i j : Z) :
  (spliceStart i (length ps) < length ps)%nat ->
  samePages ps
    (renumberU
       (snd (splice j 0 [head (fst (splice i 1 [] ps))]
               (map Some (snd (splice i 1 [] ps)))))).
Proof.
  intros Hk. destruct (splice_remove_perm i ps Hk) as [x [Hx Hp]].
  rewrite Hx. cbn [head]. rewrite splice_insert_Some.
  unfold samePages. rewrite erase_renumberU.
  apply Permutation_map. symmetry.
  etransitivity; [apply splice_insert_perm | exact Hp].
Qed.

Lemma findIndex_bounds {A : Type} (f : A -> bool) (l : list A) :
  -1 <= findIndex f l < Z.of_nat (length l).
Proof.
  induction l as [|a l IH]; cbn [findIndex length]; [lia|].
  destruct (f a); [lia|].
  destruct (findIndex f l =? -1) eqn:E; lia.
Qed.

End Reordering.

(** C10 (as amended). On an unlocked album, a [movePage] call, and a
    [reorderPages] call whose [fromIndex] lies below the page count of a
    non-empty album, keep the pages: the page list afterwards is a
    rearrangement of the page list before in which every page has its id,
    layoutTemplate, backgroundColor and assets (and every other field but
    pageNumber) as it had them. *)
Theorem move_and_reorder_keep_the_pages :
  forall (op : PageOp) (s : Store) (a : Album),
    album s = Some a ->
    locked a = false ->
    movesExistingPage op (pages a) ->
    exists a', album (runPageOp s op) = Some a'
      /\ Permutation (map erasePageNumber (pages a)) (map erasePageNumber (pages a')).
Proof.
  intros op s a Ha Hl Hop.
  assert (Hsame : exists a', album s = Some a' /\ samePages (pages a) (pages a'))
    by (exists a; split; [exact Ha | apply Permutation_refl]).
  destruct op as [| | | pageId direction now | fromIndex toIndex now];
    cbn [movesExistingPage] in Hop; try contradiction; cbn [runPageOp].
  - (* movePage *)
    unfold movePage. rewrite Ha, Hl.
    pose proof (findIndex_bounds (hasId pageId) (pages a)) as Hb.
    destruct (findIndex (hasId pageId) (pages a) =? -1) eqn:E1; [exact Hsame|].
    destruct ((findIndex (hasId pageId) (pages a) =? 0)
              || (findIndex (hasId pageId) (pages a) =? Z.of_nat (length (pages a)) - 1)) eqn:E2;
      [exact Hsame|].
    match goal with |- context [if ?c then s else _] => destruct c end; [exact Hsame|].
    apply Z.eqb_neq in E1.
    destruct (splice (findIndex (hasId pageId) (pages a)) 1 [] (pages a))
      as [movedPage rest] eqn:Es.
    eexists. cbn [setCurrentPageIndex album]. rewrite album_setAlbumTo.
    split; [reflexivity|]. cbn [pages withPages].
    replace movedPage with (fst (splice (findIndex (hasId pageId) (pages a)) 1 [] (pages a)))
      by now rewrite Es.
    replace rest with (snd (splice (findIndex (hasId pageId) (pages a)) 1 [] (pages a)))
      by now rewrite Es.
    apply move_samePages. apply spliceStart_below; [|lia].
    destruct (pages a); cbn in *; [lia | discriminate].
  - (* reorderPages *)
    destruct Hop as [Hne Hlt].
    unfold reorderPages. rewrite Ha, Hl.
    match goal with |- context [if ?c then s else _] => destruct c end; [exact Hsame|].
    destruct (splice fromIndex 1 [] (pages a)) as [movedPage rest] eqn:Es.
    eexists. rewrite album_setAlbumTo.
    split; [reflexivity|]. cbn [pages withPages].
    replace movedPage with (fst (splice fromIndex 1 [] (pages a))) by now rewrite Es.
    replace rest with (snd (splice fromIndex 1 [] (pages a))) by now rewrite Es.
    apply move_samePages. apply spliceStart_below; [|lia].
    destruct (pages a); cbn in *; [contradiction | discriminate].
Qed.

Lemma move_and_reorder_keep_the_pages_witness :
  let a := albumOf skeleton DEFAULT_CONFIG in
  exists a', album (runPageOp (storeOf a) (ReorderPages 1 2 5)) = Some a'
    /\ Permutation (map erasePageNumber (pages a)) (map erasePageNumber (pages a')).
Proof.
  intros a. apply (move_and_reorder_keep_the_pages (ReorderPages 1 2 5) (storeOf a) a).
  - reflexivity.
  - reflexivity.
  - cbn. split; [discriminate | lia].
Defined.

(** C10 as stated fails: [reorderPages] with a [fromIndex] past the end
    takes no page out, inserts [undefined], and the renumbering makes a page
    object of it. The album has one page more. *)
Lemma reorderPages_past_the_end_adds_a_page :
  ~ (forall (fromIndex toIndex now : Z) (s : Store) (a a' : Album),
       album s = Some a -> locked a = false ->
       album (reorderPages fromIndex toIndex now s) = Some a' ->
       Permutation (map erasePageNumber (pages a)) (map erasePageNumber (pages a'))).
Proof.
  intros H.
  specialize (H 9 1 5 (storeOf (albumOf skeleton DEFAULT_CONFIG)) _ _
                eq_refl eq_refl eq_refl).
  apply Permutation_length in H. vm_compute in H. discriminate.
Qed.

(* --------------------------------------------------------------------- *)
(** ** Stacking order *)
(* --------------------------------------------------------------------- *)

Section Stacking.

Lemma maxWith0_spec (zs : list Z) :
  0 <= maxWith0 zs
  /\ (forall z, In z zs -> z <= maxWith0 zs)
  /\ (maxWith0 zs = 0 \/ In (maxWith0 zs) zs).
Proof.
  induction zs as [|z zs [IH0 [IHle IHin]]]; cbn [maxWith0 fold_right].
  - repeat split; [lia | intros z [] | now left].
  - fold (maxWith0 zs). repeat split.
    + lia.
    + intros z' [<-|Hin]; [lia|]. specialize (IHle z' Hin). lia.
    + destruct (Z.max_spec z (maxWith0 zs)) as [[_ ->]|[_ ->]].
      * destruct IHin as [->|Hin]; [now left | right; now right].
      * right. now left.
Qed.

Lemma minWith0_spec (zs : list Z) :
  minWith0 zs <= 0
  /\ (forall z, In z zs -> minWith0 zs <= z)
  /\ (minWith0 zs = 0 \/ In (minWith0 zs) zs).
Proof.
  induction zs as [|z zs [IH0 [IHle IHin]]]; cbn [minWith0 fold_right].
  - repeat split; [lia | intros z [] | now left].
  - fold (minWith0 zs). repeat split.
    + lia.
    + intros z' [<-|Hin]; [lia|]. specialize (IHle z' Hin). lia.
    + destruct (Z.min_spec z (minWith0 zs)) as [[_ ->]|[_ ->]].
      * right. now left.
      * destruct IHin as [->|Hin]; [now left | right; now right].
Qed.

End Stacking.

(** C4 (as amended). On an unlocked album, for a page found by its id and an
    asset found on it, [updateAssetZIndex] sets the zIndex of that asset to
    m + 1 for 'front', where m is the largest of 0 and the zIndex values of
    all assets of the page (the asset itself included), and to m - 1 for
    'back', where m is the smallest of 0 and those values. The other assets
    keep their zIndex: nothing is renumbered. *)
Theorem updateAssetZIndex_sets_past_the_extreme :
  forall (s : Store) (a : Album) (pageId assetId : string)
         (direction : ZDirection) (now : Z) (page : Page) (asset : Asset),
    album s = Some a ->
    locked a = false ->
    findPage pageId (pages a) = Some page ->
    List.find (isAsset assetId) (assets page) = Some asset ->
    exists (m : Z) (a' : Album),
      album (updateAssetZIndex pageId assetId direction now s) = Some a'
      /\ pages a' =
           map (onPage pageId (fun p =>
                  assignPage p (P_assets
                    (map (fun x =>
                            if isAsset assetId x
                            then assignAsset x
                                   (A_zIndex (match direction with
                                              | Front => m + 1
                                              | Back => m - 1
                                              end))
                            else x)
                       (assets p)))))
             (pages a)
      /\ (m = 0 \/ In m (map zIndex (assets page)))
      /\ match direction with
         | Front => 0 <= m /\ forall z, In z (map zIndex (assets page)) -> z <= m
         | Back => m <= 0 /\ forall z, In z (map zIndex (assets page)) -> m <= z
         end.
Proof.
  intros s a pageId assetId direction now page asset Ha Hl Hp Hf.
  destruct direction.
  - exists (maxWith0 (map zIndex (assets page))). eexists.
    unfold updateAssetZIndex, updateAsset. rewrite Ha, Hl, Hp, Hf.
    rewrite album_setAlbumTo.
    destruct (maxWith0_spec (map zIndex (assets page))) as [H0 [Hle Hin]].
    repeat split; auto.
  - exists (minWith0 (map zIndex (assets page))). eexists.
    unfold updateAssetZIndex, updateAsset. rewrite Ha, Hl, Hp, Hf.
    rewrite album_setAlbumTo.
    destruct (minWith0_spec (map zIndex (assets page))) as [H0 [Hle Hin]].
    repeat split; auto.
Qed.

Lemma updateAssetZIndex_sets_past_the_extreme_witness :
  let page := mkPage "p2" 2 "freeform" [imageAsset "a" 4; imageAsset "b" 9]
                "#ffffff" None None None in
  let a := albumOf [blankPage "p1" 1 "cover-front"; PageOf page] DEFAULT_CONFIG in
  exists (m : Z) (a' : Album),
    album (updateAssetZIndex "p2" "a" Front 1 (storeOf a)) = Some a'
    /\ pages a' =
         map (onPage "p2" (fun p =>
                assignPage p (P_assets
                  (map (fun x =>
                          if isAsset "a" x then assignAsset x (A_zIndex (m + 1)) else x)
                     (assets p)))))
           (pages a)
    /\ (m = 0 \/ In m (map zIndex (assets page)))
    /\ (0 <= m /\ forall z, In z (map zIndex (assets page)) -> z <= m).
Proof.
  intros page a.
  apply (updateAssetZIndex_sets_past_the_extreme (storeOf a) a "p2" "a" Front 1
           page (imageAsset "a" 4)); reflexivity.
Defined.

(** C4 as stated fails: with every zIndex on the page below zero, 'front'
    does not give the largest sibling zIndex plus one (here -3 + 1), it gives
    0 + 1. *)
Lemma front_is_not_max_sibling_plus_one :
  ~ (forall (s : Store) (a a' : Album) (pageId assetId : string) (now : Z)
            (page page' : Page) (asset asset' : Asset) (m : Z),
       album s = Some a -> locked a = false ->
       findPage pageId (pages a) = Some page ->
       List.find (isAsset assetId) (assets page) = Some asset ->
       listMax (siblingsZ assetId page) = Some m ->
       album (updateAssetZIndex pageId assetId Front now s) = Some a' ->
       findPage pageId (pages a') = Some page' ->
       List.find (isAsset assetId) (assets page') = Some asset' ->
       zIndex asset' = m + 1).
Proof.
  intros H.
  pose (page := mkPage "p2" 2 "freeform" [imageAsset "a" (-5); imageAsset "b" (-3)]
                  "#ffffff" None None None).
  specialize (H (storeOf (albumOf [blankPage "p1" 1 "cover-front"; PageOf page] DEFAULT_CONFIG))
                _ _ "p2" "a" 1 page _ (imageAsset "a" (-5)) _ (-3)
                eq_refl eq_refl eq_refl eq_refl eq_refl eq_refl eq_refl eq_refl).
  vm_compute in H. discriminate.
Qed.

(* --------------------------------------------------------------------- *)
(** ** Moving an asset to another page *)
(* --------------------------------------------------------------------- *)

Section MoveAsset.

Variables (assetId fromPageId toPageId : string) (asset : Asset) (newX newY : Q).

Hypothesis asset_found : isAsset assetId asset = true.
Hypothesis other_page : fromPageId <> toPageId.

Lemma moveAssetOnPage_lift (o : PageObj) :
  moveAssetOnPage assetId fromPageId toPageId asset newX newY o
  = liftPage (movedPage assetId fromPageId toPageId asset newX newY) o.
Proof.
  destruct o as [p|n]; [|reflexivity]. unfold movedPage. cbn.
  destruct (String.eqb (page_id p) fromPageId); [reflexivity|].
  destruct (String.eqb (page_id p) toPageId); reflexivity.
Qed.

Lemma movedPage_id (p : Page) :
  page_id (movedPage assetId fromPageId toPageId asset newX newY p) = page_id p.
Proof.
  unfold movedPage.
  destruct (String.eqb (page_id p) fromPageId); [reflexivity|].
  destruct (String.eqb (page_id p) toPageId); reflexivity.
Qed.

Lemma findPage_lift (g : Page -> Page) (pageId : string) (ps : list PageObj) :
  (forall p, page_id (g p) = page_id p) ->
  findPage pageId (map (liftPage g) ps) = option_map g (findPage pageId ps).
Proof.
  intros Hg. induction ps as [|[p|n] ps IH]; cbn [map liftPage findPage]; auto.
  rewrite Hg. destruct (String.eqb (page_id p) pageId); auto.
Qed.

Lemma findPage_after_move (pageId : string) (ps : list PageObj) :
  findPage pageId (map (moveAssetOnPage assetId fromPageId toPageId asset newX newY) ps)
  = option_map (movedPage assetId fromPageId toPageId asset newX newY) (findPage pageId ps).
Proof.
  rewrite <- (findPage_lift (movedPage assetId fromPageId toPageId asset newX newY)
                pageId ps movedPage_id).
  f_equal. apply map_ext, moveAssetOnPage_lift.
Qed.

Lemma findPage_In (pageId : string) (ps : list PageObj) (p : Page) :
  findPage pageId ps = Some p -> In (PageOf p) ps /\ page_id p = pageId.
Proof.
  induction ps as [|[q|n] ps IH]; cbn [findPage]; intros H; [discriminate| |].
  - destruct (String.eqb (page_id q) pageId) eqn:E.
    + injection H as <-. apply String.eqb_eq in E. split; [now left | exact E].
    + destruct (IH H). split; [now right | assumption].
  - destruct (IH H). split; [now right | assumption].
Qed.

Lemma no_asset_after_filter (l : list Asset) :
  existsb (isAsset assetId) (List.filter (fun x => negb (isAsset assetId x)) l) = false.
Proof.
  induction l as [|b l IH]; [reflexivity|]. cbn [List.filter].
  destruct (isAsset assetId b) eqn:E; cbn [negb]; [exact IH|].
  cbn [existsb]. now rewrite E, IH.
Qed.

Lemma moved_asset_is_asset :
  isAsset assetId (spreadAsset asset [A_x newX; A_y newY]) = true.
Proof. exact asset_found. Qed.

(** With distinct page ids, exactly one page of the list has a given id
    that occurs. *)
Lemma filter_hasId_absent (pageId : string) (ps : list PageObj) :
  ~ In pageId (pageIds ps) -> List.filter (hasId pageId) ps = [].
Proof.
  induction ps as [|[p|n] ps IH]; cbn [pageIds List.filter hasId]; intros H; auto.
  destruct (String.eqb (page_id p) pageId) eqn:E.
  - apply String.eqb_eq in E. exfalso. apply H. now left.
  - apply IH. intros Hin. apply H. now right.
Qed.

Lemma one_page_with_id (pageId : string) (ps : list PageObj) (p : Page) :
  List.NoDup (pageIds ps) -> findPage pageId ps = Some p ->
  length (List.filter (hasId pageId) ps) = 1%nat.
Proof.
  induction ps as [|[q|n] ps IH]; cbn [pageIds findPage List.filter hasId];
    intros Hnd Hf; [discriminate| |now apply IH].
  apply List.NoDup_cons_iff in Hnd as [Hnotin Hnd].
  destruct (String.eqb (page_id q) pageId) eqn:E.
  - apply String.eqb_eq in E. subst pageId.
    cbn [length]. now rewrite filter_hasId_absent.
  - now apply IH.
Qed.

Lemma only_holder (h : PageObj -> bool) (ps : list PageObj) (o o' : PageObj) :
  length (List.filter h ps) = 1%nat ->
  In o ps -> h o = true -> In o' ps -> h o' = true -> o = o'.
Proof.
  intros Hlen Hin Hh Hin' Hh'.
  assert (H1 : In o (List.filter h ps)) by (apply filter_In; auto).
  assert (H2 : In o' (List.filter h ps)) by (apply filter_In; auto).
  destruct (List.filter h ps) as [|z [|z' t]]; try discriminate.
  destruct H1 as [<-|[]]. destruct H2 as [<-|[]]. reflexivity.
Qed.

(** After the move, the pages that hold the asset are the pages with the
    destination id. *)
Lemma holds_after_move (ps : list PageObj) (src : Page) :
  pagesHolding assetId ps = 1%nat ->
  findPage fromPageId ps = Some src ->
  holds assetId (PageOf src) = true ->
  forall o, In o ps ->
    holds assetId (liftPage (movedPage assetId fromPageId toPageId asset newX newY) o)
    = hasId toPageId o.
Proof.
  intros Hone Hsrc Hheld o Hin.
  destruct (findPage_In _ _ _ Hsrc) as [Hsrc_in Hsrc_id].
  destruct o as [p|n]; [|reflexivity].
  cbn [liftPage holds hasId]. unfold movedPage.
  destruct (String.eqb (page_id p) fromPageId) eqn:Ef.
  - cbn [assets assignPage]. rewrite no_asset_after_filter.
    apply String.eqb_eq in Ef. symmetry. apply String.eqb_neq. congruence.
  - destruct (String.eqb (page_id p) toPageId) eqn:Et.
    + cbn [assets assignPage]. rewrite existsb_app. cbn [existsb].
      rewrite moved_asset_is_asset. now rewrite orb_true_r.
    + destruct (existsb (isAsset assetId) (assets p)) eqn:Eh; [|reflexivity].
      exfalso. apply String.eqb_neq in Ef. apply Ef.
      assert (PageOf src = PageOf p) as Heq
        by (apply (only_holder (holds assetId) ps); auto).
      injection Heq as <-. exact Hsrc_id.
Qed.

Lemma pagesHolding_after_move (ps : list PageObj) (src dst : Page) :
  List.NoDup (pageIds ps) ->
  pagesHolding assetId ps = 1%nat ->
  findPage fromPageId ps = Some src ->
  findPage toPageId ps = Some dst ->
  holds assetId (PageOf src) = true ->
  pagesHolding assetId
    (map (moveAssetOnPage assetId fromPageId toPageId asset newX newY) ps) = 1%nat.
Proof.
  intros Hnd Hone Hsrc Hdst Hheld. unfold pagesHolding.
  rewrite (map_ext _ _ moveAssetOnPage_lift).
  rewrite filter_map_swap, length_map.
  rewrite (filter_ext_in _ (hasId toPageId)).
  - now apply (one_page_with_id toPageId ps dst).
  - intros o Hin. now apply (holds_after_move ps src).
Qed.

End MoveAsset.

Lemma existsb_find {A : Type} (f : A -> bool) (l : list A) :
  existsb f l = true -> exists x, List.find f l = Some x /\ f x = true.
Proof.
  induction l as [|b l IH]; cbn [existsb List.find]; [discriminate|].
  destruct (f b) eqn:E; [eauto|]. exact IH.
Qed.

(** C3 (as amended). On an unlocked album whose pages have distinct ids,
    with a source page and a destination page that both exist and differ: if
    the asset id appears on exactly one page's asset list, that of the source
    page, then after [moveAssetToPage] it appears on exactly one page's asset
    list again. The source page has lost it, the destination page has it
    appended with x = newX and y = newY and nothing else changed, and the
    move is one transition of the store: one entry on the undo stack, whose
    undo gives the album back. *)
Theorem moveAssetToPage_moves_the_asset :
  forall (s : Store) (a : Album) (assetId fromPageId toPageId : string)
         (newX newY : Q) (now : Z) (src dst : Page),
    album s = Some a ->
    locked a = false ->
    List.NoDup (pageIds (pages a)) ->
    findPage fromPageId (pages a) = Some src ->
    findPage toPageId (pages a) = Some dst ->
    fromPageId <> toPageId ->
    pagesHolding assetId (pages a) = 1%nat ->
    holds assetId (PageOf src) = true ->
    let s' := moveAssetToPage assetId fromPageId toPageId newX newY now s in
    exists (asset : Asset) (a' : Album),
      List.find (isAsset assetId) (assets src) = Some asset
      /\ album s' = Some a'
      /\ pagesHolding assetId (pages a') = 1%nat
      /\ findPage fromPageId (pages a')
         = Some (assignPage src (P_assets
                   (List.filter (fun x => negb (isAsset assetId x)) (assets src))))
      /\ findPage toPageId (pages a')
         = Some (assignPage dst (P_assets
                   (assets dst ++
                    [mkAsset (asset_id asset) (asset_type asset) (url asset)
                       newX newY (width asset) (height asset) (rotation asset)
                       (zIndex asset) (props asset)])))
      /\ history s' = sliceLast 19 (history s) ++ [a]
      /\ album (undo s') = Some a.
Proof.
  intros s a assetId fromPageId toPageId newX newY now src dst
         Ha Hl Hnd Hsrc Hdst Hne Hone Hheld s'.
  destruct (existsb_find _ _ Hheld) as [asset [Hfind Hasset]].
  destruct (findPage_In _ _ _ Hsrc) as [_ Hsrc_id].
  destruct (findPage_In _ _ _ Hdst) as [_ Hdst_id].
  assert (Hs' : s' = mkStore
            (Some (withPages a
               (map (moveAssetOnPage assetId fromPageId toPageId asset newX newY) (pages a))
               now))
            (sliceLast 19 (history s) ++ [a]) [] (currentPageIndex s) (selectedAssetId s)).
  { subst s'. unfold moveAssetToPage, setAlbum. now rewrite Ha, Hl, Hsrc, Hfind. }
  exists asset. eexists. rewrite Hs'. cbn [album history pages withPages].
  split; [exact Hfind|]. split; [reflexivity|]. cbn [pages withPages].
  split; [|split; [|split; [|split]]].
  - now apply (pagesHolding_after_move assetId fromPageId toPageId asset newX newY
                 Hasset Hne (pages a) src dst).
  - rewrite findPage_after_move, Hsrc. cbn [option_map]. unfold movedPage.
    rewrite Hsrc_id, String.eqb_refl. reflexivity.
  - rewrite findPage_after_move, Hdst. cbn [option_map]. unfold movedPage.
    rewrite Hdst_id, String.eqb_refl.
    apply not_eq_sym, String.eqb_neq in Hne. rewrite Hne. reflexivity.
  - reflexivity.
  - unfold undo. cbn [history album]. now rewrite last_snoc.
Qed.

Lemma moveAssetToPage_moves_the_asset_witness :
  let src := mkPage "p2" 2 "freeform" [imageAsset "a" 1; imageAsset "b" 2]
               "#ffffff" None None None in
  let dst := mkPage "p3" 3 "freeform" [imageAsset "c" 1] "#ffffff" None None None in
  let a := albumOf [blankPage "p1" 1 "cover-front"; PageOf src; PageOf dst;
                    blankPage "p4" 4 "cover-back"] DEFAULT_CONFIG in
  let s' := moveAssetToPage "a" "p2" "p3" 12 34 1 (storeOf a) in
  exists (asset : Asset) (a' : Album),
    List.find (isAsset "a") (assets src) = Some asset
    /\ album s' = Some a'
    /\ pagesHolding "a" (pages a') = 1%nat
    /\ findPage "p2" (pages a')
       = Some (assignPage src (P_assets
                 (List.filter (fun x => negb (isAsset "a" x)) (assets src))))
    /\ findPage "p3" (pages a')
       = Some (assignPage dst (P_assets
                 (assets dst ++
                  [mkAsset (asset_id asset) (asset_type asset) (url asset)
                     12 34 (width asset) (height asset) (rotation asset)
                     (zIndex asset) (props asset)])))
    /\ history s' = sliceLast 19 (history (storeOf a)) ++ [a]
    /\ album (undo s') = Some a.
Proof.
  intros src dst a.
  apply (moveAssetToPage_moves_the_asset (storeOf a) a "a" "p2" "p3" 12 34 1 src dst).
  - reflexivity.
  - reflexivity.
  - repeat constructor; cbn; intuition discriminate.
  - reflexivity.
  - reflexivity.
  - discriminate.
  - reflexivity.
  - reflexivity.
Defined.

(** C3 as stated fails: moved onto its own page, the asset is filtered out
    of that page and appended nowhere; it is then on no page at all. *)
Lemma moveAssetToPage_same_page_loses_the_asset :
  ~ (forall (s : Store) (a a' : Album) (assetId fromPageId toPageId : string)
            (newX newY : Q) (now : Z) (src : Page),
       album s = Some a -> locked a = false ->
       findPage fromPageId (pages a) = Some src ->
       pagesHolding assetId (pages a) = 1%nat ->
       holds assetId (PageOf src) = true ->
       album (moveAssetToPage assetId fromPageId toPageId newX newY now s) = Some a' ->
       pagesHolding assetId (pages a') = 1%nat).
Proof.
  intros H.
  pose (src := mkPage "p2" 2 "freeform" [imageAsset "a" 1] "#ffffff" None None None).
  specialize (H (storeOf (albumOf [blankPage "p1" 1 "cover-front"; PageOf src] DEFAULT_CONFIG))
                _ _ "a" "p2" "p2" 12%Q 34%Q 1 src
                eq_refl eq_refl eq_refl eq_refl eq_refl eq_refl).
  vm_compute in H. discriminate.
Qed.

(* --------------------------------------------------------------------- *)
(** ** Spread pairing *)
(* --------------------------------------------------------------------- *)

Section Spread.

Variables (s : Store) (a : Album).
Hypothesis loaded : album s = Some a.

Lemma at_nonneg {A : Type} (l : list A) (i : Z) (v : A) : at_ l i = Some v -> 0 <= i.
Proof. unfold at_. destruct (i <? 0) eqn:E; [discriminate|]. apply Z.ltb_ge in E. lia. Qed.

Lemma after_left_is_right (i : Z) : 0 <= i -> Z.rem i 2 = 1 -> (Z.rem (i + 1) 2 =? 1) = false.
Proof.
  intros H0 H1. apply Z.eqb_neq.
  rewrite Z.rem_mod_nonneg in * by lia.
  Z.div_mod_to_equations. lia.
Qed.

(** Where [getSpread] pairs two pages, the second page of the pair sits at
    the index asked for or right after it, and asking for that index gives
    the same pair unless that second page is a front cover. *)
Lemma getSpread_pair_of_second (i : Z) (p q : PageObj) :
  getSpread s i = [p; q] ->
  exists j, (j = i \/ j = i + 1)
    /\ at_ (pages a) j = Some q
    /\ (hasTemplate "cover-front" q = false -> getSpread s j = [p; q]).
Proof.
  unfold getSpread. rewrite loaded.
  destruct (at_ (pages a) i) as [page|] eqn:Ei; [|discriminate].
  destruct (negb (useSpreadView (config a))) eqn:Ev; [discriminate|].
  destruct (hasTemplate "cover-front" page) eqn:Ecf; [discriminate|].
  destruct (hasTemplate "cover-back" page) eqn:Ecb; [discriminate|].
  destruct (Z.rem i 2 =? 1) eqn:Eodd.
  - (* the page asked for is the left one *)
    destruct (at_ (pages a) (i + 1)) as [nextPage|] eqn:En; [|discriminate].
    destruct (negb (hasTemplate "cover-back" nextPage)) eqn:Enb; [|discriminate].
    intros H. injection H as <- <-.
    exists (i + 1). split; [now right|]. split; [exact En|]. intros Hq.
    rewrite En, Hq. apply negb_true_iff in Enb. rewrite Enb.
    apply Z.eqb_eq in Eodd.
    rewrite (after_left_is_right i (at_nonneg _ _ _ Ei) Eodd).
    replace (i + 1 - 1) with i by lia.
    now rewrite Ei, Ecf.
  - (* the page asked for is the right one *)
    destruct (at_ (pages a) (i - 1)) as [prevPage|] eqn:Ep; [|discriminate].
    destruct (negb (hasTemplate "cover-front" prevPage)) eqn:Epf; [|discriminate].
    intros H. injection H as <- <-.
    exists i. split; [now left|]. split; [exact Ei|]. intros _.
    now rewrite Ei, Ecf, Ecb, Eodd, Ep, Epf.
Qed.

End Spread.

(** C8, at an input where the code departs from it. The album has a front
    cover, one content page, and a page with the 'cover-front' template
    behind it (what [addPage('cover-front')] leaves at index 2 of a
    three-page album). [getSpread(1)] pairs the content page with the page at
    index 2, but [getSpread(2)] returns that page alone. *)
Theorem getSpread_unpaired_second_page :
  let p := blankPage "p2" 2 "freeform" in
  let q := blankPage "p3" 3 "cover-front" in
  let s := storeOf (albumOf [blankPage "p1" 1 "cover-front"; p; q] DEFAULT_CONFIG) in
  getSpread s 1 = [p; q] /\ getSpread s 2 = [q].
Proof. split; reflexivity. Qed.

(** Such an album is one call away from a regular one: [addPage] with the
    'cover-front' template on a front cover, a content page and a back
    cover. *)
Lemma getSpread_unpaired_after_addPage :
  let s0 := storeOf (albumOf [blankPage "p1" 1 "cover-front"; blankPage "p2" 2 "freeform";
                               blankPage "p3" 3 "cover-back"] DEFAULT_CONFIG) in
  let s := addPage (Some "cover-front") "n1" "n2" 1 s0 in
  map obj_id (getSpread s 1) = [Some "p2"; Some "n1"]
  /\ map obj_id (getSpread s 2) = [Some "n1"].
Proof. split; reflexivity. Qed.

(* --------------------------------------------------------------------- *)
(** ** Applying a single-page layout *)
(* --------------------------------------------------------------------- *)

Lemma nth_error_is_lookup {A : Type} (l : list A) :
  forall i : nat, nth_error l i = l !! i.
Proof. induction l as [|b l IH]; intros [|i]; cbn; auto. Qed.

Section SinglePageLayout.

Variables (currentMedia : list Asset) (freshId : nat -> string).

(** The loop over the slots, started at any index: it pushes, slot by slot,
    the media asset of that ordinal or the next placeholder. *)
Lemma fillSingle_fold (slots : list LayoutConfig) :
  forall (index drawn : nat) (acc : list Asset),
    drawn = (index - length currentMedia)%nat ->
    fold_left (fillSingleSlot currentMedia freshId) slots (index, drawn, acc)
    = ((index + length slots)%nat,
       (index + length slots - length currentMedia)%nat,
       acc ++ imap (fun j => slotAsset currentMedia freshId (index + j)) slots).
Proof.
  induction slots as [|slot slots IH]; intros index drawn acc Hd.
  - cbn. rewrite Nat.add_0_r, app_nil_r. now subst.
  - cbn [fold_left fillSingleSlot imap length].
    assert (Himap : imap ((fun j => slotAsset currentMedia freshId (index + j)) ∘ S) slots
                    = imap (fun j => slotAsset currentMedia freshId (S index + j)) slots).
    { apply imap_ext. intros j sl _. cbn. f_equal. lia. }
    rewrite Himap, Nat.add_0_r.
    assert (Hhere : slotAsset currentMedia freshId index slot
                    = match nth_error currentMedia index with
                      | Some m => updateAssetPosition m slot
                      | None =>
                          updateAssetPosition
                            (createPlaceholder (z_index slot) (freshId drawn)) slot
                      end)
      by (unfold slotAsset; now subst drawn).
    rewrite Hhere.
    destruct (nth_error currentMedia index) as [m|] eqn:E.
    + assert (index < length currentMedia)%nat
        by (apply nth_error_Some; congruence).
      rewrite (IH (S index) drawn) by lia.
      rewrite <- app_assoc. cbn [app].
      f_equal. f_equal; lia.
    + apply nth_error_None in E.
      rewrite (IH (S index) (S drawn)) by lia.
      rewrite <- app_assoc. cbn [app].
      f_equal. f_equal; lia.
Qed.

Lemma slotAsset_media (i : nat) (m : Asset) (slot : LayoutConfig) :
  currentMedia !! i = Some m ->
  slotAsset currentMedia freshId i slot = updateAssetPosition m slot.
Proof.
  intros H. unfold slotAsset.
  rewrite nth_error_is_lookup. now rewrite H.
Qed.

Lemma slotAsset_placeholder (i : nat) (slot : LayoutConfig) :
  (length currentMedia <= i)%nat ->
  slotAsset currentMedia freshId i slot
  = updateAssetPosition
      (createPlaceholder (z_index slot) (freshId (i - length currentMedia)%nat)) slot.
Proof.
  intros H. unfold slotAsset.
  now rewrite (proj2 (nth_error_None currentMedia i) H).
Qed.

End SinglePageLayout.

(** A placeholder put into a slot still has no url and is still marked. *)
Lemma placeholder_in_slot (z : Z) (newId : string) (slot : LayoutConfig) :
  url (updateAssetPosition (createPlaceholder z newId) slot) = ""
  /\ asset_id (updateAssetPosition (createPlaceholder z newId) slot) = newId
  /\ getProp (updateAssetPosition (createPlaceholder z newId) slot) "isPlaceholder"
     = VBool true.
Proof. repeat split; reflexivity. Qed.

(** Whatever is put into a slot sits in it afterwards, and is otherwise the
    asset it was. *)
Lemma updateAssetPosition_inSlot (asset : Asset) (slot : LayoutConfig) :
  inSlot (updateAssetPosition asset slot) slot.
Proof.
  unfold inSlot, updateAssetPosition, spreadAsset, getProp.
  cbn [fold_left assignAsset x y width height rotation zIndex props].
  repeat split;
    repeat (rewrite lookup_insert_ne by discriminate);
    now rewrite lookup_insert_eq.
Qed.

Lemma updateAssetPosition_sameAsset (asset : Asset) (slot : LayoutConfig) :
  sameAssetMoved asset (updateAssetPosition asset slot).
Proof.
  unfold sameAssetMoved, updateAssetPosition, spreadAsset, getProp.
  cbn [fold_left assignAsset asset_id asset_type url props].
  repeat split. intros key Hkey.
  rewrite !lookup_insert_ne by (intros <-; apply Hkey; cbn; tauto).
  reflexivity.
Qed.

(** C6. A single-page layout with k slots, applied to a page with m image
    or video assets, gives the page its other assets unchanged and in order,
    followed by exactly k slot-positioned assets, the one at ordinal i
    sitting in slot i: its x, y, width, height, rotation and z-index are the
    slot's, its fit is 'cover', and its crop, aspect lock and scale are
    reset. At the ordinals below min(m, k) these are the page's media assets
    in their order, each with its id, type, url and other properties as
    before; at the ordinals from m on they are max(k - m, 0) generated
    placeholders, images with an empty url and isPlaceholder = true. The
    media assets from ordinal k on are not on the page any more. *)
Theorem single_page_layout_fills_the_slots :
  forall (layout : AlbumLayout) (leftPage : Page) (rightPage : option Page)
         (targetPageId : option string) (freshId : nat -> string),
    is_spread layout = false ->
    let target := targetPage leftPage rightPage targetPageId in
    let media := List.filter isMedia (assets target) in
    let others := List.filter (fun x => negb (isMedia x)) (assets target) in
    let slots := layout_config layout in
    exists positioned : list Asset,
      calculateLayoutApplication layout (Some leftPage) rightPage targetPageId freshId
      = [mkUpdate (page_id target) (others ++ positioned) (layout_name layout)]
      /\ length positioned = length slots
      /\ Forall2 inSlot positioned slots
      /\ length (firstn (length media) positioned)
         = Nat.min (length media) (length slots)
      /\ length (skipn (length media) positioned)
         = (length slots - length media)%nat
      /\ (forall (i : nat) (m : Asset) (slot : LayoutConfig),
            media !! i = Some m -> slots !! i = Some slot ->
            positioned !! i = Some (updateAssetPosition m slot)
            /\ inSlot (updateAssetPosition m slot) slot
            /\ sameAssetMoved m (updateAssetPosition m slot))
      /\ (forall (i : nat) (slot : LayoutConfig),
            (length media <= i)%nat -> slots !! i = Some slot ->
            exists ph : Asset,
              positioned !! i = Some ph
              /\ ph = updateAssetPosition
                        (createPlaceholder (z_index slot)
                           (freshId (i - length media)%nat)) slot
              /\ inSlot ph slot
              /\ asset_id ph = freshId (i - length media)%nat
              /\ asset_type ph = image
              /\ url ph = ""
              /\ getProp ph "isPlaceholder" = VBool true).
Proof.
  intros layout leftPage rightPage targetPageId freshId Hsingle
         target media others slots.
  exists (imap (slotAsset media freshId) slots).
  split; [|split; [|split; [|split; [|split; [|split]]]]].
  - unfold calculateLayoutApplication. rewrite Hsingle.
    fold target. fold media. fold others. fold slots.
    rewrite (fillSingle_fold media freshId slots 0 0 others) by reflexivity.
    reflexivity.
  - apply length_imap.
  - apply Forall2_same_length_lookup. split; [apply length_imap|].
    intros i a slot Ha Hs. rewrite list_lookup_imap, Hs in Ha.
    cbn in Ha. injection Ha as <-. unfold slotAsset.
    destruct (nth_error media i); apply updateAssetPosition_inSlot.
  - rewrite length_firstn, length_imap. reflexivity.
  - rewrite length_skipn, length_imap. reflexivity.
  - intros i m slot Hm Hs.
    rewrite list_lookup_imap, Hs. cbn.
    rewrite (slotAsset_media media freshId i m slot Hm).
    split; [reflexivity|].
    split; [apply updateAssetPosition_inSlot | apply updateAssetPosition_sameAsset].
  - intros i slot Hi Hs. eexists.
    rewrite list_lookup_imap, Hs. cbn.
    rewrite (slotAsset_placeholder media freshId i slot Hi).
    split; [reflexivity|]. split; [reflexivity|].
    split; [apply updateAssetPosition_inSlot|].
    destruct (placeholder_in_slot (z_index slot) (freshId (i - length media)%nat) slot)
      as [Hu [Hid Hp]].
    repeat split; assumption.
Qed.

Lemma single_page_layout_fills_the_slots_witness :
  let target := targetPage fiveImages None None in
  let media := List.filter isMedia (assets target) in
  let others := List.filter (fun x => negb (isMedia x)) (assets target) in
  let slots := layout_config threeSlots in
  exists positioned : list Asset,
    calculateLayoutApplication threeSlots (Some fiveImages) None None demoId
    = [mkUpdate (page_id target) (others ++ positioned) (layout_name threeSlots)]
    /\ length positioned = length slots
    /\ Forall2 inSlot positioned slots
    /\ length (firstn (length media) positioned)
       = Nat.min (length media) (length slots)
    /\ length (skipn (length media) positioned)
       = (length slots - length media)%nat
    /\ (forall (i : nat) (m : Asset) (slot : LayoutConfig),
          media !! i = Some m -> slots !! i = Some slot ->
          positioned !! i = Some (updateAssetPosition m slot)
          /\ inSlot (updateAssetPosition m slot) slot
          /\ sameAssetMoved m (updateAssetPosition m slot))
    /\ (forall (i : nat) (slot : LayoutConfig),
          (length media <= i)%nat -> slots !! i = Some slot ->
          exists ph : Asset,
            positioned !! i = Some ph
            /\ ph = updateAssetPosition
                      (createPlaceholder (z_index slot)
                         (demoId (i - length media)%nat)) slot
            /\ inSlot ph slot
            /\ asset_id ph = demoId (i - length media)%nat
            /\ asset_type ph = image
            /\ url ph = ""
            /\ getProp ph "isPlaceholder" = VBool true).
Proof.
  apply (single_page_layout_fills_the_slots threeSlots fiveImages None None demoId).
  reflexivity.
Defined.

(** The two cases the specification spells out, with the id, the position,
    the size and the z-index of every asset of the page afterwards: three
    slots and five images give three positioned assets and no placeholder,
    with the text kept where it was; three slots and one image give one
    positioned asset and two placeholders. *)
Example three_slots_five_images :
  map (fun u => (map (fun a => (asset_id a, (x a, y a), (width a, height a), zIndex a))
                   (upd_assets u),
                 length (List.filter isPlaceholder (upd_assets u))))
    (calculateLayoutApplication threeSlots (Some fiveImages) None None demoId)
  = [([("t1", (5, 5)%Q, (20, 10)%Q, 7);
       ("i1", (0, 0)%Q, (50, 50)%Q, 1);
       ("i2", (50, 0)%Q, (50, 50)%Q, 2);
       ("i3", (0, 50)%Q, (100, 50)%Q, 3)], 0%nat)].
Proof. reflexivity. Qed.

Example three_slots_one_image :
  map (fun u => (map (fun a => (asset_id a, (x a, y a), (width a, height a), zIndex a))
                   (upd_assets u),
                 length (List.filter isPlaceholder (upd_assets u))))
    (calculateLayoutApplication threeSlots (Some oneImage) None None demoId)
  = [([("t1", (5, 5)%Q, (20, 10)%Q, 7);
       ("i1", (0, 0)%Q, (50, 50)%Q, 1);
       ("g0", (50, 0)%Q, (50, 50)%Q, 2);
       ("g1", (0, 50)%Q, (100, 50)%Q, 3)], 2%nat)].
Proof. reflexivity. Qed.

(* --------------------------------------------------------------------- *)
(** ** Snapping to the column grid *)
(* --------------------------------------------------------------------- *)

Section GridSnap.

Local Open Scope Q_scope.

Lemma near_true (a b : Q) : Qabs (a - b) < 1 -> near a b = true.
Proof.
  intros Hlt. unfold near, snapThreshold. apply negb_true_iff.
  destruct (Qle_bool 1 (Qabs (a - b))) eqn:E; [|reflexivity].
  apply Qle_bool_iff in E. exfalso. apply (Qlt_not_le _ _ Hlt E).
Qed.

Lemma near_far (a b : Q) : 1 <= a - b -> near a b = false.
Proof.
  intros Hle. unfold near, snapThreshold. apply negb_false_iff.
  apply Qle_bool_iff. apply (Qle_trans _ (a - b)); [exact Hle | apply Qle_Qabs].
Qed.

(** Consecutive column boundaries are more than two units apart. *)
Lemma colPos_gap (j i : nat) : (j < i)%nat -> colPos j + 8 <= colPos i.
Proof.
  intros Hlt. unfold colPos.
  assert (Hw : colWidth == 25 # 3) by reflexivity. rewrite Hw.
  assert (Hz : inject_Z (Z.of_nat j + 1) <= inject_Z (Z.of_nat i))
    by (rewrite <- Zle_Qle; lia).
  rewrite inject_Z_plus in Hz. change (inject_Z 1) with 1 in Hz.
  lra.
Qed.

Variables (w rx : Q) (i : nat).
Hypothesis w_nonneg : 0 <= w.
Hypothesis rx_near : Qabs (rx - colPos i) < 1.

Lemma vertical_count (g : list Guide) (c : Q) :
  In (V, c) g -> (1 <= length (List.filter isVertical g))%nat.
Proof.
  intros Hin.
  assert (Hf : In (V, c) (List.filter isVertical g)) by (apply filter_In; auto).
  destruct (List.filter isVertical g); [destruct Hf | cbn; lia].
Qed.

Lemma snappedTo_pushV (nx pos : Q) (st : Snapped) :
  snappedTo i st -> snappedTo i (pushV nx pos st).
Proof.
  intros [Hin _]. split; cbn [pushV guides snappedX].
  - apply in_or_app. now left.
  - rewrite List.filter_app, length_app. cbn.
    pose proof (vertical_count _ _ Hin). lia.
Qed.

Lemma snappedTo_pushH (ny pos : Q) (st : Snapped) :
  snappedTo i st -> snappedTo i (pushH ny pos st).
Proof.
  intros [Hin Hx]. split; cbn [pushH guides snappedX].
  - apply in_or_app. now left.
  - rewrite List.filter_app, length_app. cbn. rewrite Nat.add_0_r. exact Hx.
Qed.

Lemma snappedTo_ifV (c : bool) (nx pos : Q) (st : Snapped) :
  snappedTo i st -> snappedTo i (if c then pushV nx pos st else st).
Proof. destruct c; auto using snappedTo_pushV. Qed.

Lemma snappedTo_ifH (c : bool) (ny pos : Q) (st : Snapped) :
  snappedTo i st -> snappedTo i (if c then pushH ny pos st else st).
Proof. destruct c; auto using snappedTo_pushH. Qed.

Lemma snappedTo_gridStep (st : Snapped) (j : nat) :
  snappedTo i st -> snappedTo i (gridStep w st j).
Proof. intros Hst. unfold gridStep. now apply snappedTo_ifV, snappedTo_ifV. Qed.

Lemma snappedTo_grid (l : list nat) :
  forall st, snappedTo i st -> snappedTo i (fold_left (gridStep w) l st).
Proof.
  induction l as [|j l IH]; intros st Hst; [exact Hst|].
  cbn [fold_left]. apply IH. now apply snappedTo_gridStep.
Qed.

Lemma snappedTo_assets (r : Rect) (l : list Asset) :
  forall st, snappedTo i st -> snappedTo i (fold_left (assetStep r) l st).
Proof.
  induction l as [|t l IH]; intros st Hst; [exact Hst|].
  cbn [fold_left]. apply IH. unfold assetStep. now apply snappedTo_ifV, snappedTo_ifV.
Qed.

(** The columns before column [i] do not fire. *)
Lemma gridStep_before (ry : Q) (j : nat) :
  (j < i)%nat ->
  gridStep w (mkSnapped rx ry []) j = mkSnapped rx ry [].
Proof.
  intros Hlt. pose proof (colPos_gap j i Hlt) as Hgap.
  apply Qabs_Qlt_condition in rx_near. destruct rx_near as [Hlo _].
  unfold gridStep. cbn [snappedX].
  rewrite (near_far rx (colPos j)) by lra.
  cbn [snappedX].
  rewrite (near_far (rx + w) (colPos j)) by lra.
  reflexivity.
Qed.

Lemma grid_before (ry : Q) (l : list nat) :
  (forall j, In j l -> (j < i)%nat) ->
  fold_left (gridStep w) l (mkSnapped rx ry []) = mkSnapped rx ry [].
Proof.
  induction l as [|j l IH]; intros Hl; [reflexivity|].
  cbn [fold_left]. rewrite gridStep_before by (apply Hl; now left).
  apply IH. intros j' Hj'. apply Hl. now right.
Qed.

(** Column [i] fires. *)
Lemma gridStep_at (ry : Q) : snappedTo i (gridStep w (mkSnapped rx ry []) i).
Proof.
  unfold gridStep. cbn [snappedX].
  rewrite (near_true rx (colPos i) rx_near).
  apply snappedTo_ifV. split; cbn; auto.
Qed.

Lemma grid_snaps (ry : Q) (n : nat) :
  (i <= n)%nat ->
  snappedTo i (fold_left (gridStep w) (seq 0 (S n)) (mkSnapped rx ry [])).
Proof.
  intros Hin.
  replace (S n) with (i + (1 + (n - i)))%nat by lia.
  rewrite !seq_app, !fold_left_app.
  rewrite grid_before by (intros j Hj; apply in_seq in Hj; lia).
  apply snappedTo_grid. cbn [seq fold_left]. apply gridStep_at.
Qed.

End GridSnap.

(** C5 (as amended). For a dragged rectangle of non-negative width whose
    left edge, once rounded to the nearest integer, lies less than 1 unit
    from a column boundary i * (100 / 12) (i up to 12, up to 24 in spread
    view), the guides returned contain a vertical guide at that boundary; and
    [snappedX] is that exact boundary whenever this is the only vertical
    guide returned, that is, when no other snapping rule has fired. *)
Theorem column_snap_emits_its_guide :
  forall (pageAssets : list Asset) (nextPage : bool) (draggingId : string)
         (r : Rect) (i : nat),
    (i <= (if nextPage then 24 else 12))%nat ->
    (0 <= rect_w r)%Q ->
    (Qabs (round (rect_x r) - colPos i) < 1)%Q ->
    let res := findSnappingPoints pageAssets nextPage draggingId r in
    In (V, colPos i) (guides res)
    /\ (length (List.filter isVertical (guides res)) = 1%nat ->
        snappedX res = colPos i).
Proof.
  intros pageAssets nextPage draggingId r i Hi Hw Hnear res.
  change (snappedTo i res). subst res. unfold findSnappingPoints.
  assert (Hgrid :
    snappedTo i
      (fold_left (gridStep (rect_w r)) (seq 0 (S (if nextPage then 24 else 12)%nat))
         (mkSnapped (round (rect_x r)) (round (rect_y r)) [])))
    by (apply grid_snaps; assumption).
  destruct nextPage.
  - apply snappedTo_ifV, snappedTo_assets, snappedTo_ifV, snappedTo_ifV,
      snappedTo_ifH, snappedTo_ifV. exact Hgrid.
  - apply snappedTo_assets, snappedTo_ifV, snappedTo_ifV,
      snappedTo_ifH, snappedTo_ifV. exact Hgrid.
Qed.

Lemma column_snap_emits_its_guide_witness :
  let res := findSnappingPoints [] false "d" (mkRect (42 # 5) 20 4 4) in
  In (V, colPos 1) (guides res)
  /\ (length (List.filter isVertical (guides res)) = 1%nat ->
      snappedX res = colPos 1).
Proof.
  apply (column_snap_emits_its_guide [] false "d" (mkRect (42 # 5) 20 4 4) 1).
  - simpl. lia.
  - vm_compute. discriminate.
  - vm_compute. reflexivity.
Defined.

(** C5 as stated fails: a left edge at 7.4 is within 1 unit of the boundary
    100 / 12, but it is first rounded to 7, which is not; no rule fires,
    [snappedX] is 7 and there is no guide. *)
Lemma left_edge_near_a_column_need_not_snap :
  ~ (forall (pageAssets : list Asset) (nextPage : bool) (draggingId : string)
            (r : Rect) (i : nat),
       (i <= (if nextPage then 24 else 12))%nat ->
       (Qabs (rect_x r - colPos i) < 1)%Q ->
       let res := findSnappingPoints pageAssets nextPage draggingId r in
       snappedX res = colPos i /\ In (V, colPos i) (guides res)).
Proof.
  intros Hall.
  assert (Hi : (1 <= 12)%nat) by lia.
  assert (Hnear : (Qabs (rect_x (mkRect (37 # 5) 20 4 4) - colPos 1) < 1)%Q)
    by (vm_compute; reflexivity).
  destruct (Hall [] false "d" (mkRect (37 # 5) 20 4 4) 1%nat Hi Hnear) as [_ Hin].
  vm_compute in Hin. exact Hin.
Qed.

(* --------------------------------------------------------------------- *)
(** ** The normalizer and malformed rows *)
(* --------------------------------------------------------------------- *)

Section NormalizerTotality.

Variables (JSON_parse : Val -> option Val) (Number_ : Val -> Val)
          (String_ : Val -> string) (generateId : nat -> string).

Lemma assetToBox_returns (a : Val) : hasMembers a -> is_Some (assetToBox a).
Proof. destruct a; cbn; intros H; try contradiction; eauto. Qed.

Lemma legacyAsset_returns (a : Val) : hasMembers a -> is_Some (legacyAsset String_ a).
Proof. destruct a; cbn; intros H; try contradiction; eauto. Qed.

Lemma callMap_returns (f : Val -> option Val) (items : list Val) :
  (forall a, hasMembers a -> is_Some (f a)) ->
  Forall hasMembers items -> is_Some (callMap (VArr items) f).
Proof.
  intros Hf Hall. cbn [callMap]. apply mapM_is_Some.
  eapply Forall_impl; [exact Hall|]. intros a Ha. now apply Hf.
Qed.

(** Where the normalizer does return: the text layers, once parsed, can be
    iterated, and the assets column is absent or an array of rows. *)
Lemma normalizePageData_returns (p : list (string * Val)) :
  is_Some (iterate (safeParse JSON_parse (vOr (lookupField "text_layers" p) (VArr [])) (VArr []))) ->
  (lookupField "assets" p = VUndef
   \/ exists items, lookupField "assets" p = VArr items /\ Forall hasMembers items) ->
  is_Some (normalizePageData JSON_parse Number_ String_ generateId p).
Proof.
  intros [textItems Htext] Hassets. unfold normalizePageData.
  rewrite Htext. clear Htext.
  match goal with |- context [if ?c then _ else _] => destruct c eqn:Eunified end.
  - (* unified schema *)
    apply andb_true_iff in Eunified as [Harr _].
    match type of Harr with isArray ?v = true => destruct v eqn:Elayout; try discriminate end.
    cbn [iterate mbind option_bind].
    destruct Hassets as [-> | [rows [-> Hrows]]].
    + cbn [truthy]. rewrite andb_false_r. cbn. eauto.
    + match goal with |- context [if ?c then _ else _] => destruct c end.
      * destruct (callMap_returns assetToBox rows assetToBox_returns Hrows) as [l ->].
        cbn. eauto.
      * cbn. eauto.
  - (* legacy schema *)
    destruct Hassets as [-> | [rows [-> Hrows]]].
    + cbn. eauto.
    + cbn [vOr truthy].
      destruct (callMap_returns (legacyAsset String_) rows legacyAsset_returns Hrows) as [l ->].
      cbn. eauto.
Qed.

End NormalizerTotality.

(** C7, at inputs where the code departs from it. Whatever [JSON.parse],
    [Number] and [generateId] do, a row whose text layers column holds an
    object, and a row whose assets column holds an object, make
    [normalizePageData] raise: the first at [[...finalLayoutArray,
    ...textArray]], where an object is not iterable, the second at
    [(p.assets || []).map], which an object does not have. *)
Theorem normalizePageData_raises_on_object_columns :
  forall (JSON_parse : Val -> option Val) (Number_ : Val -> Val)
         (String_ : Val -> string) (generateId : nat -> string),
    normalizePageData JSON_parse Number_ String_ generateId rowWithObjectTextLayers = None
    /\ normalizePageData JSON_parse Number_ String_ generateId rowWithObjectAssets = None.
Proof. intros. split; reflexivity. Qed.

(* ===================================================================== *)
(** * Further properties of the store *)
(* ===================================================================== *)

(* --------------------------------------------------------------------- *)
(** ** Undo and redo are inverse to each other *)
(* --------------------------------------------------------------------- *)

Lemma store_eta (s : Store) :
  s = mkStore (album s) (history s) (redoStack s) (currentPageIndex s) (selectedAssetId s).
Proof. now destruct s. Qed.

Lemma redo_undo (s : Store) (a : Album) :
  album s = Some a -> history s <> [] -> redo (undo s) = s.
Proof.
  intros Ha Hh. destruct (exists_last Hh) as [h [p Hp]].
  rewrite (store_eta s) at 2. unfold undo. rewrite Hp, last_snoc, Ha.
  unfold redo. cbn [redoStack album history currentPageIndex selectedAssetId].
  now rewrite last_snoc, !dropLast_snoc.
Qed.

Lemma undo_redo (s : Store) (a : Album) :
  album s = Some a -> redoStack s <> [] -> undo (redo s) = s.
Proof.
  intros Ha Hr. destruct (exists_last Hr) as [r [n Hn]].
  rewrite (store_eta s) at 2. unfold redo. rewrite Hn, last_snoc, Ha.
  unfold undo. cbn [redoStack album history currentPageIndex selectedAssetId].
  now rewrite last_snoc, !dropLast_snoc.
Qed.

(** X1. With an album loaded and something to undo, a redo right after an
    undo gives back the whole store (album, both stacks, selection, current
    page), and the undo of that redo gives back the store the first undo
    produced: the two operations are inverse to each other on the stacks. *)
Theorem undo_and_redo_are_inverse :
  forall (s : Store) (a : Album),
    album s = Some a ->
    history s <> [] ->
    redo (undo s) = s /\ undo (redo (undo s)) = undo s.
Proof.
  intros s a Ha Hh. split; [now apply (redo_undo s a)|].
  now rewrite (redo_undo s a).
Qed.

Lemma undo_and_redo_are_inverse_witness :
  let s := edits [albumOf (firstn 3 skeleton) DEFAULT_CONFIG]
             (storeOf (albumOf skeleton DEFAULT_CONFIG)) in
  redo (undo s) = s /\ undo (redo (undo s)) = undo s.
Proof.
  intros s.
  apply (undo_and_redo_are_inverse s (albumOf (firstn 3 skeleton) DEFAULT_CONFIG)).
  - reflexivity.
  - discriminate.
Defined.

(* --------------------------------------------------------------------- *)
(** ** The stacks stay bounded *)
(* --------------------------------------------------------------------- *)

Section Bounded.

Lemma length_sliceLast {A : Type} (n : nat) (h : list A) :
  (length (sliceLast n h) <= n)%nat.
Proof. unfold sliceLast. rewrite length_skipn. lia. Qed.

Lemma setAlbum_bounded (f : option Album -> Resolved) (s : Store) :
  stacksBounded s -> stacksBounded (setAlbum f s).
Proof.
  unfold stacksBounded, setAlbum. intros Hs.
  destruct (f (album s)) as [|[r|]]; [exact Hs | | destruct (album s); exact Hs].
  destruct (album s); [|exact Hs].
  cbn [history redoStack length]. rewrite length_app. cbn [length].
  pose proof (length_sliceLast 19 (history s)). lia.
Qed.

Lemma undo_bounded (s : Store) : stacksBounded s -> stacksBounded (undo s).
Proof.
  unfold stacksBounded, undo. intros Hs.
  destruct (last (history s)) as [p|] eqn:E; [|exact Hs].
  apply removelast_then_last in E. apply (f_equal (@length Album)) in E.
  rewrite length_app in E. cbn [length] in E. unfold dropLast.
  destruct (album s); cbn [history redoStack]; rewrite ?length_app; cbn [length]; lia.
Qed.

Lemma redo_bounded (s : Store) : stacksBounded s -> stacksBounded (redo s).
Proof.
  unfold stacksBounded, redo. intros Hs.
  destruct (last (redoStack s)) as [p|] eqn:E; [|exact Hs].
  apply removelast_then_last in E. apply (f_equal (@length Album)) in E.
  rewrite length_app in E. cbn [length] in E. unfold dropLast.
  destruct (album s); cbn [history redoStack]; rewrite ?length_app; cbn [length]; lia.
Qed.

Lemma setCurrentPageIndex_bounded (i : Z) (s : Store) :
  stacksBounded s -> stacksBounded (setCurrentPageIndex i s).
Proof. exact id. Qed.

Lemma setSelectedAssetId_bounded (i : option string) (s : Store) :
  stacksBounded s -> stacksBounded (setSelectedAssetId i s).
Proof. exact id. Qed.

Ltac bounded_step :=
  match goal with
  | |- stacksBounded (setCurrentPageIndex _ _) => apply setCurrentPageIndex_bounded
  | |- stacksBounded (setSelectedAssetId _ _) => apply setSelectedAssetId_bounded
  | |- stacksBounded (setAlbumTo _ _) => apply setAlbum_bounded
  | |- stacksBounded (setAlbum _ _) => apply setAlbum_bounded
  | |- stacksBounded (if ?c then _ else _) => destruct c
  | |- stacksBounded (match ?c with Some _ => _ | None => _ end) => destruct c
  | |- stacksBounded (let '(_, _) := ?c in _) => destruct c
  end.

Lemma mutate_bounded (m : Mutation) (now : Z) (s s' : Store) :
  stacksBounded s -> mutate m now s = Done s' -> stacksBounded s'.
Proof.
  intros Hs.
  destruct m; cbn [mutate];
    try (intros [= <-];
         unfold addPage, removePage, updatePage, addAsset, updateAsset, removeAsset,
           duplicateAsset, updateAssetZIndex, updateAsset, uploadMedia, addMediaByUrl,
           moveFromLibrary, applyLayout, duplicatePage, movePage, reorderPages,
           updateConfig, updatePageAssets, moveAssetToPage;
         repeat bounded_step; exact Hs).
  unfold syncStyles.
  destruct (album s) as [a|]; [|now intros [= <-]].
  destruct (locked a); [now intros [= <-]|].
  destruct (mapM (syncPage sourceAsset) (pages a)); [|discriminate].
  intros [= <-]. now apply setAlbum_bounded.
Qed.

Lemma runAction_bounded (act : Action) (s s' : Store) :
  stacksBounded s -> runAction act s = Done s' -> stacksBounded s'.
Proof.
  intros Hs. destruct act; cbn [runAction].
  - now apply mutate_bounded.
  - intros [= <-]. unfold toggleLock. repeat bounded_step; exact Hs.
  - intros [= <-]. unfold toggleSpreadView, updateConfig. repeat bounded_step; exact Hs.
  - intros [= <-]. now apply setAlbum_bounded.
  - intros [= <-]. now apply undo_bounded.
  - intros [= <-]. now apply redo_bounded.
Qed.

End Bounded.

(** X2. Whatever is called against the store, in whatever order (any of the
    nineteen mutations, the lock and spread toggles, [setAlbum] with any
    argument, undo, redo), the undo stack and the redo stack together never
    hold more than 20 album snapshots, provided they did not to begin
    with. *)
Theorem undo_and_redo_stacks_stay_bounded :
  forall (acts : list Action) (s s' : Store),
    (length (history s) + length (redoStack s) <= 20)%nat ->
    runActions acts s = Done s' ->
    (length (history s') + length (redoStack s') <= 20)%nat.
Proof.
  induction acts as [|act acts IH]; intros s s' Hs; cbn [runActions].
  - now intros [= <-].
  - destruct (runAction act s) as [s1|] eqn:E; [|discriminate].
    apply IH. now apply (runAction_bounded act s s1).
Qed.

Lemma undo_and_redo_stacks_stay_bounded_witness :
  let s := storeOf (albumOf skeleton DEFAULT_CONFIG) in
  let s' := undo (removePage "p2" 3 (toggleLock 2 (redo (undo (addPage None "n1" "n2" 1 s))))) in
  (length (history s') + length (redoStack s') <= 20)%nat.
Proof.
  intros s s'.
  apply (undo_and_redo_stacks_stay_bounded
           [DoMutation (M_addPage None "n1" "n2") 1; DoUndo; DoRedo;
            DoToggleLock 2; DoMutation (M_removePage "p2") 3; DoUndo] s s').
  - simpl. lia.
  - reflexivity.
Defined.

(* --------------------------------------------------------------------- *)
(** ** The lock is itself an edit *)
(* --------------------------------------------------------------------- *)

(** X3. Locking an unlocked album is recorded like any edit: right after
    [toggleLock] the album is locked and differs from the old one in its
    lock flag and [updatedAt] only, the old album is on top of the undo
    stack, and one [undo], which the lock does not stop, brings the unlocked
    album back. *)
Theorem toggleLock_locks_and_undo_unlocks :
  forall (s : Store) (a : Album) (now : Z),
    album s = Some a ->
    locked a = false ->
    album (toggleLock now s)
    = Some (withConfig a (assignConfig (config a) (C_isLocked (Some true))) now)
    /\ (forall a', album (toggleLock now s) = Some a' -> locked a' = true)
    /\ last (history (toggleLock now s)) = Some a
    /\ album (undo (toggleLock now s)) = Some a.
Proof.
  intros s a now Ha Hl.
  assert (Hs : toggleLock now s
               = mkStore
                   (Some (withConfig a (assignConfig (config a) (C_isLocked (Some true))) now))
                   (sliceLast 19 (history s) ++ [a]) []
                   (currentPageIndex s) (selectedAssetId s)).
  { unfold toggleLock, setAlbum. rewrite Ha, Hl. reflexivity. }
  rewrite Hs. cbn [album history]. split; [reflexivity|]. split; [|split].
  - intros a' [= <-]. reflexivity.
  - apply last_snoc.
  - unfold undo. cbn [history]. now rewrite last_snoc.
Qed.

Lemma toggleLock_locks_and_undo_unlocks_witness :
  let a := albumOf skeleton DEFAULT_CONFIG in
  let s := storeOf a in
  album (toggleLock 5 s)
  = Some (withConfig a (assignConfig (config a) (C_isLocked (Some true))) 5)
  /\ (forall a', album (toggleLock 5 s) = Some a' -> locked a' = true)
  /\ last (history (toggleLock 5 s)) = Some a
  /\ album (undo (toggleLock 5 s)) = Some a.
Proof.
  intros a s. apply (toggleLock_locks_and_undo_unlocks s a 5); reflexivity.
Defined.

(* --------------------------------------------------------------------- *)
(** ** Where pages are added, removed and copied *)
(* --------------------------------------------------------------------- *)

Section PageStructure.

Lemma findIndex_none {A : Type} (f : A -> bool) (l : list A) :
  findIndex f l = -1 -> Forall (fun y => f y = false) l.
Proof.
  induction l as [|b l IH]; cbn [findIndex]; intros Hn; [constructor|].
  destruct (f b) eqn:Eb; [discriminate|].
  destruct (findIndex f l =? -1) eqn:E.
  - constructor; [exact Eb|]. apply IH. now apply Z.eqb_eq.
  - pose proof (findIndex_bounds f l). apply Z.eqb_neq in E. lia.
Qed.

Lemma findIndex_found {A : Type} (f : A -> bool) (l : list A) :
  findIndex f l <> -1 ->
  exists pre x post,
    l = pre ++ x :: post /\ f x = true
    /\ Forall (fun y => f y = false) pre
    /\ findIndex f l = Z.of_nat (length pre).
Proof.
  induction l as [|b l IH]; cbn [findIndex]; intros Hn; [contradiction|].
  destruct (f b) eqn:Eb.
  - exists [], b, l. repeat split; auto.
  - destruct (findIndex f l =? -1) eqn:E; [contradiction|].
    apply Z.eqb_neq in E. destruct (IH E) as (pre & x & post & -> & Hx & Hpre & Hi).
    exists (b :: pre), x, post. repeat split; auto.
    rewrite Hi. cbn [length]. lia.
Qed.

(** Inserting at the end of a known prefix. *)
Lemma splice_insert_at {A : Type} (pre post items : list A) :
  snd (splice (Z.of_nat (length pre)) 0 items (pre ++ post)) = pre ++ items ++ post.
Proof.
  unfold splice, spliceStart. cbn [snd].
  destruct (Z.of_nat (length pre) <? 0) eqn:E; [apply Z.ltb_lt in E; lia|].
  rewrite Nat2Z.id, length_app, Nat.min_l, Nat.add_0_r by lia.
  rewrite firstn_app, Nat.sub_diag, firstn_all. cbn [firstn]. rewrite app_nil_r.
  rewrite skipn_app, skipn_all, Nat.sub_diag. reflexivity.
Qed.

Lemma splice_insert_end {A : Type} (l items : list A) :
  snd (splice (Z.of_nat (length l)) 0 items l) = l ++ items.
Proof.
  pose proof (splice_insert_at l [] items) as H.
  now rewrite !app_nil_r in H.
Qed.

Lemma erase_renumber (l : list PageObj) :
  map erasePageNumber (renumber l) = map erasePageNumber l.
Proof. apply erase_renumberU. Qed.

Lemma pageIds_erase (l : list PageObj) : pageIds (map erasePageNumber l) = pageIds l.
Proof. induction l as [|[p|n] l IH]; cbn; congruence. Qed.

Lemma pageIds_app (l1 l2 : list PageObj) : pageIds (l1 ++ l2) = pageIds l1 ++ pageIds l2.
Proof. induction l1 as [|[p|n] l1 IH]; cbn; congruence. Qed.

Lemma pageIds_without (pageId : string) (l : list PageObj) :
  ~ In pageId (pageIds (List.filter (fun p => negb (hasId pageId p)) l)).
Proof.
  induction l as [|[p|n] l IH]; cbn [List.filter hasId negb pageIds]; auto.
  destruct (String.eqb (page_id p) pageId) eqn:E; cbn [negb]; [exact IH|].
  cbn [pageIds]. intros [Heq|Hin]; [|now apply IH].
  apply String.eqb_neq in E. contradiction.
Qed.

Lemma findPage_split (pageId : string) (l : list PageObj) (p : Page) :
  findPage pageId l = Some p ->
  exists pre post,
    l = pre ++ PageOf p :: post
    /\ ~ In pageId (pageIds pre)
    /\ findIndex (hasId pageId) l = Z.of_nat (length pre).
Proof.
  induction l as [|[q|n] l IH]; cbn [findPage findIndex hasId]; intros Hf;
    [discriminate| |].
  - destruct (String.eqb (page_id q) pageId) eqn:E.
    + injection Hf as <-. exists [], l. repeat split; auto.
    + destruct (IH Hf) as (pre & post & -> & Hpre & Hi).
      exists (PageOf q :: pre), post. rewrite Hi.
      destruct (Z.of_nat (length pre) =? -1) eqn:E1; [apply Z.eqb_eq in E1; lia|].
      repeat split; [|cbn [length]; lia].
      cbn [pageIds]. intros [Heq|Hin]; [|contradiction].
      apply String.eqb_neq in E. contradiction.
  - destruct (IH Hf) as (pre & post & -> & Hpre & Hi).
    exists (Bare n :: pre), post. rewrite Hi.
    destruct (Z.of_nat (length pre) =? -1) eqn:E1; [apply Z.eqb_eq in E1; lia|].
    repeat split; [exact Hpre | cbn [length]; lia].
Qed.

End PageStructure.

(** X4. On an unlocked album [addPage] puts two blank pages with the given
    template (freeform by default) right in front of the first page whose
    template is 'cover-back', or at the end when there is none. The pages
    before and after keep their order and everything but their numbers, and
    the current page becomes the first of the two new pages. *)
Theorem addPage_inserts_before_the_back_cover :
  forall (s : Store) (a : Album) (template : option string) (id1 id2 : string) (now : Z),
    album s = Some a ->
    locked a = false ->
    let t := default "freeform" template in
    let s' := addPage template id1 id2 now s in
    exists (pre post : list PageObj) (a' : Album),
      pages a = pre ++ post
      /\ Forall (fun o => hasTemplate "cover-back" o = false) pre
      /\ (post = [] \/ exists c rest, post = c :: rest /\ hasTemplate "cover-back" c = true)
      /\ album s' = Some a'
      /\ map erasePageNumber (pages a')
         = map erasePageNumber (pre ++ [blankPage id1 0 t; blankPage id2 0 t] ++ post)
      /\ currentPageIndex s' = Z.of_nat (length pre).
Proof.
  intros s a template id1 id2 now Ha Hl t s'. subst s'. unfold addPage.
  rewrite Ha, Hl. fold t.
  destruct (findIndex (hasTemplate "cover-back") (pages a) =? -1) eqn:E; cbn [negb].
  - apply Z.eqb_eq in E. exists (pages a), []. eexists.
    rewrite app_nil_r. split; [reflexivity|].
    split; [now apply findIndex_none|]. split; [now left|].
    cbn [setCurrentPageIndex album currentPageIndex]. rewrite album_setAlbumTo.
    split; [reflexivity|]. split; [|reflexivity].
    cbn [pages withPages]. rewrite erase_renumber, splice_insert_end.
    rewrite !map_app. reflexivity.
  - apply Z.eqb_neq in E.
    destruct (findIndex_found _ _ E) as (pre & c & post & Hsplit & Hc & Hpre & Hi).
    exists pre, (c :: post). eexists. split; [exact Hsplit|]. split; [exact Hpre|].
    split; [right; eauto|].
    cbn [setCurrentPageIndex album currentPageIndex]. rewrite album_setAlbumTo.
    split; [reflexivity|]. split; [|exact Hi].
    cbn [pages withPages]. rewrite erase_renumber, Hi, Hsplit, splice_insert_at.
    rewrite !map_app. reflexivity.
Qed.

Lemma addPage_inserts_before_the_back_cover_witness :
  let a := albumOf skeleton DEFAULT_CONFIG in
  let s' := addPage None "n1" "n2" 1 (storeOf a) in
  exists (pre post : list PageObj) (a' : Album),
    pages a = pre ++ post
    /\ Forall (fun o => hasTemplate "cover-back" o = false) pre
    /\ (post = [] \/ exists c rest, post = c :: rest /\ hasTemplate "cover-back" c = true)
    /\ album s' = Some a'
    /\ map erasePageNumber (pages a')
       = map erasePageNumber
           (pre ++ [blankPage "n1" 0 "freeform"; blankPage "n2" 0 "freeform"] ++ post)
    /\ currentPageIndex s' = Z.of_nat (length pre).
Proof.
  intros a.
  apply (addPage_inserts_before_the_back_cover (storeOf a) a None "n1" "n2" 1);
    reflexivity.
Defined.

(** X5. On an unlocked album [removePage] does nothing while the album has
    at most one page; otherwise it takes out every page with the given id,
    covers included, keeps the other pages in their order with everything but
    their numbers, and steps the current page index back by one, not below
    0. *)
Theorem removePage_takes_out_the_page :
  forall (s : Store) (a : Album) (pageId : string) (now : Z),
    album s = Some a ->
    locked a = false ->
    let s' := removePage pageId now s in
    if (length (pages a) <=? 1)%nat then s' = s
    else exists a' : Album,
        album s' = Some a'
        /\ map erasePageNumber (pages a')
           = map erasePageNumber
               (List.filter (fun p => negb (hasId pageId p)) (pages a))
        /\ ~ In pageId (pageIds (pages a'))
        /\ currentPageIndex s' = Z.max 0 (currentPageIndex s - 1).
Proof.
  intros s a pageId now Ha Hl s'. subst s'. unfold removePage. rewrite Ha, Hl.
  destruct (length (pages a) <=? 1)%nat; cbn [orb]; [reflexivity|].
  eexists. cbn [setCurrentPageIndex album currentPageIndex]. rewrite album_setAlbumTo.
  split; [reflexivity|]. cbn [pages withPages].
  split; [apply erase_renumber|]. split; [|reflexivity].
  rewrite <- pageIds_erase, erase_renumber, pageIds_erase.
  apply pageIds_without.
Qed.

Lemma removePage_takes_out_the_page_witness :
  let a := albumOf skeleton DEFAULT_CONFIG in
  let s' := removePage "p4" 1 (storeOf a) in
  if (length (pages a) <=? 1)%nat then s' = storeOf a
  else exists a' : Album,
      album s' = Some a'
      /\ map erasePageNumber (pages a')
         = map erasePageNumber (List.filter (fun p => negb (hasId "p4" p)) (pages a))
      /\ ~ In "p4" (pageIds (pages a'))
      /\ currentPageIndex s' = Z.max 0 (currentPageIndex (storeOf a) - 1).
Proof.
  intros a. apply (removePage_takes_out_the_page (storeOf a) a "p4" 1); reflexivity.
Defined.

(** X6. On an unlocked album [duplicatePage] of a page that exists puts the
    copy right behind the first page with that id and makes it the current
    page. The copy has a fresh id, the template, background and name of the
    original, and the original's assets in order, each with a fresh id and
    otherwise unchanged. All other pages keep their order. *)
Theorem duplicatePage_copies_behind_the_original :
  forall (s : Store) (a : Album) (pageId : string) (freshId : nat -> string)
         (now : Z) (p : Page),
    album s = Some a ->
    locked a = false ->
    findPage pageId (pages a) = Some p ->
    let s' := duplicatePage pageId freshId now s in
    exists (pre post : list PageObj) (a' : Album),
      pages a = pre ++ PageOf p :: post
      /\ ~ In pageId (pageIds pre)
      /\ album s' = Some a'
      /\ map erasePageNumber (pages a')
         = map erasePageNumber (pre ++ PageOf p :: PageOf (pageCopy freshId p) :: post)
      /\ length (assets (pageCopy freshId p)) = length (assets p)
      /\ (forall (i : nat) (x : Asset),
            assets p !! i = Some x ->
            assets (pageCopy freshId p) !! i = Some (assignAsset x (A_id (freshId (S i)))))
      /\ currentPageIndex s' = Z.of_nat (length pre) + 1.
Proof.
  intros s a pageId freshId now p Ha Hl Hp s'. subst s'. unfold duplicatePage.
  rewrite Ha, Hl, Hp.
  destruct (findPage_split _ _ _ Hp) as (pre & post & Hsplit & Hpre & Hi).
  exists pre, post. eexists. split; [exact Hsplit|]. split; [exact Hpre|].
  cbn [setCurrentPageIndex album currentPageIndex]. rewrite album_setAlbumTo.
  split; [reflexivity|]. cbn [pages withPages].
  split; [|split; [|split; [|now rewrite Hi]]].
  - rewrite erase_renumber, Hi, Hsplit.
    replace (Z.of_nat (length pre) + 1) with (Z.of_nat (length (pre ++ [PageOf p])))
      by (rewrite length_app; cbn [length]; lia).
    replace (pre ++ PageOf p :: post) with ((pre ++ [PageOf p]) ++ post)
      by now rewrite <- app_assoc.
    rewrite splice_insert_at, !map_app. cbn [map app].
    rewrite <- !app_assoc. reflexivity.
  - apply length_imap.
  - intros i x Hx. cbn [pageCopy assets]. now rewrite list_lookup_imap, Hx.
Qed.

Lemma duplicatePage_copies_behind_the_original_witness :
  let a := albumOf [blankPage "p1" 1 "cover-front"; PageOf fiveImages;
                    blankPage "p3" 3 "cover-back"] DEFAULT_CONFIG in
  let s' := duplicatePage "p2" demoId 1 (storeOf a) in
  exists (pre post : list PageObj) (a' : Album),
    pages a = pre ++ PageOf fiveImages :: post
    /\ ~ In "p2" (pageIds pre)
    /\ album s' = Some a'
    /\ map erasePageNumber (pages a')
       = map erasePageNumber
           (pre ++ PageOf fiveImages :: PageOf (pageCopy demoId fiveImages) :: post)
    /\ length (assets (pageCopy demoId fiveImages)) = length (assets fiveImages)
    /\ (forall (i : nat) (x : Asset),
          assets fiveImages !! i = Some x ->
          assets (pageCopy demoId fiveImages) !! i
          = Some (assignAsset x (A_id (demoId (S i)))))
    /\ currentPageIndex s' = Z.of_nat (length pre) + 1.
Proof.
  intros a.
  apply (duplicatePage_copies_behind_the_original (storeOf a) a "p2" demoId 1 fiveImages);
    reflexivity.
Defined.

(* --------------------------------------------------------------------- *)
(** ** The covers stay where they are *)
(* --------------------------------------------------------------------- *)

Section Covers.

Lemma lookup_is_nth_error {A : Type} (l : list A) (i : nat) : l !! i = nth_error l i.
Proof. symmetry. apply nth_error_is_lookup. Qed.

(** Take the element at [k] out and put it (or anything) back at [j], both
    away from the two ends: the two ends are as they were. *)
Lemma reinsert_keeps_ends {A : Type} (l : list A) (x : A) (k j : nat) :
  (1 <= k)%nat -> (S k < length l)%nat -> (1 <= j)%nat -> (S j < length l)%nat ->
  let rest := firstn k l ++ skipn (k + 1) l in
  let r := firstn j rest ++ [x] ++ skipn (j + 0) rest in
  r !! 0%nat = l !! 0%nat
  /\ r !! pred (length l) = l !! pred (length l)
  /\ length r = length l.
Proof.
  intros Hk1 Hk2 Hj1 Hj2 rest r.
  assert (Hrest : length rest = pred (length l)).
  { subst rest. rewrite length_app, length_firstn, length_skipn. lia. }
  assert (Hlen : length r = length l).
  { subst r. rewrite !length_app, length_firstn, length_skipn, Hrest. cbn [length]. lia. }
  split; [|split; [|exact Hlen]].
  - subst r. rewrite lookup_app_l by (rewrite length_firstn, Hrest; lia).
    rewrite lookup_take_lt by lia.
    subst rest. rewrite lookup_app_l by (rewrite length_firstn; lia).
    now rewrite lookup_take_lt by lia.
  - subst r. rewrite Nat.add_0_r.
    rewrite lookup_app_r by (rewrite length_firstn, Hrest; lia).
    rewrite length_firstn, Hrest.
    rewrite lookup_app_r by (cbn [length]; lia). cbn [length].
    rewrite lookup_drop.
    subst rest. rewrite lookup_app_r by (rewrite length_firstn; lia).
    rewrite length_firstn, lookup_drop. f_equal. lia.
Qed.

Lemma length_renumberU (l : list (option PageObj)) : length (renumberU l) = length l.
Proof. apply length_imap. Qed.

Lemma lookup_renumberU_erased (r : list PageObj) (i : nat) :
  erasePageNumber <$> (renumberU (map Some r) !! i) = erasePageNumber <$> (r !! i).
Proof.
  unfold renumberU. rewrite list_lookup_imap.
  rewrite (lookup_is_nth_error (map Some r)), nth_error_map, <- lookup_is_nth_error.
  destruct (r !! i) as [[p|n]|]; reflexivity.
Qed.

(** The clamping of [reorderPages] lands between the covers. *)
Lemma safeToIndex_inner (len toIndex : Z) :
  3 <= len ->
  let safeToIndex := if toIndex <=? 0 then 1 else toIndex in
  let safeToIndex := if safeToIndex >=? len - 1 then len - 2 else safeToIndex in
  0 < safeToIndex < len - 1.
Proof.
  intros Hlen. cbv zeta. rewrite Z.geb_leb.
  destruct (Z.leb_spec toIndex 0).
  - destruct (Z.leb_spec (len - 1) 1); lia.
  - destruct (Z.leb_spec (len - 1) toIndex); lia.
Qed.

(** The page list after an inner page went from [k] to [j]. *)
Lemma move_keeps_ends (ps : list PageObj) (k j : Z) :
  0 < k -> k < Z.of_nat (length ps) - 1 ->
  0 < j -> j < Z.of_nat (length ps) - 1 ->
  let ps' :=
    renumberU
      (snd (splice j 0 [head (fst (splice k 1 [] ps))]
              (map Some (snd (splice k 1 [] ps))))) in
  erasePageNumber <$> head ps' = erasePageNumber <$> head ps
  /\ erasePageNumber <$> last ps' = erasePageNumber <$> last ps
  /\ length ps' = length ps.
Proof.
  intros Hk1 Hk2 Hj1 Hj2 ps'.
  assert (Hks : spliceStart k (length ps) = Z.to_nat k).
  { unfold spliceStart. destruct (k <? 0) eqn:E; [apply Z.ltb_lt in E; lia|lia]. }
  destruct (splice_remove_perm k ps) as [x [Hx _]]; [rewrite Hks; lia|].
  assert (Hrest : snd (splice k 1 [] ps)
                  = firstn (Z.to_nat k) ps ++ skipn (Z.to_nat k + 1) ps).
  { unfold splice. cbn [snd app]. now rewrite Hks. }
  assert (Hrl : length (snd (splice k 1 [] ps)) = pred (length ps)).
  { rewrite Hrest, length_app, length_firstn, length_skipn. lia. }
  assert (Hjs : spliceStart j (length (snd (splice k 1 [] ps))) = Z.to_nat j).
  { unfold spliceStart. rewrite Hrl.
    destruct (j <? 0) eqn:E; [apply Z.ltb_lt in E; lia|lia]. }
  assert (Hps' : ps' = renumberU (map Some
            (firstn (Z.to_nat j) (snd (splice k 1 [] ps)) ++ [x]
             ++ skipn (Z.to_nat j + 0) (snd (splice k 1 [] ps))))).
  { subst ps'. rewrite Hx. cbn [head]. rewrite splice_insert_Some.
    unfold splice at 1. cbn [snd]. now rewrite Hjs. }
  destruct (reinsert_keeps_ends ps x (Z.to_nat k) (Z.to_nat j))
    as (H0 & Hl & Hn); try lia.
  rewrite <- Hrest in H0, Hl, Hn.
  rewrite Hps'. rewrite !head_lookup, !last_lookup.
  rewrite !length_renumberU, !length_map, Hn.
  rewrite !lookup_renumberU_erased, H0, Hl.
  auto.
Qed.

End Covers.

(** X7. A [movePage] call, and a [reorderPages] call whose [fromIndex] is
    the index of a page (from 0 to the page count less one), leave the first
    and the last page of the album (the covers) in place, with everything
    but their page number as it was, and leave the page count unchanged,
    whatever page id, direction or target index is given. *)
Theorem covers_stay_in_place :
  forall (op : PageOp) (s : Store) (a : Album),
    album s = Some a ->
    movesAPage op (pages a) ->
    exists a' : Album,
      album (runPageOp s op) = Some a'
      /\ erasePageNumber <$> head (pages a') = erasePageNumber <$> head (pages a)
      /\ erasePageNumber <$> last (pages a') = erasePageNumber <$> last (pages a)
      /\ length (pages a') = length (pages a).
Proof.
  intros op s a Ha Hop.
  assert (Hsame : exists a' : Album,
             album s = Some a'
             /\ erasePageNumber <$> head (pages a') = erasePageNumber <$> head (pages a)
             /\ erasePageNumber <$> last (pages a') = erasePageNumber <$> last (pages a)
             /\ length (pages a') = length (pages a))
    by (exists a; auto).
  destruct op as [| | | pageId direction now | fromIndex toIndex now];
    cbn [movesAPage] in Hop; try contradiction; cbn [runPageOp].
  - unfold movePage. rewrite Ha.
    destruct (locked a); [exact Hsame|].
    pose proof (findIndex_bounds (hasId pageId) (pages a)) as Hb.
    destruct (findIndex (hasId pageId) (pages a) =? -1) eqn:E1; [exact Hsame|].
    destruct ((findIndex (hasId pageId) (pages a) =? 0)
              || (findIndex (hasId pageId) (pages a) =? Z.of_nat (length (pages a)) - 1))
      eqn:E2; [exact Hsame|].
    match goal with |- context [if ?c then s else _] => destruct c eqn:E3 end;
      [exact Hsame|].
    apply Z.eqb_neq in E1. apply orb_false_iff in E2 as [E2 E2'].
    apply Z.eqb_neq in E2, E2'. apply orb_false_iff in E3 as [E3 E3'].
    apply Z.leb_gt in E3. rewrite Z.geb_leb in E3'. apply Z.leb_gt in E3'.
    destruct (splice (findIndex (hasId pageId) (pages a)) 1 [] (pages a))
      as [moved rest] eqn:Es.
    eexists. cbn [setCurrentPageIndex album]. rewrite album_setAlbumTo.
    split; [reflexivity|]. cbn [pages withPages].
    replace moved with (fst (splice (findIndex (hasId pageId) (pages a)) 1 [] (pages a)))
      by now rewrite Es.
    replace rest with (snd (splice (findIndex (hasId pageId) (pages a)) 1 [] (pages a)))
      by now rewrite Es.
    apply move_keeps_ends; lia.
  - unfold reorderPages. rewrite Ha.
    destruct (locked a); [exact Hsame|].
    match goal with |- context [if ?c then s else _] => destruct c eqn:Eguard end;
      [exact Hsame|].
    apply orb_false_iff in Eguard as [Efirst Elast].
    apply Z.eqb_neq in Efirst, Elast.
    destruct (splice fromIndex 1 [] (pages a)) as [moved rest] eqn:Es.
    eexists. rewrite album_setAlbumTo.
    split; [reflexivity|]. cbn [pages withPages].
    replace moved with (fst (splice fromIndex 1 [] (pages a))) by now rewrite Es.
    replace rest with (snd (splice fromIndex 1 [] (pages a))) by now rewrite Es.
    pose proof (safeToIndex_inner (Z.of_nat (length (pages a))) toIndex) as Hsafe.
    cbv zeta in Hsafe.
    apply move_keeps_ends; lia.
Qed.

Lemma covers_stay_in_place_witness :
  let a := albumOf skeleton DEFAULT_CONFIG in
  exists a' : Album,
    album (runPageOp (storeOf a) (ReorderPages 2 (-7) 1)) = Some a'
    /\ erasePageNumber <$> head (pages a') = erasePageNumber <$> head (pages a)
    /\ erasePageNumber <$> last (pages a') = erasePageNumber <$> last (pages a)
    /\ length (pages a') = length (pages a).
Proof.
  intros a. apply (covers_stay_in_place (ReorderPages 2 (-7) 1) (storeOf a) a).
  - reflexivity.
  - simpl. lia.
Defined.

(** The bound on [fromIndex] is needed: the code lets a negative index
    through, and [splice] counts it from the end, so [reorderPages(-1, 1)]
    takes the back cover and puts it behind the front cover. *)
Example reorderPages_from_minus_one_moves_the_back_cover :
  option_map (fun a => pageIds (pages a))
    (album (reorderPages (-1) 1 1 (storeOf (albumOf skeleton DEFAULT_CONFIG))))
  = Some ["p1"; "p4"; "p2"; "p3"].
Proof. reflexivity. Qed.

(* --------------------------------------------------------------------- *)
(** ** Placing an asset from the library *)
(* --------------------------------------------------------------------- *)

Section Library.

Lemma findPage_onPage (pageId target : string) (f : Page -> Page) (l : list PageObj) :
  (forall p, page_id (f p) = page_id p) ->
  findPage pageId (map (onPage target f) l)
  = option_map (fun p => if String.eqb (page_id p) target then f p else p)
      (findPage pageId l).
Proof.
  intros Hf. induction l as [|[q|n] l IH]; cbn [map onPage findPage]; auto.
  destruct (String.eqb (page_id q) target) eqn:Et; cbn [findPage].
  - rewrite Hf. destruct (String.eqb (page_id q) pageId); [cbn; now rewrite Et | exact IH].
  - destruct (String.eqb (page_id q) pageId); [cbn; now rewrite Et | exact IH].
Qed.

Lemma onPage_absent (target : string) (f : Page -> Page) (l : list PageObj) :
  findPage target l = None -> map (onPage target f) l = l.
Proof.
  induction l as [|[q|n] l IH]; cbn [map onPage findPage]; intros Hn; auto.
  - destruct (String.eqb (page_id q) target); [discriminate|]. now rewrite IH.
  - now rewrite IH.
Qed.

End Library.

(** X8. On an unlocked album [moveFromLibrary] of an asset that is in the
    library takes every asset with that id out of the unplaced media. When a
    page has the given id, that page gets the asset appended at (50, 50),
    otherwise unchanged; when no page has the id, the pages are left as they
    are and the asset is in the album no more. *)
Theorem moveFromLibrary_places_or_drops :
  forall (s : Store) (a : Album) (assetId pageId : string) (now : Z) (asset : Asset),
    album s = Some a ->
    locked a = false ->
    List.find (isAsset assetId) (unplacedMedia a) = Some asset ->
    exists a' : Album,
      album (moveFromLibrary assetId pageId now s) = Some a'
      /\ unplacedMedia a'
         = List.filter (fun x => negb (isAsset assetId x)) (unplacedMedia a)
      /\ existsb (isAsset assetId) (unplacedMedia a') = false
      /\ (findPage pageId (pages a) = None -> pages a' = pages a)
      /\ (forall p : Page,
            findPage pageId (pages a) = Some p ->
            findPage pageId (pages a')
            = Some (assignPage p (P_assets
                      (assets p ++
                       [mkAsset (asset_id asset) (asset_type asset) (url asset)
                          50 50 (width asset) (height asset) (rotation asset)
                          (zIndex asset) (props asset)])))).
Proof.
  intros s a assetId pageId now asset Ha Hl Hfind.
  unfold moveFromLibrary. rewrite Ha, Hl, Hfind. eexists.
  rewrite album_setAlbumTo. split; [reflexivity|].
  cbn [unplacedMedia pages withPages withUnplaced].
  split; [reflexivity|]. split; [apply no_asset_after_filter|]. split.
  - intros Hnone. now apply onPage_absent.
  - intros p Hp. rewrite findPage_onPage by reflexivity. rewrite Hp. cbn [option_map].
    destruct (findPage_In _ _ _ Hp) as [_ ->]. now rewrite String.eqb_refl.
Qed.

Lemma moveFromLibrary_places_or_drops_witness :
  let a := withUnplaced (albumOf skeleton DEFAULT_CONFIG) [imageAsset "m1" 1] 0 in
  exists a' : Album,
    album (moveFromLibrary "m1" "nowhere" 1 (storeOf a)) = Some a'
    /\ unplacedMedia a'
       = List.filter (fun x => negb (isAsset "m1" x)) (unplacedMedia a)
    /\ existsb (isAsset "m1") (unplacedMedia a') = false
    /\ (findPage "nowhere" (pages a) = None -> pages a' = pages a)
    /\ (forall p : Page,
          findPage "nowhere" (pages a) = Some p ->
          findPage "nowhere" (pages a')
          = Some (assignPage p (P_assets
                    (assets p ++
                     [mkAsset (asset_id (imageAsset "m1" 1)) (asset_type (imageAsset "m1" 1))
                        (url (imageAsset "m1" 1)) 50 50 (width (imageAsset "m1" 1))
                        (height (imageAsset "m1" 1)) (rotation (imageAsset "m1" 1))
                        (zIndex (imageAsset "m1" 1)) (props (imageAsset "m1" 1))])))).
Proof.
  intros a.
  apply (moveFromLibrary_places_or_drops (storeOf a) a "m1" "nowhere" 1 (imageAsset "m1" 1));
    reflexivity.
Defined.

(* --------------------------------------------------------------------- *)
(** ** Which pages form a spread *)
(* --------------------------------------------------------------------- *)

(** X9. Whenever [getSpread] returns two pages, they are the pages at an odd
    index j >= 1 and at j + 1, in that order, and the index asked for is one
    of the two. So the page at index 0 is never part of a pair, whatever its
    template. A page with a cover template, and any page while the spread
    view is off, is returned alone. *)
Theorem getSpread_pairs_start_at_odd_indices :
  forall (s : Store) (a : Album) (i : Z),
    album s = Some a ->
    (forall p q : PageObj,
        getSpread s i = [p; q] ->
        exists j : Z,
          0 < j /\ Z.odd j = true /\ (i = j \/ i = j + 1)
          /\ at_ (pages a) j = Some p /\ at_ (pages a) (j + 1) = Some q)
    /\ (forall p : PageObj,
          at_ (pages a) i = Some p ->
          useSpreadView (config a) = false
          \/ hasTemplate "cover-front" p = true
          \/ hasTemplate "cover-back" p = true ->
          getSpread s i = [p]).
Proof.
  intros s a i Ha. unfold getSpread. rewrite Ha. split.
  - intros p q.
    destruct (at_ (pages a) i) as [page|] eqn:Ei; [|discriminate].
    pose proof (at_nonneg _ _ _ Ei) as Hi0.
    destruct (negb (useSpreadView (config a))); [discriminate|].
    destruct (hasTemplate "cover-front" page); [discriminate|].
    destruct (hasTemplate "cover-back" page); [discriminate|].
    destruct (Z.rem i 2 =? 1) eqn:Eodd.
    + destruct (at_ (pages a) (i + 1)) as [nextPage|] eqn:En; [|discriminate].
      destruct (negb (hasTemplate "cover-back" nextPage)); [|discriminate].
      intros [= <- <-]. exists i.
      apply Z.eqb_eq in Eodd. rewrite Z.rem_mod_nonneg in Eodd by lia.
      assert (i <> 0) by (intros ->; discriminate).
      split; [lia|]. split; [rewrite Zodd_mod; now rewrite Eodd|].
      split; [now left|]. split; assumption.
    + destruct (at_ (pages a) (i - 1)) as [prevPage|] eqn:Ep; [|discriminate].
      pose proof (at_nonneg _ _ _ Ep) as Hp0.
      destruct (negb (hasTemplate "cover-front" prevPage)); [|discriminate].
      intros [= <- <-]. exists (i - 1).
      apply Z.eqb_neq in Eodd. rewrite Z.rem_mod_nonneg in Eodd by lia.
      assert (Hmod : i mod 2 = 0) by (pose proof (Z.mod_pos_bound i 2); lia).
      assert (Hpm : (i - 1) mod 2 = 1).
      { clear Eodd. Z.div_mod_to_equations. lia. }
      replace (i - 1 + 1) with i by lia.
      assert (Hi1 : i <> 1) by (intros ->; vm_compute in Hmod; discriminate).
      split; [lia|]. split; [rewrite Zodd_mod; now rewrite Hpm|].
      split; [right; lia|]. split; assumption.
  - intros p Hp Hsolo. rewrite Hp.
    destruct (useSpreadView (config a)); cbn [negb];
      destruct Hsolo as [Hv|[Hf|Hb]]; try discriminate; try reflexivity.
    + now rewrite Hf.
    + rewrite Hb. now destruct (hasTemplate "cover-front" p).
Qed.

Lemma getSpread_pairs_start_at_odd_indices_witness :
  let a := albumOf skeleton DEFAULT_CONFIG in
  let s := storeOf a in
  (forall p q : PageObj,
      getSpread s 2 = [p; q] ->
      exists j : Z,
        0 < j /\ Z.odd j = true /\ (2 = j \/ 2 = j + 1)
        /\ at_ (pages a) j = Some p /\ at_ (pages a) (j + 1) = Some q)
  /\ (forall p : PageObj,
        at_ (pages a) 2 = Some p ->
        useSpreadView (config a) = false
        \/ hasTemplate "cover-front" p = true
        \/ hasTemplate "cover-back" p = true ->
        getSpread s 2 = [p]).
Proof.
  intros a s. apply (getSpread_pairs_start_at_odd_indices s a 2). reflexivity.
Defined.

(* --------------------------------------------------------------------- *)
(** ** Synchronising styles *)
(* --------------------------------------------------------------------- *)

Section StyleSync.

(** Assigning optional properties leaves the required ones alone, sets the
    keys it names and no other. *)
Lemma spread_optional (g : string -> Val) (keys : list string) :
  forall x0 : Asset,
    let x' := spreadAsset x0 (map (fun k => A_opt k (g k)) keys) in
    (asset_id x' = asset_id x0 /\ asset_type x' = asset_type x0 /\ url x' = url x0
     /\ x x' = x x0 /\ y x' = y x0 /\ width x' = width x0 /\ height x' = height x0
     /\ rotation x' = rotation x0 /\ zIndex x' = zIndex x0)
    /\ (forall key, ~ In key keys -> props x' !! key = props x0 !! key)
    /\ (forall key, In key keys -> props x' !! key = Some (g key)).
Proof.
  unfold spreadAsset.
  induction keys as [|k keys IH]; intros x0; cbn [map fold_left].
  - repeat split; auto. intros key [].
  - destruct (IH (assignAsset x0 (A_opt k (g k)))) as (Hreq & Hout & Hin).
    cbn [assignAsset asset_id asset_type url x y width height rotation zIndex props]
      in Hreq, Hout.
    split; [exact Hreq|]. split.
    + intros key Hkey. rewrite Hout by (intros H; apply Hkey; now right).
      apply lookup_insert_ne. intros ->. apply Hkey. now left.
    + intros key [<-|Hkey].
      * destruct (in_dec string_dec k keys) as [Hk|Hk]; [now apply Hin|].
        rewrite Hout by exact Hk. apply lookup_insert_eq.
      * now apply Hin.
Qed.

Lemma targetStyles_keys (src : Asset) :
  targetStyles (Some src) = map (fun k => A_opt k (getProp src k)) syncedKeys.
Proof. reflexivity. Qed.

End StyleSync.

(** X10. When [syncStyles] goes through on an unlocked album, every page is
    still there with its id, template and background, and with as many
    assets in the same order. An asset whose type differs from the source
    asset's (every asset, when no source is given) is unchanged. An asset of
    the source's type keeps its id, type, url, position, size, rotation and
    zIndex and every optional property other than the ten style properties,
    and has each of those ten as the source asset has it. *)
Theorem syncStyles_touches_styles_only :
  forall (s s' : Store) (a : Album) (sourceAsset : option Asset) (now : Z),
    album s = Some a ->
    locked a = false ->
    syncStyles sourceAsset now s = Done s' ->
    exists a' : Album,
      album s' = Some a'
      /\ length (pages a') = length (pages a)
      /\ forall (i : nat) (p : Page),
           pages a !! i = Some (PageOf p) ->
           exists p' : Page,
             pages a' !! i = Some (PageOf p')
             /\ p' = assignPage p (P_assets (assets p'))
             /\ length (assets p') = length (assets p)
             /\ forall (k : nat) (x0 : Asset),
                  assets p !! k = Some x0 ->
                  exists x' : Asset,
                    assets p' !! k = Some x'
                    /\ (sameType sourceAsset x0 = false -> x' = x0)
                    /\ (asset_id x' = asset_id x0 /\ asset_type x' = asset_type x0
                        /\ url x' = url x0 /\ x x' = x x0 /\ y x' = y x0
                        /\ width x' = width x0 /\ height x' = height x0
                        /\ rotation x' = rotation x0 /\ zIndex x' = zIndex x0)
                    /\ (forall key, ~ In key syncedKeys -> getProp x' key = getProp x0 key)
                    /\ (forall src key,
                          sourceAsset = Some src -> sameType sourceAsset x0 = true ->
                          In key syncedKeys -> getProp x' key = getProp src key).
Proof.
  intros s s' a sourceAsset now Ha Hl. unfold syncStyles. rewrite Ha, Hl.
  destruct (mapM (syncPage sourceAsset) (pages a)) as [ps|] eqn:Em; [|discriminate].
  intros [= <-]. eexists. rewrite album_setAlbumTo. split; [reflexivity|].
  cbn [pages withPages]. apply mapM_Some in Em.
  split; [symmetry; now apply (Forall2_length _ _ _ Em)|].
  intros i p Hp.
  destruct (Forall2_lookup_l _ _ _ _ _ Em Hp) as (o & Ho & Hsync).
  cbn [syncPage] in Hsync. injection Hsync as <-.
  eexists. split; [exact Ho|]. cbn [assets assignPage].
  split; [reflexivity|]. split; [apply length_map|].
  intros k x0 Hx0. eexists.
  split.
  { rewrite lookup_is_nth_error, nth_error_map, <- lookup_is_nth_error, Hx0.
    reflexivity. }
  destruct (sameType sourceAsset x0) eqn:Esame.
  - destruct sourceAsset as [src|]; [|discriminate].
    rewrite targetStyles_keys.
    destruct (spread_optional (getProp src) syncedKeys x0) as (Hreq & Hout & Hin).
    split; [discriminate|]. split; [exact Hreq|]. split.
    + intros key Hkey. unfold getProp. now rewrite Hout.
    + intros src' key [= <-] _ Hkey. unfold getProp at 1. now rewrite Hin.
  - split; [reflexivity|]. split; [repeat split|]. split; [reflexivity|].
    intros src key _ Hf. discriminate.
Qed.

Lemma syncStyles_touches_styles_only_witness :
  let a := albumOf [PageOf fiveImages; PageOf oneImage] DEFAULT_CONFIG in
  let src := Some (textAsset "t9") in
  let s' := match syncStyles src 1 (storeOf a) with
            | Done s1 => s1
            | Throws => storeOf a
            end in
    exists a' : Album,
      album s' = Some a'
      /\ length (pages a') = length (pages a)
      /\ forall (i : nat) (p : Page),
           pages a !! i = Some (PageOf p) ->
           exists p' : Page,
             pages a' !! i = Some (PageOf p')
             /\ p' = assignPage p (P_assets (assets p'))
             /\ length (assets p') = length (assets p)
             /\ forall (k : nat) (x0 : Asset),
                  assets p !! k = Some x0 ->
                  exists x' : Asset,
                    assets p' !! k = Some x'
                    /\ (sameType src x0 = false -> x' = x0)
                    /\ (asset_id x' = asset_id x0 /\ asset_type x' = asset_type x0
                        /\ url x' = url x0 /\ x x' = x x0 /\ y x' = y x0
                        /\ width x' = width x0 /\ height x' = height x0
                        /\ rotation x' = rotation x0 /\ zIndex x' = zIndex x0)
                    /\ (forall key, ~ In key syncedKeys -> getProp x' key = getProp x0 key)
                    /\ (forall src0 key,
                          src = Some src0 -> sameType src x0 = true ->
                          In key syncedKeys -> getProp x' key = getProp src0 key).
Proof.
  intros a src s'.
  apply (syncStyles_touches_styles_only (storeOf a) s' a src 1); reflexivity.
Defined.

(* --------------------------------------------------------------------- *)
(** ** Applying a spread layout *)
(* --------------------------------------------------------------------- *)

Section SpreadLayout.

Variables (allMedia : list Asset) (freshId : nat -> string).

(** The loop of a spread page, started after [done] slots of the spread
    have been filled: slot by slot, the media asset of that ordinal in the
    pool, or the next placeholder. *)
Lemma fillSpread_fold (slots : list LayoutConfig) :
  forall (done : nat) (acc : list Asset),
    fold_left (fillSpreadSlot allMedia freshId) slots
      (Nat.min done (length allMedia), (done - length allMedia)%nat, acc)
    = (Nat.min (done + length slots) (length allMedia),
       (done + length slots - length allMedia)%nat,
       acc ++ imap (fun j => slotAsset allMedia freshId (done + j)) slots).
Proof.
  induction slots as [|slot slots IH]; intros done acc.
  - cbn. now rewrite Nat.add_0_r, app_nil_r.
  - cbn [fold_left fillSpreadSlot imap length].
    assert (Himap : imap ((fun j => slotAsset allMedia freshId (done + j)) ∘ S) slots
                    = imap (fun j => slotAsset allMedia freshId (S done + j)) slots).
    { apply imap_ext. intros j sl _. cbn. f_equal. lia. }
    rewrite Himap, Nat.add_0_r.
    replace (done + S (length slots))%nat with (S done + length slots)%nat by lia.
    destruct (Nat.lt_ge_cases done (length allMedia)) as [Hlt|Hge].
    + rewrite Nat.min_l by lia.
      assert (Hhere : slotAsset allMedia freshId done slot
                      = match nth_error allMedia done with
                        | Some m => updateAssetPosition m slot
                        | None => slotAsset allMedia freshId done slot
                        end) by (unfold slotAsset; now destruct (nth_error allMedia done)).
      destruct (nth_error allMedia done) as [m|] eqn:E;
        [|apply nth_error_None in E; lia].
      replace (S done) with (Nat.min (S done) (length allMedia)) at 1 by lia.
      replace (done - length allMedia)%nat with (S done - length allMedia)%nat by lia.
      rewrite IH, <- app_assoc, Hhere. reflexivity.
    + rewrite Nat.min_r by lia.
      assert (Hhere : slotAsset allMedia freshId done slot
                      = updateAssetPosition
                          (createPlaceholder (z_index slot)
                             (freshId (done - length allMedia)%nat)) slot).
      { unfold slotAsset.
        now rewrite (proj2 (nth_error_None allMedia done)) by lia. }
      rewrite (proj2 (nth_error_None allMedia (length allMedia))) by lia.
      replace (length allMedia) with (Nat.min (S done) (length allMedia)) at 1 by lia.
      replace (S (done - length allMedia)) with (S done - length allMedia)%nat by lia.
      rewrite IH, <- app_assoc, Hhere. reflexivity.
Qed.

End SpreadLayout.

(** A slot that went to the right page is placed in that page's own
    coordinates: 100 less than the slot says. *)
Lemma right_slot_is_page_relative (m : Asset) (slot : LayoutConfig) :
  onLeft slot = false ->
  x (updateAssetPosition m (shiftSlot slot))
  = (firstDefined (slot_x slot) (slot_left slot) - 100)%Q.
Proof.
  unfold onLeft, firstDefined. cbn.
  destruct (slot_x slot) as [vx|]; [reflexivity|].
  destruct (slot_left slot) as [vl|]; [reflexivity|].
  discriminate.
Qed.

(** X11. A spread layout applied to a left and a right page gives two
    updates. The slots with x below 100 go to the left page, the others,
    shifted by -100, to the right page; each page keeps its own non-media
    assets in front. The image and video assets of both pages are pooled,
    left page first, and handed out in order, first to the left page's
    slots, then to the right page's; a slot past the end of the pool gets a
    placeholder. So every slot is filled exactly once, and a media asset
    can change sides. *)
Theorem spread_layout_fills_left_then_right :
  forall (layout : AlbumLayout) (leftPage rightPage : Page)
         (targetPageId : option string) (freshId : nat -> string),
    is_spread layout = true ->
    let leftSlots := List.filter onLeft (layout_config layout) in
    let rightSlots :=
      map shiftSlot (List.filter (fun sl => negb (onLeft sl)) (layout_config layout)) in
    let allMedia :=
      List.filter isMedia (assets leftPage) ++ List.filter isMedia (assets rightPage) in
    calculateLayoutApplication layout (Some leftPage) (Some rightPage) targetPageId freshId
    = [mkUpdate (page_id leftPage)
         (List.filter (fun x => negb (isMedia x)) (assets leftPage)
          ++ imap (slotAsset allMedia freshId) leftSlots)
         (layout_name layout);
       mkUpdate (page_id rightPage)
         (List.filter (fun x => negb (isMedia x)) (assets rightPage)
          ++ imap (fun j => slotAsset allMedia freshId (length leftSlots + j)) rightSlots)
         (layout_name layout)]
    /\ (length leftSlots + length rightSlots)%nat = length (layout_config layout).
Proof.
  intros layout leftPage rightPage targetPageId freshId Hspread
         leftSlots rightSlots allMedia.
  split.
  - unfold calculateLayoutApplication. rewrite Hspread.
    fold leftSlots. fold rightSlots. fold allMedia.
    pose proof (fillSpread_fold allMedia freshId leftSlots 0
                  (List.filter (fun x => negb (isMedia x)) (assets leftPage))) as HL.
    rewrite Nat.min_0_l, Nat.sub_0_l in HL. cbn [Nat.add] in HL. rewrite HL.
    rewrite (fillSpread_fold allMedia freshId rightSlots (length leftSlots)).
    reflexivity.
  - subst leftSlots rightSlots. rewrite length_map.
    induction (layout_config layout) as [|sl l IH]; [reflexivity|].
    cbn [List.filter]. destruct (onLeft sl); cbn [negb length]; lia.
Qed.

Lemma spread_layout_fills_left_then_right_witness :
  let layout :=
    mkLayout "spread" true
      [mkSlot (Some 10%Q) None (Some 10%Q) None 80 80 None 1;
       mkSlot (Some 110%Q) None (Some 10%Q) None 80 40 None 1;
       mkSlot None (Some 110%Q) None (Some 50%Q) 80 40 None 2] in
  let leftSlots := List.filter onLeft (layout_config layout) in
  let rightSlots :=
    map shiftSlot (List.filter (fun sl => negb (onLeft sl)) (layout_config layout)) in
  let allMedia :=
    List.filter isMedia (assets oneImage) ++ List.filter isMedia (assets fiveImages) in
  calculateLayoutApplication layout (Some oneImage) (Some fiveImages) None demoId
  = [mkUpdate (page_id oneImage)
       (List.filter (fun x => negb (isMedia x)) (assets oneImage)
        ++ imap (slotAsset allMedia demoId) leftSlots)
       (layout_name layout);
     mkUpdate (page_id fiveImages)
       (List.filter (fun x => negb (isMedia x)) (assets fiveImages)
        ++ imap (fun j => slotAsset allMedia demoId (length leftSlots + j)) rightSlots)
       (layout_name layout)]
  /\ (length leftSlots + length rightSlots)%nat = length (layout_config layout).
Proof.
  intros layout.
  apply (spread_layout_fills_left_then_right layout oneImage fiveImages None demoId).
  reflexivity.
Defined.

(* --------------------------------------------------------------------- *)
(** ** Applying a layout again *)
(* --------------------------------------------------------------------- *)

(** Placing an asset into the slot it is already in changes nothing. *)
Lemma updateAssetPosition_twice (a : Asset) (slot : LayoutConfig) :
  updateAssetPosition (updateAssetPosition a slot) slot = updateAssetPosition a slot.
Proof.
  unfold updateAssetPosition, spreadAsset. cbn. f_equal.
  apply map_eq. intros k.
  rewrite !lookup_insert. repeat case_decide; reflexivity.
Qed.

Lemma isMedia_updateAssetPosition (a : Asset) (slot : LayoutConfig) :
  isMedia (updateAssetPosition a slot) = isMedia a.
Proof. reflexivity. Qed.

Lemma isMedia_slotAsset (media : list Asset) (freshId : nat -> string)
  (i : nat) (slot : LayoutConfig) :
  Forall (fun a => isMedia a = true) media ->
  isMedia (slotAsset media freshId i slot) = true.
Proof.
  intros Hall. unfold slotAsset.
  destruct (nth_error media i) as [m|] eqn:E; [|reflexivity].
  rewrite isMedia_updateAssetPosition.
  rewrite List.Forall_forall in Hall. apply Hall. eapply nth_error_In, E.
Qed.

Lemma filter_all_true {A : Type} (f : A -> bool) (l : list A) :
  Forall (fun a => f a = true) l -> List.filter f l = l.
Proof.
  induction 1 as [|a l Ha _ IH]; [reflexivity|].
  cbn. now rewrite Ha, IH.
Qed.

Lemma filter_all_false {A : Type} (f : A -> bool) (l : list A) :
  Forall (fun a => f a = false) l -> List.filter f l = [].
Proof.
  induction 1 as [|a l Ha _ IH]; [reflexivity|].
  cbn. now rewrite Ha, IH.
Qed.

Lemma Forall_filter_true {A : Type} (f : A -> bool) (l : list A) :
  Forall (fun a => f a = true) (List.filter f l).
Proof.
  apply List.Forall_forall. intros a Ha. now apply filter_In in Ha.
Qed.

Lemma Forall_filter_negb {A : Type} (f : A -> bool) (l : list A) :
  Forall (fun a => f a = false) (List.filter (fun a => negb (f a)) l).
Proof.
  apply List.Forall_forall. intros a Ha. apply filter_In in Ha.
  now apply negb_true_iff.
Qed.

Lemma Forall_imap {A B : Type} (P : B -> Prop) (l : list A) :
  forall f : nat -> A -> B, (forall i a, P (f i a)) -> Forall P (imap f l).
Proof.
  induction l as [|a l IH]; intros f Hf; cbn; constructor.
  - apply Hf.
  - apply IH. intros i b. apply Hf.
Qed.

Lemma Forall_imap_slotAsset (media : list Asset) (freshId : nat -> string)
  (slots : list LayoutConfig) :
  Forall (fun a => isMedia a = true) media ->
  Forall (fun a => isMedia a = true) (imap (slotAsset media freshId) slots).
Proof.
  intros Hall. apply Forall_imap. intros i slot.
  now apply isMedia_slotAsset.
Qed.

(** Filling the slots from the assets that already fill them, one per
    slot, gives those assets back. *)
Lemma imap_slotAsset_again (media : list Asset) (freshId freshId' : nat -> string)
  (slots : list LayoutConfig) :
  imap (slotAsset (imap (slotAsset media freshId) slots) freshId') slots
  = imap (slotAsset media freshId) slots.
Proof.
  apply list_eq. intros i.
  rewrite !list_lookup_imap.
  destruct (slots !! i) as [slot|] eqn:E; [|reflexivity].
  cbn. f_equal.
  rewrite (slotAsset_media _ freshId' i (slotAsset media freshId i slot)).
  - unfold slotAsset.
    destruct (nth_error media i); apply updateAssetPosition_twice.
  - now rewrite list_lookup_imap, E.
Qed.

(** X12. Applying a single-page layout to a page that already carries the
    result of applying it changes nothing: the slots are filled by the
    assets that fill them already, in the same places, and no further
    placeholder is made. *)
Theorem single_page_layout_applied_again :
  forall (layout : AlbumLayout) (page : Page) (freshId freshId' : nat -> string),
    is_spread layout = false ->
    exists u : LayoutUpdate,
      calculateLayoutApplication layout (Some page) None None freshId = [u]
      /\ calculateLayoutApplication layout
           (Some (assignPage page (P_assets (upd_assets u)))) None None freshId'
         = [u].
Proof.
  intros layout page freshId freshId' Hsingle.
  set (media := List.filter isMedia (assets page)).
  set (others := List.filter (fun x => negb (isMedia x)) (assets page)).
  set (placed := imap (slotAsset media freshId) (layout_config layout)).
  assert (Hmedia : Forall (fun a => isMedia a = true) placed).
  { apply Forall_imap_slotAsset, Forall_filter_true. }
  assert (Hothers : Forall (fun a => isMedia a = false) others).
  { apply Forall_filter_negb. }
  exists (mkUpdate (page_id page) (others ++ placed) (layout_name layout)).
  split.
  - unfold calculateLayoutApplication. rewrite Hsingle.
    cbn [targetPage]. fold media. fold others.
    now rewrite (fillSingle_fold media freshId _ 0 0 others eq_refl).
  - unfold calculateLayoutApplication. rewrite Hsingle.
    cbn [targetPage assignPage assets page_id upd_assets].
    rewrite !List.filter_app.
    rewrite (filter_all_false isMedia others Hothers).
    rewrite (filter_all_true isMedia placed Hmedia).
    rewrite (filter_all_true (fun x => negb (isMedia x)) others),
            (filter_all_false (fun x => negb (isMedia x)) placed).
    + rewrite app_nil_r. cbn [app].
      rewrite (fillSingle_fold placed freshId' _ 0 0 others eq_refl).
      cbn [Nat.add]. subst placed. now rewrite imap_slotAsset_again.
    + eapply Forall_impl; [exact Hmedia|]. cbn. intros a ->. reflexivity.
    + eapply Forall_impl; [exact Hothers|]. cbn. intros a ->. reflexivity.
Qed.

Lemma single_page_layout_applied_again_witness :
  exists u : LayoutUpdate,
    calculateLayoutApplication threeSlots (Some oneImage) None None demoId = [u]
    /\ calculateLayoutApplication threeSlots
         (Some (assignPage oneImage (P_assets (upd_assets u)))) None None
         (fun _ => "other")
       = [u].
Proof.
  apply (single_page_layout_applied_again threeSlots oneImage demoId (fun _ => "other")).
  reflexivity.
Defined.

(* --------------------------------------------------------------------- *)
(** ** The vertical position of a snap *)
(* --------------------------------------------------------------------- *)

Section SnapVertical.

Local Open Scope Q_scope.

Lemma onlyVertical_refl (st : Snapped) : onlyVertical st st.
Proof. repeat split. Qed.

Lemma onlyVertical_trans (st1 st2 st3 : Snapped) :
  onlyVertical st1 st2 -> onlyVertical st2 st3 -> onlyVertical st1 st3.
Proof.
  intros (Hy & Hh & He) (Hy' & Hh' & He'). repeat split.
  - now rewrite Hy'.
  - now rewrite Hh'.
  - intros Hnil. specialize (He' Hnil). subst st3. now apply He.
Qed.

Lemma onlyVertical_pushV (nx pos : Q) (st : Snapped) :
  onlyVertical st (pushV nx pos st).
Proof.
  repeat split.
  - unfold horizontalGuides, pushV. cbn [guides].
    rewrite List.filter_app. cbn. now rewrite app_nil_r.
  - unfold pushV. cbn [guides]. intros Hnil.
    now destruct (guides st); discriminate.
Qed.

Lemma onlyVertical_if (b : bool) (nx pos : Q) (st : Snapped) :
  onlyVertical st (if b then pushV nx pos st else st).
Proof. destruct b; [apply onlyVertical_pushV | apply onlyVertical_refl]. Qed.

Lemma onlyVertical_gridStep (w : Q) (st : Snapped) (i : nat) :
  onlyVertical st (gridStep w st i).
Proof.
  unfold gridStep.
  eapply onlyVertical_trans; [|apply onlyVertical_if]. apply onlyVertical_if.
Qed.

Lemma onlyVertical_assetStep (r : Rect) (st : Snapped) (target : Asset) :
  onlyVertical st (assetStep r st target).
Proof.
  unfold assetStep.
  eapply onlyVertical_trans; [|apply onlyVertical_if]. apply onlyVertical_if.
Qed.

Lemma onlyVertical_fold {A : Type} (f : Snapped -> A -> Snapped) (l : list A) :
  (forall st a, onlyVertical st (f st a)) ->
  forall st, onlyVertical st (fold_left f l st).
Proof.
  intros Hf. induction l as [|a l IH]; intros st; cbn [fold_left].
  - apply onlyVertical_refl.
  - eapply onlyVertical_trans; [apply Hf | apply IH].
Qed.

(** X13. The vertical position a snap returns depends on one test only.
    When the centre of the dragged rectangle is less than 1 away from the
    page's middle (50), the result is centred there and the guides hold
    exactly one horizontal guide, at 50; otherwise it is the position rounded
    to a whole percent and no horizontal guide is shown. Neither the column
    grid nor the other assets ever move it. And a snap that shows no guide
    at all returns the rounded position on both axes. *)
Theorem snap_moves_vertically_only_to_the_centre :
  forall (pageAssets : list Asset) (nextPage : bool) (draggingId : string) (r : Rect),
    let res := findSnappingPoints pageAssets nextPage draggingId r in
    (if near (rect_y r + rect_h r / 2) 50
     then snappedY res = 50 - rect_h r / 2 /\ horizontalGuides res = [(H, 50)]
     else snappedY res = round (rect_y r) /\ horizontalGuides res = [])
    /\ (guides res = [] ->
        snappedX res = round (rect_x r) /\ snappedY res = round (rect_y r)).
Proof.
  intros pageAssets nextPage draggingId r res.
  set (st0 := mkSnapped (round (rect_x r)) (round (rect_y r)) []).
  set (st1 := fold_left (gridStep (rect_w r))
                (seq 0 (S (if nextPage then 24 else 12)%nat)) st0).
  set (st2 := if near (rect_x r + rect_w r / 2) 50
              then pushV (50 - rect_w r / 2) 50 st1 else st1).
  set (st3 := if near (rect_y r + rect_h r / 2) 50
              then pushH (50 - rect_h r / 2) 50 st2 else st2).
  assert (H02 : onlyVertical st0 st2).
  { eapply onlyVertical_trans; [|apply onlyVertical_if].
    apply onlyVertical_fold, onlyVertical_gridStep. }
  assert (H3 : onlyVertical st3 res).
  { subst res. unfold findSnappingPoints. fold st0. fold st1. fold st2. fold st3.
    destruct nextPage.
    - eapply onlyVertical_trans; [|apply onlyVertical_if].
      eapply onlyVertical_trans; [|apply onlyVertical_fold, onlyVertical_assetStep].
      eapply onlyVertical_trans; [|apply onlyVertical_if]. apply onlyVertical_if.
    - eapply onlyVertical_trans; [|apply onlyVertical_fold, onlyVertical_assetStep].
      eapply onlyVertical_trans; [|apply onlyVertical_if]. apply onlyVertical_if. }
  destruct H02 as (Hy2 & Hh2 & _). destruct H3 as (Hy3 & Hh3 & He3).
  split.
  - rewrite Hy3, Hh3. subst st3.
    destruct (near (rect_y r + rect_h r / 2) 50).
    + split; [reflexivity|].
      unfold horizontalGuides, pushH. cbn [guides].
      rewrite List.filter_app. fold (horizontalGuides st2). now rewrite Hh2.
    + now rewrite Hy2, Hh2.
  - intros Hnil. specialize (He3 Hnil). rewrite He3. subst st3.
    destruct (near (rect_y r + rect_h r / 2) 50).
    + rewrite He3 in Hnil. unfold pushH in Hnil. cbn [guides] in Hnil.
      now destruct (guides st2); discriminate.
    + rewrite He3 in Hnil.
      assert (H02 : onlyVertical st0 st2).
      { eapply onlyVertical_trans; [|apply onlyVertical_if].
        apply onlyVertical_fold, onlyVertical_gridStep. }
      destruct H02 as (_ & _ & He2). now rewrite (He2 Hnil).
Qed.

Lemma snap_moves_vertically_only_to_the_centre_witness :
  let r := mkRect 20 (497 # 10) 10 1 in
  let res := findSnappingPoints [imageAsset "i1" 1] false "i2" r in
  (if near (rect_y r + rect_h r / 2) 50
   then snappedY res = 50 - rect_h r / 2 /\ horizontalGuides res = [(H, 50)]
   else snappedY res = round (rect_y r) /\ horizontalGuides res = [])
  /\ (guides res = [] ->
      snappedX res = round (rect_x r) /\ snappedY res = round (rect_y r)).
Proof.
  exact (snap_moves_vertically_only_to_the_centre
           [imageAsset "i1" 1] false "i2" (mkRect 20 (497 # 10) 10 1)).
Defined.

End SnapVertical.

(* --------------------------------------------------------------------- *)
(** ** Dragging an asset over the middle of a spread *)
(* --------------------------------------------------------------------- *)

Section DragAndResize.

Local Open Scope Q_scope.

Lemma not_Qle_bool (a b : Q) : b < a -> Qle_bool a b = false.
Proof.
  intros Hlt. destruct (Qle_bool a b) eqn:E; [|reflexivity].
  apply Qle_bool_iff in E. exfalso. now apply (Qlt_not_le _ _ Hlt).
Qed.

(** What a call of [moveAssetToPage] that finds its asset does to the two
    pages. *)
Lemma moveAssetToPage_found (assetId fromPageId toPageId : string) (newX newY : Q)
  (now : Z) (s : Store) (a : Album) (src dst : Page) (stored : Asset) :
  album s = Some a -> locked a = false ->
  findPage fromPageId (pages a) = Some src ->
  List.find (isAsset assetId) (assets src) = Some stored ->
  findPage toPageId (pages a) = Some dst ->
  fromPageId <> toPageId ->
  exists a',
    album (moveAssetToPage assetId fromPageId toPageId newX newY now s) = Some a'
    /\ findPage fromPageId (pages a')
       = Some (assignPage src
                 (P_assets (List.filter (fun x => negb (isAsset assetId x)) (assets src))))
    /\ findPage toPageId (pages a')
       = Some (assignPage dst
                 (P_assets (assets dst ++ [spreadAsset stored [A_x newX; A_y newY]]))).
Proof.
  intros Halbum Hunlocked Hsrc Hstored Hdst Hother.
  destruct (findPage_In _ _ _ Hsrc) as [_ Hsrc_id].
  destruct (findPage_In _ _ _ Hdst) as [_ Hdst_id].
  unfold moveAssetToPage, setAlbum.
  rewrite Halbum, Hunlocked, Hsrc, Hstored. cbn [album pages withPages].
  eexists. split; [reflexivity|]. cbn [pages withPages].
  rewrite !findPage_after_move, Hsrc, Hdst. cbn [option_map]. unfold movedPage.
  rewrite Hsrc_id, Hdst_id, String.eqb_refl.
  apply String.eqb_neq in Hother. rewrite String.eqb_sym in Hother.
  rewrite Hother, String.eqb_refl. split; reflexivity.
Qed.

(** X14. In a spread, an asset of the left page dropped with its left edge
    beyond 100, or an asset of the right page dropped with its left edge
    below 100, changes pages: the source page loses every asset with that
    id, and the asset as the store holds it is appended to the other page.
    There its x is the dropped position as it is (less 100 when coming from
    the left), not the snapped one, while its y is the snapped one. *)
Theorem drag_across_the_fold_moves_the_asset :
  forall (asset : Asset) (pageId : string) (side : Side) (other : Page)
         (snap : Rect -> Snapped) (zoom : Q) (canvas offset : Q * Q) (now : Z)
         (s : Store) (a : Album) (src dst : Page) (stored : Asset),
    album s = Some a -> locked a = false ->
    findPage pageId (pages a) = Some src ->
    List.find (isAsset (asset_id asset)) (assets src) = Some stored ->
    findPage (page_id other) (pages a) = Some dst ->
    pageId <> page_id other ->
    let ax := absoluteX asset side (Some other) zoom (fst canvas) (fst offset) in
    crossesTheFold side ax ->
    let res := snap (draggingRect asset side (Some other) zoom canvas offset) in
    exists a',
      album (dragEnd asset pageId side (Some other) (Some snap) zoom (Some canvas)
               offset now s) = Some a'
      /\ findPage pageId (pages a')
         = Some (assignPage src
                   (P_assets (List.filter (fun x => negb (isAsset (asset_id asset) x))
                                (assets src))))
      /\ findPage (page_id other) (pages a')
         = Some (assignPage dst
                   (P_assets (assets dst
                              ++ [spreadAsset stored
                                    [A_x (xAcrossTheFold side ax); A_y (snappedY res)]]))).
Proof.
  intros asset pageId side other snap zoom canvas offset now s a src dst stored
         Halbum Hunlocked Hsrc Hstored Hdst Hother ax Hcross res.
  unfold dragEnd. fold ax. fold res. cbn [snd].
  destruct side; cbn [crossesTheFold] in Hcross; [| |contradiction].
  - cbn [isLeft isRight andb xAcrossTheFold].
    rewrite (not_Qle_bool ax 100 Hcross). cbn [negb].
    now apply (moveAssetToPage_found _ _ _ _ _ _ s a src dst stored).
  - cbn [isLeft isRight andb xAcrossTheFold].
    rewrite (not_Qle_bool 100 ax Hcross). cbn [negb].
    now apply (moveAssetToPage_found _ _ _ _ _ _ s a src dst stored).
Qed.

Lemma drag_across_the_fold_moves_the_asset_witness :
  let asset := imageAsset "i1" 1 in
  let left := mkPage "p2" 2 "freeform" [asset] "#ffffff" None None None in
  let right := mkPage "p3" 3 "freeform" [] "#ffffff" None None None in
  let a := albumOf [PageOf left; PageOf right] DEFAULT_CONFIG in
  let snap := findSnappingPoints [asset] true "i1" in
  let ax := absoluteX asset side_left (Some right) 1 1000 600 in
  let res := snap (draggingRect asset side_left (Some right) 1 (1000, 500) (600, 0)) in
  exists a',
    album (dragEnd asset "p2" side_left (Some right) (Some snap) 1 (Some (1000, 500))
             (600, 0) 7 (storeOf a)) = Some a'
    /\ findPage "p2" (pages a')
       = Some (assignPage left
                 (P_assets (List.filter (fun x => negb (isAsset (asset_id asset) x))
                              (assets left))))
    /\ findPage (page_id right) (pages a')
       = Some (assignPage right
                 (P_assets (assets right
                            ++ [spreadAsset asset
                                  [A_x (xAcrossTheFold side_left ax); A_y (snappedY res)]]))).
Proof.
  intros asset left right a snap ax res.
  apply (drag_across_the_fold_moves_the_asset asset "p2" side_left right snap 1
           (1000, 500) (600, 0) 7 (storeOf a) a left right asset);
    try reflexivity.
  discriminate.
Defined.

(* --------------------------------------------------------------------- *)
(** ** Resizing by the handles *)
(* --------------------------------------------------------------------- *)

Lemma atLeast5_ge (v : Q) : 5 <= atLeast5 v.
Proof.
  unfold atLeast5. destruct (Qle_bool 5 v) eqn:E.
  - now apply Qle_bool_iff.
  - apply Qle_refl.
Qed.

Lemma atLeast5_above (v : Q) : 5 <= v -> atLeast5 v = v.
Proof.
  intros H. unfold atLeast5. apply Qle_bool_iff in H. now rewrite H.
Qed.

Lemma atLeast5_below (v : Q) : v < 5 -> atLeast5 v = 5.
Proof.
  intros H. unfold atLeast5. now rewrite (not_Qle_bool 5 v H).
Qed.

(** X15. A side handle never makes an asset narrower or lower than 5 and
    switches it to the stretch fit. The east and south handles leave the
    position alone. The west and north handles move the near edge with the
    pointer: the far edge stays where it was as long as the new size is at
    least 5, and once the size is held at 5 the far edge is pushed along. *)
Theorem side_handle_keeps_the_far_edge_until_the_minimum :
  forall (handleSide : Edge) (asset : Asset) (side : Side) (rect : Q * Q) (dMx dMy : Q),
    let a' := spreadAsset asset (stretchUpdates handleSide asset side rect dMx dMy) in
    let dX := dPct dMx (match side with side_single => fst rect | _ => fst rect / 2 end) in
    let dY := dPct dMy (snd rect) in
    5 <= width a' /\ 5 <= height a'
    /\ getProp a' "fitMode" = VStr "stretch"
    /\ match handleSide with
       | edge_e =>
           x a' = x asset /\ y a' = y asset
           /\ (5 <= width asset + dX -> width a' = width asset + dX)
       | edge_s =>
           x a' = x asset /\ y a' = y asset
           /\ (5 <= height asset + dY -> height a' = height asset + dY)
       | edge_w =>
           y a' = y asset
           /\ (5 <= width asset - dX -> x a' + width a' == x asset + width asset)
           /\ (width asset - dX < 5 -> x asset + width asset < x a' + width a')
       | edge_n =>
           x a' = x asset
           /\ (5 <= height asset - dY -> y a' + height a' == y asset + height asset)
           /\ (height asset - dY < 5 -> y asset + height asset < y a' + height a')
       end.
Proof.
  intros handleSide asset side rect dMx dMy a' dX dY.
  split; [|split; [|split]].
  - destruct handleSide; apply atLeast5_ge.
  - destruct handleSide; apply atLeast5_ge.
  - subst a'. unfold getProp, stretchUpdates, spreadAsset. cbn.
    rewrite lookup_insert_ne by discriminate. now rewrite lookup_insert_eq.
  - subst a'.
    destruct handleSide; unfold stretchUpdates, spreadAsset;
      cbn [fold_left assignAsset x y width height]; fold dX; fold dY.
    + split; [reflexivity|]. split.
      * intros H. rewrite (atLeast5_above _ H). ring.
      * intros H. rewrite (atLeast5_below _ H). lra.
    + repeat split. intros H. now rewrite (atLeast5_above _ H).
    + repeat split. intros H. now rewrite (atLeast5_above _ H).
    + split; [reflexivity|]. split.
      * intros H. rewrite (atLeast5_above _ H). ring.
      * intros H. rewrite (atLeast5_below _ H). lra.
Qed.

Lemma side_handle_keeps_the_far_edge_until_the_minimum_witness :
  let asset := imageAsset "i1" 1 in
  let a' := spreadAsset asset (stretchUpdates edge_w asset side_single (1000, 500) 380 0) in
  let dX := dPct 380 1000 in
  let dY := dPct 0 500 in
  5 <= width a' /\ 5 <= height a'
  /\ getProp a' "fitMode" = VStr "stretch"
  /\ y a' = y asset
  /\ (5 <= width asset - dX -> x a' + width a' == x asset + width asset)
  /\ (width asset - dX < 5 -> x asset + width asset < x a' + width a').
Proof.
  exact (side_handle_keeps_the_far_edge_until_the_minimum edge_w (imageAsset "i1" 1)
           side_single (1000, 500) 380 0).
Defined.


End DragAndResize.

(* --------------------------------------------------------------------- *)
(** ** Saving and fetching *)
(* --------------------------------------------------------------------- *)

Section Persistence.

Lemma numberOrDefault_0 (q : Q) : (numberOrDefault (Some q) 0 == q)%Q.
Proof.
  unfold numberOrDefault. destruct (Qeq_bool q 0) eqn:E; [|reflexivity].
  apply Qeq_bool_eq in E. now rewrite E.
Qed.

Lemma lookupField_saved (a : Asset) (key : string) (keys : list string) :
  In key keys ->
  lookupField key (map (fun k => (k, getProp a k)) keys) = getProp a key.
Proof.
  induction keys as [|k keys IH]; intros Hin; [contradiction|].
  cbn [map lookupField]. destruct (String.eqb k key) eqn:E.
  - apply String.eqb_eq in E. now subst.
  - apply IH. destruct Hin as [->|Hin]; [|exact Hin].
    now rewrite String.eqb_refl in E.
Qed.

Lemma configEntry_saved (pageId : string) (a : Asset) (key : string) :
  In key savedKeys -> configEntry (assetRow pageId a) key = getProp a key.
Proof.
  intros Hin. unfold configEntry, assetRow. cbn [arow_config cfg_rest].
  now apply lookupField_saved.
Qed.

(** X17. What comes back of an asset that is saved and fetched again. Its
    id, type, url and zIndex are kept, and so are x, y and rotation; a width
    or height of 0 comes back as 200 or 150. Of the optional properties
    only nine come back: filter, filterIntensity, content,
    isRemovingBackground and isStamp as they were, and scale, brightness,
    contrast and saturate with 1 and 100 in place of a missing or zero
    value. Every other optional property, though it was written to the
    row, is undefined afterwards. *)
Theorem saved_asset_comes_back_reduced :
  forall (pageId : string) (a : Asset),
    let a' := fetchAsset (assetRow pageId a) in
    asset_id a' = asset_id a /\ asset_type a' = asset_type a
    /\ url a' = url a /\ zIndex a' = zIndex a
    /\ (x a' == x a)%Q /\ (y a' == y a)%Q /\ (rotation a' == rotation a)%Q
    /\ width a' = (if Qeq_bool (width a) 0 then 200%Q else width a)
    /\ height a' = (if Qeq_bool (height a) 0 then 150%Q else height a)
    /\ (forall key,
          In key ["filter"; "filterIntensity"; "content"; "isRemovingBackground"; "isStamp"] ->
          getProp a' key = getProp a key)
    /\ getProp a' "scale" = vOr (getProp a "scale") (VNum 1)
    /\ (forall key, In key ["brightness"; "contrast"; "saturate"] ->
          getProp a' key = vOr (getProp a key) (VNum 100))
    /\ (forall key, ~ In key fetchedKeys -> getProp a' key = VUndef).
Proof.
  intros pageId a a'. subst a'.
  repeat match goal with |- _ /\ _ => split end; try reflexivity.
  - apply numberOrDefault_0.
  - apply numberOrDefault_0.
  - apply numberOrDefault_0.
  - intros key Hin. unfold getProp at 1. unfold fetchAsset. cbn [props].
    cbn [In] in Hin.
    destruct Hin as [<-|[<-|[<-|[<-|[<-|[]]]]]];
      repeat (rewrite lookup_insert_ne by discriminate);
      rewrite lookup_insert_eq; cbn [default];
      apply configEntry_saved; cbn; tauto.
  - intros key Hin. unfold getProp at 1. unfold fetchAsset. cbn [props].
    cbn [In] in Hin.
    destruct Hin as [<-|[<-|[<-|[]]]];
      repeat (rewrite lookup_insert_ne by discriminate);
      rewrite lookup_insert_eq; cbn [default];
      (rewrite configEntry_saved; [reflexivity | cbn; tauto]).
  - intros key Hnot. unfold getProp, fetchAsset. cbn [props].
    rewrite !lookup_insert_ne by (intros <-; apply Hnot; cbn; tauto).
    now rewrite lookup_empty.
Qed.

Lemma insertRow_perm (r : PageRow * list AssetRow) (l : list (PageRow * list AssetRow)) :
  Permutation (r :: l) (insertRow r l).
Proof.
  induction l as [|h t IH]; [reflexivity|]. cbn [insertRow].
  destruct (prow_page_number (fst h) <=? prow_page_number (fst r)); [|reflexivity].
  rewrite perm_swap. now constructor.
Qed.

Lemma insertRow_sorted (r : PageRow * list AssetRow) (l : list (PageRow * list AssetRow)) :
  StronglySorted byPageNumber l -> StronglySorted byPageNumber (insertRow r l).
Proof.
  induction l as [|h t IH]; intros Hs; cbn [insertRow].
  - repeat constructor.
  - apply StronglySorted_inv in Hs as [Ht Hh].
    destruct (prow_page_number (fst h) <=? prow_page_number (fst r)) eqn:E.
    + apply Z.leb_le in E. constructor; [now apply IH|].
      apply (Permutation_Forall (insertRow_perm r t)). now constructor.
    + apply Z.leb_gt in E. constructor; [now constructor|].
      constructor; [unfold byPageNumber; lia|].
      eapply Forall_impl; [exact Hh|]. unfold byPageNumber. intros e He. lia.
Qed.

Lemma sortRows_fold (l acc : list (PageRow * list AssetRow)) :
  StronglySorted byPageNumber acc ->
  StronglySorted byPageNumber (fold_left (fun acc r => insertRow r acc) l acc)
  /\ Permutation (l ++ acc) (fold_left (fun acc r => insertRow r acc) l acc).
Proof.
  revert acc. induction l as [|r l IH]; intros acc Hs; cbn [fold_left app].
  - split; [exact Hs | reflexivity].
  - destruct (IH (insertRow r acc) (insertRow_sorted r acc Hs)) as [Hsorted Hperm].
    split; [exact Hsorted|].
    rewrite <- Hperm. rewrite <- (insertRow_perm r acc).
    apply Permutation_middle.
Qed.

Lemma fetched_numbers (l : list (PageRow * list AssetRow)) :
  forall k : nat,
    map obj_pageNumber (imap (fun i r => PageOf (fetchedPage (k + i) r)) l)
    = map (fun i => Z.of_nat i + 1) (seq k (length l)).
Proof.
  induction l as [|r l IH]; intros k; [reflexivity|].
  cbn [imap map length seq obj_pageNumber fetchedPage pageNumber].
  rewrite Nat.add_0_r. f_equal. rewrite <- (IH (S k)). f_equal.
  apply imap_ext. intros i y _. cbn. do 2 f_equal. lia.
Qed.

Lemma fetched_rows (l : list (PageRow * list AssetRow)) :
  forall k : nat,
    Forall2 pageOfRow l (imap (fun i r => PageOf (fetchedPage (k + i) r)) l).
Proof.
  induction l as [|r l IH]; intros k; cbn [imap]; constructor.
  - eexists. repeat split.
  - rewrite (imap_ext _ (fun i r => PageOf (fetchedPage (S k + i) r))).
    + apply IH.
    + intros i y _. cbn. do 2 f_equal. lia.
Qed.

(** X18. The pages of a fetched album are the page rows in ascending order
    of their stored page number, each with the row's id, template,
    background and assets, and they are numbered 1, 2, ... whatever numbers
    the rows carry. Without any page row the album gets four blank pages: a
    front cover, two freeform pages and a back cover. *)
Theorem fetched_pages_are_sorted_and_renumbered :
  forall (pagesData : list (PageRow * list AssetRow)) (id1 id2 id3 id4 : string),
    let ps := fetchPages pagesData id1 id2 id3 id4 in
    numbered ps
    /\ (pagesData = [] ->
        ps = [blankPage id1 1 "cover-front"; blankPage id2 2 "freeform";
              blankPage id3 3 "freeform"; blankPage id4 4 "cover-back"])
    /\ (pagesData <> [] ->
        Permutation pagesData (sortRows pagesData)
        /\ StronglySorted byPageNumber (sortRows pagesData)
        /\ Forall2 pageOfRow (sortRows pagesData) ps).
Proof.
  intros pagesData id1 id2 id3 id4 ps.
  destruct (sortRows_fold pagesData [] (SSorted_nil _)) as [Hsorted Hperm].
  rewrite app_nil_r in Hperm. fold (sortRows pagesData) in Hsorted, Hperm.
  split; [|split].
  - subst ps. unfold fetchPages. rewrite length_imap.
    destruct (length (sortRows pagesData) =? 0)%nat; [reflexivity|].
    unfold numbered. rewrite length_imap. apply (fetched_numbers _ 0).
  - intros ->. reflexivity.
  - intros Hne. split; [exact Hperm|]. split; [exact Hsorted|].
    subst ps. unfold fetchPages. rewrite length_imap.
    destruct (length (sortRows pagesData) =? 0)%nat eqn:E.
    + apply Nat.eqb_eq in E. apply Permutation_length in Hperm.
      rewrite E in Hperm. destruct pagesData; [contradiction | discriminate].
    + apply (fetched_rows _ 0).
Qed.

Lemma fetched_pages_are_sorted_and_renumbered_witness :
  let pagesData :=
    [(mkPageRow "b" "album" 10003 "freeform" "#ffffff", []);
     (mkPageRow "a" "album" 1 "cover-front" "#ffffff",
      [assetRow "a" (imageAsset "i1" 1)])] in
  let ps := fetchPages pagesData "g1" "g2" "g3" "g4" in
  numbered ps
  /\ (pagesData = [] ->
      ps = [blankPage "g1" 1 "cover-front"; blankPage "g2" 2 "freeform";
            blankPage "g3" 3 "freeform"; blankPage "g4" 4 "cover-back"])
  /\ (pagesData <> [] ->
      Permutation pagesData (sortRows pagesData)
      /\ StronglySorted byPageNumber (sortRows pagesData)
      /\ Forall2 pageOfRow (sortRows pagesData) ps).
Proof.
  intros pagesData.
  exact (fetched_pages_are_sorted_and_renumbered pagesData "g1" "g2" "g3" "g4").
Defined.

Lemma payloads_is_Some (a : Album) : is_Some (payloads a) <-> allRealPages (pages a).
Proof.
  unfold payloads, allRealPages.
  change (Forall (fun o => is_Some (realPage o)) (pages a))
    with (Forall (is_Some ∘ realPage) (pages a)).
  rewrite <- mapM_is_Some.
  destruct (mapM realPage (pages a)); cbn; split; intros [v Hv]; eauto; discriminate.
Qed.

Lemma splice_past_the_end {A : Type} (start : Z) (l : list A) :
  Z.of_nat (length l) <= start -> splice start 1 [] l = ([], l).
Proof.
  intros Hge. unfold splice, spliceStart.
  destruct (start <? 0) eqn:E; [apply Z.ltb_lt in E; lia|].
  rewrite Nat.min_r by lia.
  rewrite skipn_all, firstn_all, skipn_all2 by lia. cbn [firstn app].
  now rewrite app_nil_r.
Qed.

(** X19. After a reorderPages call on an unlocked album whose fromIndex lies
    past the last page, the album holds an element that is no page, and it
    can no longer be saved: building the asset rows raises. One undo brings
    back the album as it was, which can be saved. *)
Theorem reorder_past_the_end_blocks_saving :
  forall (fromIndex toIndex now : Z) (s : Store) (a : Album),
    album s = Some a -> locked a = false ->
    allRealPages (pages a) ->
    0 < fromIndex -> Z.of_nat (length (pages a)) <= fromIndex ->
    let s' := reorderPages fromIndex toIndex now s in
    (exists a', album s' = Some a' /\ payloads a' = None)
    /\ album (undo s') = Some a /\ is_Some (payloads a).
Proof.
  intros fromIndex toIndex now s a Halbum Hunlocked Hreal Hpos Hpast s'.
  assert (Hs' : exists e, s' = setAlbumTo e s /\ ~ allRealPages (pages e)).
  { subst s'. unfold reorderPages. rewrite Halbum, Hunlocked.
    destruct (fromIndex =? 0) eqn:E0; [apply Z.eqb_eq in E0; lia|].
    destruct (fromIndex =? Z.of_nat (length (pages a)) - 1) eqn:E1;
      [apply Z.eqb_eq in E1; lia|].
    cbn [orb]. rewrite (splice_past_the_end fromIndex (pages a) Hpast).
    cbn [head]. eexists. split; [reflexivity|].
    cbn [pages withPages]. unfold splice. cbn [snd].
    intros Hall. unfold allRealPages in Hall.
    rewrite Forall_lookup in Hall.
    set (k := spliceStart _ _) in Hall.
    assert (Hk : (k <= length (map Some (pages a)))%nat).
    { subst k. unfold spliceStart.
      destruct (_ <? 0) eqn:E; [|apply Nat.le_min_r].
      apply Z.ltb_lt in E. lia. }
    specialize (Hall k (Bare (Z.of_nat k + 1))).
    destruct Hall as [v Hv]; [|discriminate].
    unfold renumberU. rewrite list_lookup_imap.
    rewrite lookup_app_r; rewrite length_firstn, Nat.min_l by exact Hk; [|lia].
    now rewrite Nat.sub_diag. }
  destruct Hs' as (e & -> & Hbad).
  split; [|split].
  - exists e. split; [apply album_setAlbumTo|].
    destruct (payloads e) eqn:E; [|reflexivity].
    exfalso. apply Hbad, payloads_is_Some. eauto.
  - now rewrite (undo_setAlbumTo e a s Halbum).
  - now apply payloads_is_Some.
Qed.

Lemma reorder_past_the_end_blocks_saving_witness :
  let a := albumOf skeleton DEFAULT_CONFIG in
  let s' := reorderPages 9 1 5 (storeOf a) in
  (exists a', album s' = Some a' /\ payloads a' = None)
  /\ album (undo s') = Some a /\ is_Some (payloads a).
Proof.
  intros a.
  apply (reorder_past_the_end_blocks_saving 9 1 5 (storeOf a) a).
  - reflexivity.
  - reflexivity.
  - unfold allRealPages. repeat constructor; cbn; eauto.
  - reflexivity.
  - cbn. lia.
Defined.

End Persistence.

(* --------------------------------------------------------------------- *)
(** ** Adding and removing an asset *)
(* --------------------------------------------------------------------- *)

Section AssetRoundTrip.

Lemma assignPage_own_assets (p : Page) : assignPage p (P_assets (assets p)) = p.
Proof. now destruct p. Qed.

Lemma filter_keeps_the_others (assetId : string) (l : list Asset) :
  existsb (isAsset assetId) l = false ->
  List.filter (fun x => negb (isAsset assetId x)) l = l.
Proof.
  induction l as [|b l IH]; [reflexivity|]. cbn [existsb List.filter].
  intros H. apply orb_false_iff in H as [Hb Hl].
  rewrite Hb. cbn [negb]. now rewrite IH.
Qed.

Lemma add_then_filter (p : Page) (newAsset : Asset) (newId : string) :
  asset_id newAsset = newId ->
  existsb (isAsset newId) (assets p) = false ->
  assignPage (assignPage p (P_assets (assets p ++ [newAsset])))
    (P_assets
       (List.filter (fun x => negb (isAsset newId x))
          (assets (assignPage p (P_assets (assets p ++ [newAsset])))))) = p.
Proof.
  intros Hid Hfresh. destruct p as [pid n t l c o i nm].
  cbn [assignPage assets page_id pageNumber layoutTemplate backgroundColor
       backgroundOpacity backgroundImage page_name] in *.
  rewrite List.filter_app, (filter_keeps_the_others newId l Hfresh).
  cbn [List.filter]. unfold isAsset at 1. rewrite Hid, String.eqb_refl.
  cbn [negb]. now rewrite app_nil_r.
Qed.

(** X20. On an unlocked album, adding an asset to a page and then removing
    the asset with the id it was given leaves every page as it was, provided
    no asset of the album had that id before; nothing is selected
    afterwards, and the album differs from the first one in updatedAt
    only. *)
Theorem addAsset_then_removeAsset_restores_the_pages :
  forall (pageId : string) (asset : Asset) (newId : string) (now now' : Z)
         (s : Store) (a : Album),
    album s = Some a -> locked a = false ->
    (forall o, In o (pages a) -> holds newId o = false) ->
    let s2 := removeAsset pageId newId now' (addAsset pageId asset newId now s) in
    album s2 = Some (withPages a (pages a) now')
    /\ selectedAssetId s2 = None.
Proof.
  intros pageId asset newId now now' s a Halbum Hunlocked Hfresh s2.
  subst s2. unfold addAsset. rewrite Halbum, Hunlocked.
  unfold removeAsset. cbn [album setSelectedAssetId selectedAssetId].
  rewrite album_setAlbumTo.
  assert (Hl : forall ps t, locked (withPages a ps t) = false) by (intros; exact Hunlocked).
  rewrite Hl. cbn [asset_id assignAsset]. rewrite String.eqb_refl.
  cbn [album setSelectedAssetId selectedAssetId]. rewrite album_setAlbumTo.
  split; [|reflexivity]. f_equal.
  cbn [pages withPages]. rewrite map_map.
  assert (Hpages :
    map (fun o => onPage pageId
           (fun p => assignPage p
              (P_assets (List.filter (fun x => negb (isAsset newId x)) (assets p))))
           (onPage pageId
              (fun p => assignPage p
                 (P_assets (assets p ++ [assignAsset asset (A_id newId)]))) o))
      (pages a) = pages a).
  { rewrite <- (map_id (pages a)) at 2. apply map_ext_in. intros [p|n] Hin; [|reflexivity].
    cbn [onPage]. destruct (String.eqb (page_id p) pageId) eqn:E; cbn [onPage].
    - change (page_id (assignPage p
                (P_assets (assets p ++ [assignAsset asset (A_id newId)]))))
        with (page_id p).
      rewrite E. f_equal. apply add_then_filter; [reflexivity|].
      exact (Hfresh _ Hin).
    - now rewrite E. }
  refine (eq_trans _ (f_equal (fun ps => withPages a ps now') Hpages)).
  reflexivity.
Qed.

Lemma addAsset_then_removeAsset_restores_the_pages_witness :
  let a := albumOf [PageOf fiveImages; PageOf oneImage] DEFAULT_CONFIG in
  let s2 :=
    removeAsset "p3" "new" 8 (addAsset "p3" (imageAsset "" 9) "new" 7 (storeOf a)) in
  album s2 = Some (withPages a (pages a) 8) /\ selectedAssetId s2 = None.
Proof.
  intros a.
  apply (addAsset_then_removeAsset_restores_the_pages "p3" (imageAsset "" 9) "new" 7 8
           (storeOf a) a).
  - reflexivity.
  - reflexivity.
  - intros o [<-|[<-|[]]]; reflexivity.
Defined.

End AssetRoundTrip.

(* --------------------------------------------------------------------- *)
(** ** What the normalizer makes of the unified columns *)
(* --------------------------------------------------------------------- *)

Section NormalizerGroups.

Variables (JSON_parse : Val -> option Val) (Number_ : Val -> Val)
          (String_ : Val -> string) (generateId : nat -> string).

Lemma safeParse_array (items fallback : Val) :
  isArray items = true -> safeParse JSON_parse items fallback = items.
Proof. destruct items; try discriminate. reflexivity. Qed.

Lemma safeParse_falsy (data fallback : Val) :
  truthy data = false -> safeParse JSON_parse data fallback = fallback.
Proof. intros H. unfold safeParse. now rewrite H. Qed.

Lemma safeParse_unparsable (s : string) (fallback : Val) :
  s <> "" -> s <> "null" -> s <> "undefined" ->
  JSON_parse (VStr s) = None ->
  safeParse JSON_parse (VStr s) fallback = fallback.
Proof.
  intros H0 H1 H2 Hparse. unfold safeParse. cbn [truthy isArray isStr orb].
  apply String.eqb_neq in H0, H1, H2. rewrite H0, H1, H2. cbn [negb orb].
  now rewrite Hparse.
Qed.

(** What [safeParse(p.text_layers || [])] is for a column that holds the
    items [l]. *)
Lemma text_layers_parsed (v : Val) (l : list Val) :
  columnHolds v l ->
  safeParse JSON_parse (vOr v (VArr [])) (VArr []) = VArr l.
Proof.
  intros [[Hfalsy ->] | ->].
  - unfold vOr. rewrite Hfalsy. now apply safeParse_array.
  - now apply safeParse_array.
Qed.

(** What [safeParse(column, null)] is for a layout column without items. *)
Lemma empty_column_parsed (v : Val) :
  emptyColumn v ->
  safeParse JSON_parse v VNull = VNull \/ safeParse JSON_parse v VNull = VArr [].
Proof.
  intros [[Hfalsy _] | ->].
  - left. now apply safeParse_falsy.
  - right. now apply safeParse_array.
Qed.

Lemma count_listed_twice (t r ty : Val -> bool) (items : list Val) :
  (length (List.filter (fun i => t i && negb (r i)) items)
   + length (List.filter (fun i => t i && (r i || ty i)) items)
   = length (List.filter t items)
     + length (List.filter (fun i => t i && negb (r i) && ty i) items))%nat.
Proof.
  induction items as [|i items IH]; [reflexivity|]. cbn [List.filter].
  destruct (t i), (r i), (ty i); cbn [andb orb negb length]; lia.
Qed.

(** X21. For a row whose layout_config column is a non-empty array, and
    whose text_layers column is an array (possibly empty) or holds nothing,
    the normalizer returns a page without assets. Of the items of both
    columns, in that order, its layout boxes are made of those that are not
    null-like and whose role is not 'text', and its text layers of those
    whose role or type is 'text'. So an item of type 'text' that does not
    have the role 'text' is the source of a box and of a text layer: it is
    listed twice. *)
Theorem text_items_without_the_text_role_are_listed_twice :
  forall (p : list (string * Val)) (items texts : list Val),
    lookupField "layout_config" p = VArr items -> items <> [] ->
    columnHolds (lookupField "text_layers" p) texts ->
    let allItems := items ++ texts in
    let boxItems :=
      List.filter (fun i => truthy i && negb (isStr (opt i "role") "text")) allItems in
    let textItems :=
      List.filter
        (fun i => truthy i && (isStr (opt i "role") "text" || isStr (opt i "type") "text"))
        allItems in
    let boxes := imap (toLayoutBox Number_ generateId) boxItems in
    exists fields : list (string * Val),
      normalizePageData JSON_parse Number_ String_ generateId p = Some (VObj fields)
      /\ lookupField "layoutConfig" fields = VArr boxes
      /\ lookupField "textLayers" fields
         = VArr (imap (fun k => toTextLayer Number_ generateId (length boxes + k)) textItems)
      /\ lookupField "assets" fields = VArr []
      /\ (forall item : Val,
            In item allItems -> truthy item = true ->
            isStr (opt item "role") "text" = false ->
            isStr (opt item "type") "text" = true ->
            In item boxItems /\ In item textItems)
      /\ (length boxItems + length textItems
          = length (List.filter truthy allItems)
            + length (List.filter
                        (fun i => truthy i && negb (isStr (opt i "role") "text")
                                  && isStr (opt i "type") "text") allItems))%nat.
Proof.
  intros p items texts Hcfg Hne Htext allItems boxItems textItems boxes.
  unfold normalizePageData. rewrite Hcfg.
  rewrite (safeParse_array (VArr items) VNull eq_refl).
  rewrite (text_layers_parsed _ texts Htext).
  destruct items as [|i0 items]; [contradiction|].
  cbn [isNonEmptyArray isArray andb orb iterate mbind option_bind length Nat.eqb].
  fold allItems. fold boxItems. fold textItems. fold boxes.
  eexists. split; [reflexivity|].
  split; [reflexivity|]. split; [reflexivity|]. split; [reflexivity|].
  split.
  - intros item Hin Htruthy Hrole Htype.
    split; apply filter_In; (split; [exact Hin|]);
      rewrite Htruthy, Hrole, ?Htype; reflexivity.
  - apply (count_listed_twice truthy (fun i => isStr (opt i "role") "text")
             (fun i => isStr (opt i "type") "text")).
Qed.

Lemma assetToBox_Some (a : Val) :
  hasMembers a ->
  assetToBox a
  = Some (VObj
      [("id", opt a "id");
       ("role", VStr "freeform");
       ("left", vOr (opt a "x") (VNum 0));
       ("top", vOr (opt a "y") (VNum 0));
       ("width", vOr (opt a "width") (VNum 30));
       ("height", vOr (opt a "height") (VNum 30));
       ("zIndex", vOr (opt a "z_index") (VNum 10));
       ("content", VObj
          [("type", vOr (opt a "asset_type") (vOr (opt a "type") (VStr "image")));
           ("url", opt a "url");
           ("config", vOr (opt a "config") (VObj []))])]).
Proof. destruct a; intros H; try contradiction; reflexivity. Qed.

Lemma vNullish_vOr (a d b : Val) :
  truthy d = true -> vNullish (vOr a d) b = vOr a d.
Proof.
  intros Hd. unfold vOr. destruct (truthy a) eqn:E.
  - destruct a; try discriminate; reflexivity.
  - destruct d; try discriminate; reflexivity.
Qed.

Lemma vNullish_vOr_0 (a b : Val) : vNullish (vOr a (VNum 0)) b = vOr a (VNum 0).
Proof.
  unfold vOr. destruct (truthy a) eqn:E; [|reflexivity].
  destruct a; try discriminate; reflexivity.
Qed.

Lemma vOr_truthy (a b : Val) : truthy a = true -> vOr a b = a.
Proof. intros H. unfold vOr. now rewrite H. Qed.

Lemma truthy_vOr (a d : Val) : truthy d = true -> truthy (vOr a d) = true.
Proof. intros Hd. unfold vOr. destruct (truthy a) eqn:E; assumption. Qed.

(** The box the unified path makes of the box [assetToBox] made of a
    row. *)
Lemma box_of_asset_row (k : nat) (row b : Val) :
  hasMembers row -> assetToBox row = Some b ->
  truthy b = true
  /\ isStr (opt b "role") "text" = false
  /\ isStr (opt b "type") "text" = false
  /\ boxOfAssetRow Number_ row (toLayoutBox Number_ generateId k b).
Proof.
  intros Hrow Hb. rewrite (assetToBox_Some row Hrow) in Hb. injection Hb as <-.
  set (vid := opt row "id"). set (vx := opt row "x"). set (vy := opt row "y").
  set (vw := opt row "width"). set (vh := opt row "height").
  set (vz := opt row "z_index"). set (vt := opt row "asset_type").
  set (vt' := opt row "type"). set (vu := opt row "url").
  set (vc := opt row "config").
  split; [reflexivity|]. split; [reflexivity|]. split; [reflexivity|].
  unfold boxOfAssetRow, toLayoutBox, opt.
  repeat (progress (cbn [getMember lookupField String.eqb Ascii.eqb Bool.eqb
                         default from_option]; unfold id)).
  fold (opt row "id") (opt row "x") (opt row "y") (opt row "width")
       (opt row "height") (opt row "z_index") (opt row "asset_type")
       (opt row "type") (opt row "url").
  fold vid vx vy vw vh vz vt vt' vu.
  repeat split.
  - intros Hid. now apply vOr_truthy.
  - now rewrite vNullish_vOr_0.
  - now rewrite vNullish_vOr_0.
  - now rewrite vNullish_vOr by reflexivity.
  - now rewrite vNullish_vOr by reflexivity.
  - now rewrite vNullish_vOr by reflexivity.
  - apply vOr_truthy. apply truthy_vOr. now apply truthy_vOr.
Qed.

Lemma boxes_of_assets (rows : list Val) :
  Forall hasMembers rows ->
  exists bs,
    mapM assetToBox rows = Some bs
    /\ Forall (fun b => truthy b = true
                        /\ isStr (opt b "role") "text" = false
                        /\ isStr (opt b "type") "text" = false) bs
    /\ forall k0 : nat,
         Forall2 (boxOfAssetRow Number_) rows
           (imap (fun k => toLayoutBox Number_ generateId (k0 + k)) bs).
Proof.
  induction 1 as [|row rows Hrow _ (bs & Hbs & Hall & Hboxes)].
  - exists []. repeat split; constructor.
  - destruct (assetToBox row) as [b|] eqn:Eb;
      [|rewrite (assetToBox_Some row Hrow) in Eb; discriminate].
    exists (b :: bs). split; [|split].
    + cbn [mapM]. rewrite Eb, Hbs. reflexivity.
    + constructor; [|exact Hall].
      destruct (box_of_asset_row 0 row b Hrow Eb) as (Ht & Hr & Hty & _). auto.
    + intros k0. cbn [imap]. constructor.
      * now destruct (box_of_asset_row (k0 + 0) row b Hrow Eb) as (_ & _ & _ & Hbox).
      * rewrite (imap_ext _ (fun k => toLayoutBox Number_ generateId (S k0 + k))).
        -- apply Hboxes.
        -- intros i y _. cbn. f_equal. lia.
Qed.

(** X22. A row whose layout_config column is a string that does not parse,
    and whose layout_json, content and text_layers columns hold no item (an
    empty array, or nothing), is still taken for the unified schema. Its
    asset rows are not lost: the page's layout boxes are made of them, one
    box per row and in the rows' order, each a 'freeform' box with the row's
    id, geometry, type and url; the page has no text layers and no
    assets. *)
Theorem unparsable_layout_turns_assets_into_boxes :
  forall (p : list (string * Val)) (s : string) (rows : list Val),
    lookupField "layout_config" p = VStr s ->
    s <> "" -> s <> "null" -> s <> "undefined" ->
    JSON_parse (VStr s) = None ->
    emptyColumn (lookupField "layout_json" p) ->
    emptyColumn (lookupField "content" p) ->
    emptyColumn (lookupField "text_layers" p) ->
    lookupField "assets" p = VArr rows -> Forall hasMembers rows ->
    exists (fields : list (string * Val)) (boxes : list Val),
      normalizePageData JSON_parse Number_ String_ generateId p = Some (VObj fields)
      /\ lookupField "layoutConfig" fields = VArr boxes
      /\ Forall2 (boxOfAssetRow Number_) rows boxes
      /\ lookupField "textLayers" fields = VArr []
      /\ lookupField "assets" fields = VArr [].
Proof.
  intros p s rows Hcfg H0 H1 H2 Hparse Hjson Hcontent Htext Hassets Hrows.
  destruct (boxes_of_assets rows Hrows) as (bs & Hbs & Hall & Hboxes).
  assert (Hpass :
    List.filter (fun item => truthy item && negb (isStr (opt item "role") "text")) bs = bs).
  { apply filter_all_true. eapply Forall_impl; [exact Hall|].
    cbn. intros b (-> & -> & _). reflexivity. }
  assert (Hnone :
    List.filter (fun item => truthy item
                             && (isStr (opt item "role") "text"
                                 || isStr (opt item "type") "text")) bs = []).
  { apply filter_all_false. eapply Forall_impl; [exact Hall|].
    cbn. intros b (-> & -> & ->). reflexivity. }
  assert (Hs : truthy (VStr s) = true).
  { cbn. apply String.eqb_neq in H0. now rewrite H0. }
  unfold normalizePageData. rewrite Hcfg, Hassets.
  rewrite (safeParse_unparsable s VNull H0 H1 H2 Hparse).
  rewrite (text_layers_parsed _ [] Htext). rewrite Hs.
  assert (Hlayout :
    forall j c, (j = VNull \/ j = VArr []) -> (c = VNull \/ c = VArr []) ->
      (if isNonEmptyArray VNull then VNull
       else if isNonEmptyArray j then j
       else if isNonEmptyArray c then c
       else vOr VNull (vOr j (vOr c (VArr [])))) = VArr []).
  { intros j c [-> | ->] [-> | ->]; reflexivity. }
  rewrite (Hlayout _ _ (empty_column_parsed _ Hjson) (empty_column_parsed _ Hcontent)).
  clear Hlayout.
  cbn [isNonEmptyArray isArray truthy andb orb iterate mbind option_bind length
       Nat.eqb].
  destruct rows as [|r rows].
  - cbn in Hbs. injection Hbs as <-.
    cbn. eexists _, _. repeat split; constructor.
  - assert (Hpos : positive Number_ (opt (VArr (r :: rows)) "length") = true)
      by reflexivity.
    rewrite Hpos. cbn [andb callMap]. rewrite Hbs.
    cbn [mbind option_bind]. rewrite app_nil_r, Hpass, Hnone.
    eexists _, _. split; [reflexivity|]. split; [reflexivity|].
    split; [apply (Hboxes 0%nat)|]. split; reflexivity.
Qed.

End NormalizerGroups.

Lemma text_items_without_the_text_role_are_listed_twice_witness :
  let p := [("layout_config", VArr [VObj [("type", VStr "text")]]);
            ("text_layers", VArr [])] in
  let allItems := [VObj [("type", VStr "text")]] ++ [] in
  let boxItems :=
    List.filter (fun i => truthy i && negb (isStr (opt i "role") "text")) allItems in
  let textItems :=
    List.filter
      (fun i => truthy i && (isStr (opt i "role") "text" || isStr (opt i "type") "text"))
      allItems in
  let boxes := imap (toLayoutBox (fun v => v) (fun _ => "g")) boxItems in
  exists fields : list (string * Val),
    normalizePageData (fun _ => None) (fun v => v) (fun _ => "") (fun _ => "g") p
    = Some (VObj fields)
    /\ lookupField "layoutConfig" fields = VArr boxes
    /\ lookupField "textLayers" fields
       = VArr (imap (fun k => toTextLayer (fun v => v) (fun _ => "g") (length boxes + k))
                 textItems)
    /\ lookupField "assets" fields = VArr []
    /\ (forall item : Val,
          In item allItems -> truthy item = true ->
          isStr (opt item "role") "text" = false ->
          isStr (opt item "type") "text" = true ->
          In item boxItems /\ In item textItems)
    /\ (length boxItems + length textItems
        = length (List.filter truthy allItems)
          + length (List.filter
                      (fun i => truthy i && negb (isStr (opt i "role") "text")
                                && isStr (opt i "type") "text") allItems))%nat.
Proof.
  intros p.
  apply (text_items_without_the_text_role_are_listed_twice
           (fun _ => None) (fun v => v) (fun _ => "") (fun _ => "g") p
           [VObj [("type", VStr "text")]] []).
  - reflexivity.
  - discriminate.
  - right. reflexivity.
Defined.

Lemma unparsable_layout_turns_assets_into_boxes_witness :
  let p := [("layout_config", VStr "[{");
            ("layout_json", VArr []);
            ("text_layers", VArr []);
            ("assets", VArr [VObj [("id", VStr "a1"); ("asset_type", VStr "image")]])] in
  exists (fields : list (string * Val)) (boxes : list Val),
    normalizePageData (fun _ => None) (fun v => v) (fun _ => "") (fun _ => "g") p
    = Some (VObj fields)
    /\ lookupField "layoutConfig" fields = VArr boxes
    /\ Forall2 (boxOfAssetRow (fun v => v))
         [VObj [("id", VStr "a1"); ("asset_type", VStr "image")]] boxes
    /\ lookupField "textLayers" fields = VArr []
    /\ lookupField "assets" fields = VArr [].
Proof.
  intros p.
  apply (unparsable_layout_turns_assets_into_boxes
           (fun _ => None) (fun v => v) (fun _ => "") (fun _ => "g") p "[{"
           [VObj [("id", VStr "a1"); ("asset_type", VStr "image")]]).
  - reflexivity.
  - discriminate.
  - discriminate.
  - discriminate.
  - reflexivity.
  - right. reflexivity.
  - left. split; reflexivity.
  - right. reflexivity.
  - reflexivity.
  - repeat constructor.
Defined.

(* --------------------------------------------------------------------- *)
(** ** An upload that ends after the album changed *)
(* --------------------------------------------------------------------- *)

(** X23. uploadMedia looks at the lock once, when it starts, on the album
    of that moment. If that album was unlocked, the uploaded assets are
    appended to the library of whatever album the store holds when the
    upload ends, also when that album has been locked in between: its pages
    and its lock stay as they are, the album before is pushed on the undo
    stack and the redo stack is emptied. *)
Theorem uploadMedia_reaches_a_locked_album :
  forall (captured current : Album) (uploadedAssets : list Asset) (now : Z) (s : Store),
    locked captured = false ->
    album s = Some current ->
    let s' := uploadMedia (Some captured) uploadedAssets now s in
    exists a',
      album s' = Some a'
      /\ unplacedMedia a' = unplacedMedia current ++ uploadedAssets
      /\ pages a' = pages current
      /\ locked a' = locked current
      /\ history s' = sliceLast 19 (history s) ++ [current]
      /\ redoStack s' = [].
Proof.
  intros captured current uploadedAssets now s Hunlocked Halbum s'.
  subst s'. unfold uploadMedia, setAlbum. rewrite Hunlocked, Halbum.
  eexists. repeat split.
Qed.

Lemma uploadMedia_reaches_a_locked_album_witness :
  let captured := albumOf skeleton DEFAULT_CONFIG in
  let current := albumOf skeleton (assignConfig DEFAULT_CONFIG (C_isLocked (Some true))) in
  let s := storeOf current in
  let s' := uploadMedia (Some captured) [imageAsset "u1" 1] 9 s in
  locked current = true
  /\ exists a',
       album s' = Some a'
       /\ unplacedMedia a' = unplacedMedia current ++ [imageAsset "u1" 1]
       /\ pages a' = pages current
       /\ locked a' = locked current
       /\ history s' = sliceLast 19 (history s) ++ [current]
       /\ redoStack s' = [].
Proof.
  intros captured current s. split; [reflexivity|].
  apply (uploadMedia_reaches_a_locked_album captured current [imageAsset "u1" 1] 9 s);
    reflexivity.
Defined.
